(** * gamebox: the image transform cache and the SpriteBox geometry

    A shallow embedding of [src/gamebox.py]: the class [_ImageCache]
    ([cache_surface], [get_transform], [load_filename_or_url],
    [_get_filename], [_get_url]) and the class [SpriteBox] ([__init__],
    [from_image], [from_color], [_set_key], the edge accessors, [overlap],
    [touches], [move], [move_speed], [move_to_stop_overlapping], [scale_by],
    [flip], [rotate], [full_size] and the [size], [width], [height], [color]
    and [image] setters, [contains], the four [*_touches] predicates,
    [move_both_to_stop_overlapping], [copy_at] and [copy]); then the class
    [Camera], the mouse properties, [render_text] with [from_text],
    [Key.is_pressed] and [timer_loop].  What pygame draws is not modelled:
    [Camera.draw], [from_circle], [from_polygon] and [load_sprite_sheet] are
    left out.

    Python objects live in explicit stores: the class attribute
    [_ImageCache._known_images] is a finite map from [_ImageKey] tuples to
    surfaces, every [Surface] carries the object identity Python's [id]
    returns, and every [SpriteBox] is a location in a heap, so that two names
    for one box alias as they do in Python.  Python exceptions are values of
    the type [exn]; a method is a state transformer that returns a result or
    raises, keeping the writes it made before raising.  Numbers are a type
    class with two instances, binary64 floats and the rationals.

    The file has three parts: the model, the vocabulary of the
    specification, and the lemmas and theorems. *)

From Stdlib Require Import ZArith QArith Qround Qabs Lia Lqa String Ascii List.
From Stdlib Require Import Floats.PrimFloat Floats.SpecFloat Floats.FloatOps Floats.FloatAxioms.
From Stdlib Require Import Numbers.Cyclic.Int63.Uint63.
From Equations Require Import Equations.
From stdpp Require Import base option gmap strings pretty.

Local Open Scope Z_scope.

(** ** Exceptions and results *)

(** The exception classes the modelled code can raise.  [OSError] stands for
    the whole [OSError] family ([FileNotFoundError], [urllib.error.URLError]):
    the only place that tells exceptions apart is the [except OSError] clause
    of [load_filename_or_url].  [PygameError] is [pygame.error], a subclass of
    [RuntimeError].  [HTTPException] is the family of [http.client]
    ([InvalidURL], [BadStatusLine], [IncompleteRead]), none of which is an
    [OSError].  [TypeError] is what hashing an unhashable object raises. *)
Inductive exn : Type :=
  | ValueError (msg : string)
  | OverflowError (msg : string)
  | ZeroDivisionError
  | OSError (msg : string)
  | PygameError (msg : string)
  | AttributeError (msg : string)
  | HTTPException (msg : string)
  | TypeError (msg : string).

Definition is_OSError (e : exn) : bool :=
  match e with OSError _ => true | _ => false end.

Inductive result (A : Type) : Type :=
  | Ok (a : A)
  | Raise (e : exn).
Arguments Ok {A} a.
Arguments Raise {A} e.

(** ** A state monad with exceptions *)

Record M (S A : Type) : Type := MkM { run : S -> result A * S }.
Arguments MkM {S A} run.
Arguments run {S A} m s.

Definition ret {S A} (a : A) : M S A := MkM (fun s => (Ok a, s)).

Definition raise {S A} (e : exn) : M S A := MkM (fun s => (Raise e, s)).

Definition bind {S A B} (c : M S A) (k : A -> M S B) : M S B :=
  MkM (fun s => match run c s with
                | (Ok a, s') => run (k a) s'
                | (Raise e, s') => (Raise e, s')
                end).

Definition gets {S A} (f : S -> A) : M S A := MkM (fun s => (Ok (f s), s)).

Definition modify {S} (f : S -> S) : M S unit := MkM (fun s => (Ok tt, f s)).

(** [try: c except OSError: h] *)
Definition try_except_OSError {S A} (c : M S A) (h : M S A) : M S A :=
  MkM (fun s => match run c s with
                | (Raise e, s') => if is_OSError e then run h s' else (Raise e, s')
                | r => r
                end).

Notation "'let*' x ':=' c 'in' k" := (bind c (fun x => k))
  (at level 10, x name, c at level 100, k at level 200).
Notation "c ';;' k" := (bind c (fun _ => k))
  (at level 100, k at level 200, right associativity).

(** Whether a run returned normally. *)
Definition returns {S A} (r : result A * S) : bool :=
  match r with (Ok _, _) => true | _ => false end.

(** ** Python numbers

    Positions, speeds and sizes are Python numbers, in practice [float]s: the
    edge accessors divide by two with [/], which yields a [float] whatever
    the operands are.  The embedding is written once over a type [F] with the
    operations the code uses, and instantiated twice: with the kernel's
    binary64 floats, which is what CPython computes with, and with the
    rationals, which is arithmetic without rounding. *)
Class PyNum (F : Type) : Type := {
  num_of_Z : Z -> F;
  num_add : F -> F -> F;
  num_sub : F -> F -> F;
  num_mul : F -> F -> F;
  num_div : F -> F -> F;
  num_neg : F -> F;
  num_eqb : F -> F -> bool;
  num_ltb : F -> F -> bool;
  num_leb : F -> F -> bool;
  (** [int(x)]: truncation toward zero; raises on NaN and on infinities *)
  num_int : F -> result Z
}.

(** [a / b] with Python's check of the divisor *)
Definition py_div {S F} `{PyNum F} (a b : F) : M S F :=
  if num_eqb b (num_of_Z 0) then raise ZeroDivisionError
  else ret (num_div a b).

(** [max(a, b, c, d)]: CPython keeps the first item and replaces it by a
    later one only when [item > current]. *)
Definition py_max2 {F} `{PyNum F} (cur item : F) : F :=
  if num_ltb cur item then item else cur.

Definition py_max4 {F} `{PyNum F} (a b c d : F) : F :=
  py_max2 (py_max2 (py_max2 a b) c) d.

(** *** binary64 *)

(** An [int] operand of a float operation: the binary64 number nearest to
    it, ties to even, as [float(z)] gives it.  Python raises [OverflowError]
    for an [int] of 2^1024 or more in magnitude, where this yields an
    infinity; the ints the code converts are literals, sizes of surfaces and
    positions on the screen. *)
Definition float_of_Z (z : Z) : float :=
  SF2Prim (binary_normalize prec emax z 0 false).

Definition float_int (f : float) : result Z :=
  match Prim2SF f with
  | S754_zero _ => Ok 0
  | S754_finite s m e =>
      let mag := if 0 <=? e then Z.shiftl (Zpos m) e
                 else Z.shiftr (Zpos m) (- e) in
      Ok (if s then - mag else mag)
  | S754_infinity _ => Raise (OverflowError "cannot convert float infinity to integer")
  | S754_nan => Raise (ValueError "cannot convert float NaN to integer")
  end.

#[export] Instance float_PyNum : PyNum float := {|
  num_of_Z := float_of_Z;
  num_add := PrimFloat.add;
  num_sub := PrimFloat.sub;
  num_mul := PrimFloat.mul;
  num_div := PrimFloat.div;
  num_neg := PrimFloat.opp;
  num_eqb := PrimFloat.eqb;
  num_ltb := PrimFloat.ltb;
  num_leb := PrimFloat.leb;
  num_int := float_int
|}.

(** *** Rationals: arithmetic without rounding *)

Definition Q_int (q : Q) : result Z := Ok (Z.quot (Qnum q) (Zpos (Qden q))).

#[export] Instance Q_PyNum : PyNum Q := {|
  num_of_Z := inject_Z;
  num_add := Qplus;
  num_sub := Qminus;
  num_mul := Qmult;
  num_div := Qdiv;
  num_neg := Qopp;
  num_eqb := Qeq_bool;
  num_ltb := fun a b => negb (Qle_bool b a);
  num_leb := Qle_bool;
  num_int := Q_int
|}.

(** A number type computes exactly when it embeds into the rationals with
    every operation the geometry uses commuting with the embedding. *)
Class ExactNum (F : Type) `{PyNum F} : Type := {
  toQ : F -> Q;
  toQ_of_Z : forall z, (toQ (num_of_Z z) == inject_Z z)%Q;
  toQ_add : forall a b, (toQ (num_add a b) == toQ a + toQ b)%Q;
  toQ_sub : forall a b, (toQ (num_sub a b) == toQ a - toQ b)%Q;
  toQ_mul : forall a b, (toQ (num_mul a b) == toQ a * toQ b)%Q;
  toQ_neg : forall a, (toQ (num_neg a) == - toQ a)%Q;
  toQ_div : forall a b, ~ (toQ b == 0)%Q -> (toQ (num_div a b) == toQ a / toQ b)%Q;
  toQ_eqb : forall a b, num_eqb a b = Qeq_bool (toQ a) (toQ b);
  toQ_ltb : forall a b, num_ltb a b = negb (Qle_bool (toQ b) (toQ a));
  toQ_leb : forall a b, num_leb a b = Qle_bool (toQ a) (toQ b)
}.

(** [abs(x)], which only [SpriteBox.contains] uses. *)
Class PyAbs (F : Type) : Type := { num_abs : F -> F }.

#[export] Instance float_PyAbs : PyAbs float := {| num_abs := PrimFloat.abs |}.

#[export] Instance Q_PyAbs : PyAbs Q := {| num_abs := Qabs |}.

Class ExactAbs (F : Type) `{ExactNum F} `{PyAbs F} : Type := {
  toQ_abs : forall a, (toQ (num_abs a) == Qabs (toQ a))%Q
}.

(** ** Surfaces, cache keys and the outside world *)

(** What a surface shows, as the history of the operations that made it. *)
Inductive Pixels : Type :=
  | PxDecoded (data : N)
  | PxDrawn (tag : N)
  | PxRotozoom (p : Pixels) (angle : Z)
  | PxSmoothscale (p : Pixels) (w h : Z)
  | PxFlip (p : Pixels).

(** A [pygame.Surface] object: [surf_id] is what [id(surface)] returns. *)
Record Surface : Type := {
  surf_id : N;
  get_width : Z;
  get_height : Z;
  surf_pixels : Pixels
}.

(** [class _ImageKey(NamedTuple)]: [(key, flip, w, h, angle)], compared
    field by field as Python compares tuples. *)
Abbreviation _ImageKey := (string * bool * Z * Z * Z)%type.

(** [_ImageKey(key)], with the defaults of the other fields *)
Definition _ImageKey_of (key : string) : _ImageKey := (key, false, 0, 0, 0).

Inductive FileContent : Type :=
  | FileImage (w h : Z) (data : N)
  | FileGarbage.

(** The calls into pygame and urllib that do real work, in the order they
    were made (most recent first). *)
Inductive Op : Type :=
  | OpLoad (filename : string)
  | OpDownload (url filename : string)
  | OpRotozoom (base : N) (angle : Z)
  | OpSmoothscale (base : N) (w h : Z)
  | OpFlip (base : N).

(** [video_mode] tells whether [pygame.display.set_mode] has returned, so
    that a display surface exists: [Surface.convert_alpha] needs one. *)
Record World : Type := {
  _known_images : gmap _ImageKey Surface;
  next_id : N;
  files : gmap string FileContent;
  web : gmap string FileContent;
  oplog : list Op;
  video_mode : bool
}.

Definition set_known_images (f : gmap _ImageKey Surface -> gmap _ImageKey Surface)
    (s : World) : World :=
  {| _known_images := f (_known_images s); next_id := next_id s;
     files := files s; web := web s; oplog := oplog s; video_mode := video_mode s |}.

Definition set_next_id (f : N -> N) (s : World) : World :=
  {| _known_images := _known_images s; next_id := f (next_id s);
     files := files s; web := web s; oplog := oplog s; video_mode := video_mode s |}.

Definition set_files (f : gmap string FileContent -> gmap string FileContent)
    (s : World) : World :=
  {| _known_images := _known_images s; next_id := next_id s;
     files := f (files s); web := web s; oplog := oplog s; video_mode := video_mode s |}.

Definition set_oplog (f : list Op -> list Op) (s : World) : World :=
  {| _known_images := _known_images s; next_id := next_id s;
     files := files s; web := web s; oplog := f (oplog s); video_mode := video_mode s |}.

Definition set_video_mode (v : bool) (s : World) : World :=
  {| _known_images := _known_images s; next_id := next_id s;
     files := files s; web := web s; oplog := oplog s; video_mode := v |}.

(** What the embedding takes from outside the repository, each with the
    exception the library raises instead:
    - the size of the surface [pygame.transform.rotozoom(surface, angle, 1)]
      returns, or the [pygame.error] it raises when that surface cannot be
      made;
    - the exception [pygame.transform.smoothscale] raises for a size it
      cannot take (beyond a C [int], or more than the memory holds), if any;
      a negative size that it can read raises [ValueError];
    - [os.path.basename(urllib.parse.urlparse(url).path)], or the
      [ValueError] of [urlparse] for a URL it cannot split;
    - the exception [urllib.request.urlretrieve] raises for a URL it cannot
      fetch: an [OSError] ([URLError], [HTTPError], a timeout), or one that
      is none, such as [http.client.InvalidURL] for a URL with a space in it
      and [ValueError] for one whose scheme cannot be read. *)
Class Externals : Type := {
  rotozoom_size : Z -> Z -> Z -> result (Z * Z);
  smoothscale_refused : Z -> Z -> option exn;
  url_basename : string -> result string;
  fetch_error : string -> exn
}.

Definition new_surface (w h : Z) (px : Pixels) : M World Surface :=
  MkM (fun s => (Ok {| surf_id := next_id s; get_width := w; get_height := h;
                       surf_pixels := px |},
                 set_next_id N.succ s)).

Definition log_op (o : Op) : M World unit := modify (set_oplog (cons o)).

Fixpoint str_contains (needle hay : string) : bool :=
  String.prefix needle hay ||
  match hay with
  | EmptyString => false
  | String _ rest => str_contains needle rest
  end.

Module os_path.
Definition exists_ (path : string) : M World bool :=
  gets (fun s => bool_decide (is_Some (files s !! path))).
End os_path.

Module urllib.
Section with_externals.
Context `{Externals}.

(** [urllib.request.urlretrieve(url, filename)]: a URL that cannot be
    fetched raises what [fetch_error] says, an [OSError] or not; opening an
    unnamed file to write to raises [FileNotFoundError], an [OSError]. *)
Definition urlretrieve (url filename : string) : M World unit :=
  let* w := gets web in
  match w !! url with
  | None => raise (fetch_error url)
  | Some content =>
      if decide (filename = EmptyString)
      then raise (OSError "FileNotFoundError")
      else log_op (OpDownload url filename);;
           modify (set_files <[filename := content]>)
  end.
End with_externals.
End urllib.

Module pygame.
(** [pygame.image.load(filename).convert_alpha()]: the file is decoded
    first, and [convert_alpha] raises [pygame.error] when no display has
    been set. *)
Definition image_load (filename : string) : M World Surface :=
  let* fs := gets files in
  match fs !! filename with
  | None => raise (OSError "FileNotFoundError")
  | Some FileGarbage => raise (PygameError "Unsupported image format")
  | Some (FileImage w h data) =>
      log_op (OpLoad filename);;
      let* video := gets video_mode in
      if video then new_surface w h (PxDecoded data)
      else raise (PygameError "No video mode has been set")
  end.

Section transform.
Context `{Externals}.

(** [pygame.transform.rotozoom(base, angle, 1)] *)
Definition rotozoom (base : Surface) (angle : Z) : M World Surface :=
  match rotozoom_size (get_width base) (get_height base) angle with
  | Ok (w, h) =>
      log_op (OpRotozoom (surf_id base) angle);;
      new_surface w h (PxRotozoom (surf_pixels base) angle)
  | Raise e => raise e
  end.

(** [pygame.transform.smoothscale(base, (w, h))] *)
Definition smoothscale (base : Surface) (w h : Z) : M World Surface :=
  match smoothscale_refused w h with
  | Some e => raise e
  | None =>
      if decide (w < 0 \/ h < 0)
      then raise (ValueError "Cannot scale to negative size")
      else log_op (OpSmoothscale (surf_id base) w h);;
           new_surface w h (PxSmoothscale (surf_pixels base) w h)
  end.

(** [pygame.transform.flip(base, True, False)] *)
Definition flip (base : Surface) : M World Surface :=
  log_op (OpFlip (surf_id base));;
  new_surface (get_width base) (get_height base) (PxFlip (surf_pixels base)).
End transform.
End pygame.

(** ** [class _ImageCache] *)

Definition cache_put (k : _ImageKey) (v : Surface) : M World unit :=
  modify (set_known_images <[k := v]>).

(** The transformations a key still asks for: rotation above scaling above
    flipping.  Every recursive call of [get_transform] asks for fewer. *)
Definition key_rank (k : _ImageKey) : nat :=
  let '(_, flip, w, h, angle) := k in
  ((if decide (angle = 0%Z) then 0 else 4) +
   (if decide (w = 0%Z /\ h = 0%Z) then 0 else 2) +
   (if flip then 1 else 0))%nat.

Module _ImageCache.
Definition surface_key (surface : Surface) : string :=
  "__id__" +:+ pretty (surf_id surface).

Definition cache_surface (surface : Surface) : M World unit :=
  let sid := surface_key surface in
  let key := _ImageKey_of sid in
  let* known := gets _known_images in
  match known !! _ImageKey_of sid with
  | None =>
      cache_put key surface;;
      cache_put (sid, false, get_width surface, get_height surface, 0) surface
  | Some _ => ret tt
  end.

Definition quote : string := String "034"%char EmptyString.

Definition fetch_error_message (filename_or_url : string) : string :=
  "An error occurred while fetching image, are you sure the file/website name is "
    +:+ quote +:+ filename_or_url +:+ quote +:+ "?".

Definition _get_filename (filename : string) : M World Surface :=
  let* image := pygame.image_load filename in
  cache_put (_ImageKey_of filename) image;;
  cache_put (filename, false, get_width image, get_height image, 0) image;;
  cache_surface image;;
  ret image.

Section with_externals.
Context `{Externals}.

Definition _get_url (url : string) : M World Surface :=
  let* filename :=
    match url_basename url with
    | Ok filename => ret filename
    | Raise e => raise e
    end in
  let* present := os_path.exists_ filename in
  (if present then ret tt
   else
     let url := if str_contains "://" url then url else "http://" +:+ url in
     urllib.urlretrieve url filename);;
  _get_filename filename.

Definition load_filename_or_url (filename_or_url : string) : M World Surface :=
  let key := _ImageKey_of filename_or_url in
  let* known := gets _known_images in
  match known !! key with
  | Some image => ret image
  | None =>
      try_except_OSError
        (let* present := os_path.exists_ filename_or_url in
         if present then _get_filename filename_or_url
         else _get_url filename_or_url)
        (raise (ValueError (fetch_error_message filename_or_url)))
  end.

Equations? get_transform (k : _ImageKey) : M World Surface by wf (key_rank k) lt :=
get_transform (key, flip, w, h, angle) :=
  let* known := gets _known_images in
  let* ans :=
    match known !! (key, flip, w, h, angle) with
    | Some ans => ret ans
    | None =>
        match decide (angle = 0) with
        | right _ =>
            let* base := get_transform (key, flip, w, h, 0) in
            let* img := pygame.rotozoom base angle in
            cache_put (key, flip, w, h, angle) img;;
            ret img
        | left _ =>
            match decide (w = 0 /\ h = 0) with
            | right _ =>
                let* base := get_transform (key, flip, 0, 0, 0) in
                let* img := pygame.smoothscale base w h in
                cache_put (key, flip, w, h, angle) img;;
                ret img
            | left _ =>
                match decide (flip = true) with
                | left _ =>
                    let* base := get_transform (key, false, 0, 0, 0) in
                    let* img := pygame.flip base in
                    cache_put (key, flip, w, h, angle) img;;
                    ret img
                | right _ =>
                    let* img := load_filename_or_url key in
                    cache_put (key, flip, w, h, angle) img;;
                    ret img
                end
            end
        end
    end in
  match decide (w = 0 /\ h = 0) with
  | left _ =>
      let* tmp :=
        match decide (angle = 0) with
        | right _ => get_transform (key, flip, w, h, 0)
        | left _ => ret ans
        end in
      cache_put (key, flip, get_width tmp, get_height tmp, angle) ans
  | right _ => ret tt
  end;;
  ret ans.
Proof.
  all: unfold key_rank; repeat case_decide; destruct flip; simpl; try lia;
    try congruence; try tauto.
Qed.
End with_externals.
End _ImageCache.

(** ** [class SpriteBox] *)

(** [_ColorValue]: a name, a mapped [int], a tuple of three or of four
    [int]s, a list of [int]s, or a [pygame.Color] object.  The last two are
    not hashable. *)
Inductive _ColorValue : Type :=
  | ColorName (name : string)
  | ColorRGB (r g b : Z)
  | ColorRGBA (r g b a : Z)
  | ColorInt (value : Z)
  | ColorList (values : list Z)
  | ColorObject (r g b a : Z).

(** Whether [hash(color)] returns. *)
Definition hashable (color : _ColorValue) : bool :=
  match color with
  | ColorList _ | ColorObject _ _ _ _ => false
  | _ => true
  end.

(** The instance attributes of a [SpriteBox] object. *)
Module box.
Record t (F : Type) : Type := mk {
  x : F;
  y : F;
  speedx : F;
  speedy : F;
  _key : option _ImageKey;
  _image : option Surface;
  _color : option _ColorValue;
  _w : F;
  _h : F
}.
Arguments mk {F}.
Arguments x {F}.
Arguments y {F}.
Arguments speedx {F}.
Arguments speedy {F}.
Arguments _key {F}.
Arguments _image {F}.
Arguments _color {F}.
Arguments _w {F}.
Arguments _h {F}.

Section setters.
Context {F : Type}.
Definition set_x (v : F) (b : t F) : t F :=
  mk v (y b) (speedx b) (speedy b) (_key b) (_image b) (_color b) (_w b) (_h b).
Definition set_y (v : F) (b : t F) : t F :=
  mk (x b) v (speedx b) (speedy b) (_key b) (_image b) (_color b) (_w b) (_h b).
Definition set_speedx (v : F) (b : t F) : t F :=
  mk (x b) (y b) v (speedy b) (_key b) (_image b) (_color b) (_w b) (_h b).
Definition set_speedy (v : F) (b : t F) : t F :=
  mk (x b) (y b) (speedx b) v (_key b) (_image b) (_color b) (_w b) (_h b).
Definition set_key (v : option _ImageKey) (b : t F) : t F :=
  mk (x b) (y b) (speedx b) (speedy b) v (_image b) (_color b) (_w b) (_h b).
Definition set_image (v : option Surface) (b : t F) : t F :=
  mk (x b) (y b) (speedx b) (speedy b) (_key b) v (_color b) (_w b) (_h b).
Definition set_color (v : option _ColorValue) (b : t F) : t F :=
  mk (x b) (y b) (speedx b) (speedy b) (_key b) (_image b) v (_w b) (_h b).
Definition set_w (v : F) (b : t F) : t F :=
  mk (x b) (y b) (speedx b) (speedy b) (_key b) (_image b) (_color b) v (_h b).
Definition set_h (v : F) (b : t F) : t F :=
  mk (x b) (y b) (speedx b) (speedy b) (_key b) (_image b) (_color b) (_w b) v.
End setters.
End box.

(** The whole program state: the world the image cache works on and the heap
    of [SpriteBox] objects, addressed by object identity. *)
Record State (F : Type) : Type := {
  world : World;
  boxes : gmap N (box.t F);
  next_box : N
}.
Arguments world {F}.
Arguments boxes {F}.
Arguments next_box {F}.

Definition set_world {F} (w : World) (s : State F) : State F :=
  {| world := w; boxes := boxes s; next_box := next_box s |}.

Definition set_boxes {F} (f : gmap N (box.t F) -> gmap N (box.t F)) (s : State F)
    : State F :=
  {| world := world s; boxes := f (boxes s); next_box := next_box s |}.

(** A call into [_ImageCache] from a [SpriteBox] method. *)
Definition lift_world {F A} (c : M World A) : M (State F) A :=
  MkM (fun s => let '(r, w') := run c (world s) in (r, set_world w' s)).

(** [self.attr] *)
Definition getattr {F A} (self : N) (attr : box.t F -> A) : M (State F) A :=
  MkM (fun s => match boxes s !! self with
                | Some b => (Ok (attr b), s)
                | None => (Raise (AttributeError "no such object"), s)
                end).

(** [self.attr = v] *)
Definition setattr {F} (self : N) (upd : box.t F -> box.t F) : M (State F) unit :=
  MkM (fun s => match boxes s !! self with
                | Some b => (Ok tt, set_boxes <[self := upd b]> s)
                | None => (Raise (AttributeError "no such object"), s)
                end).

(** The image argument of the constructors and of [_set_key]:
    [str | Surface]. *)
Inductive ImageRef : Type :=
  | RefStr (name : string)
  | RefSurface (surface : Surface).

Definition key_name (k : _ImageKey) : string := let '(n, _, _, _, _) := k in n.
Definition key_flip (k : _ImageKey) : bool := let '(_, f, _, _, _) := k in f.
Definition key_w (k : _ImageKey) : Z := let '(_, _, w, _, _) := k in w.
Definition key_h (k : _ImageKey) : Z := let '(_, _, _, h, _) := k in h.
Definition key_angle (k : _ImageKey) : Z := let '(_, _, _, _, a) := k in a.

Module SpriteBox.
Section methods.
Context {F : Type} `{PyNum F} `{Externals}.

Abbreviation St := (State F).

Definition zero : F := num_of_Z 0.
Definition two : F := num_of_Z 2.
(** the literal [0.5] *)
Definition half : F := num_div (num_of_Z 1) (num_of_Z 2).

(** [int(v)] *)
Definition py_int (v : F) : M St Z :=
  match num_int v with
  | Ok z => ret z
  | Raise e => raise e
  end.

Definition _set_key (self : N) (name : ImageRef) (flip : bool)
    (width height angle : F) : M St unit :=
  let* key :=
    match name with
    | RefSurface surface =>
        lift_world (_ImageCache.cache_surface surface);;
        ret (_ImageCache.surface_key surface)
    | RefStr name => ret name
    end in
  let* width := py_int (num_add width half) in
  let* height := py_int (num_add height half) in
  let* angle := py_int angle in
  let angle := ((angle mod 360) + 360) mod 360 in
  let* unrot := lift_world (_ImageCache.get_transform (key, flip, width, height, 0)) in
  let '(width, height) :=
    if decide (width = 0 /\ height = 0)
    then (get_width unrot, get_height unrot)
    else (width, height) in
  setattr self (box.set_key (Some (key, flip, width, height, angle)));;
  let* image :=
    lift_world (_ImageCache.get_transform (key, flip, width, height, angle)) in
  setattr self (box.set_image (Some image));;
  setattr self (box.set_color None);;
  setattr self (box.set_w (num_of_Z (get_width image)));;
  setattr self (box.set_h (num_of_Z (get_height image))).

(** *** Edges *)

Definition left (self : N) : M St F :=
  let* x := getattr self box.x in
  let* w := getattr self box._w in
  ret (num_sub x (num_div w two)).

Definition right (self : N) : M St F :=
  let* x := getattr self box.x in
  let* w := getattr self box._w in
  ret (num_add x (num_div w two)).

Definition top (self : N) : M St F :=
  let* y := getattr self box.y in
  let* h := getattr self box._h in
  ret (num_sub y (num_div h two)).

Definition bottom (self : N) : M St F :=
  let* y := getattr self box.y in
  let* h := getattr self box._h in
  ret (num_add y (num_div h two)).

(** *** Collision geometry *)

(** The four gaps [l], [r], [t], [b] that [overlap] and [touches] both
    compute. *)
Definition gaps (self other : N) (padding : F) (padding2 : option F)
    : M St (F * F * F * F) :=
  let padding2 := default padding padding2 in
  let* ol := left other in
  let* sr := right self in
  let l := num_sub (num_sub ol sr) padding in
  let* sl := left self in
  let* or := right other in
  let r := num_sub (num_sub sl or) padding in
  let* ot := top other in
  let* sb := bottom self in
  let t := num_sub (num_sub ot sb) padding2 in
  let* st := top self in
  let* ob := bottom other in
  let b := num_sub (num_sub st ob) padding2 in
  ret (l, r, t, b).

(** The [if]/[elif] chain of [overlap] on the four gaps; a two-element
    list is a pair.  The zeros of the result are the integer [0] in Python,
    which every later operation on it takes as the zero of the numbers it
    meets, as [zero] is here. *)
Definition overlap_of (l r t b : F) : F * F :=
  let m := py_max4 l r t b in
  if num_leb zero m then (zero, zero)
  else if num_eqb m l then (l, zero)
  else if num_eqb m r then (num_neg r, zero)
  else if num_eqb m t then (zero, t)
  else (zero, num_neg b).

Definition overlap (self other : N) (padding : F) (padding2 : option F)
    : M St (F * F) :=
  let* g := gaps self other padding padding2 in
  let '(l, r, t, b) := g in
  ret (overlap_of l r t b).

Definition touches (self other : N) (padding : F) (padding2 : option F)
    : M St bool :=
  let* g := gaps self other padding padding2 in
  let '(l, r, t, b) := g in
  ret (num_leb (py_max4 l r t b) zero).

(** *** Movement *)

Definition move (self : N) (x y : F) : M St unit :=
  let* x0 := getattr self box.x in
  setattr self (box.set_x (num_add x0 x));;
  let* y0 := getattr self box.y in
  setattr self (box.set_y (num_add y0 y)).

(** [move(coords)] on a two-element list: the [Sequence] overload passes
    its length check and calls [move(coords[0], coords[1])]. *)
Definition move_coords (self : N) (coords : F * F) : M St unit :=
  move self (fst coords) (snd coords).

Definition move_speed (self : N) : M St unit :=
  let* sx := getattr self box.speedx in
  let* sy := getattr self box.speedy in
  move self sx sy.

(** [o != [0, 0]] *)
Definition ne_zero_zero (o : F * F) : bool :=
  negb (num_eqb (fst o) zero && num_eqb (snd o) zero).

Definition move_to_stop_overlapping (self other : N) (padding : F)
    (padding2 : option F) : M St unit :=
  let* o := overlap self other padding padding2 in
  if ne_zero_zero o then
    move_coords self o;;
    let* sx := getattr self box.speedx in
    (if num_ltb (num_mul (fst o) sx) zero
     then setattr self (box.set_speedx zero) else ret tt);;
    let* sy := getattr self box.speedy in
    (if num_ltb (num_mul (snd o) sy) zero
     then setattr self (box.set_speedy zero) else ret tt)
  else ret tt.

(** *** Size, orientation and image *)

Definition scale_by (self : N) (multiplier : F) : M St unit :=
  let* k := getattr self box._key in
  match k with
  | None =>
      let* w := getattr self box._w in
      setattr self (box.set_w (num_mul w multiplier));;
      let* h := getattr self box._h in
      setattr self (box.set_h (num_mul h multiplier))
  | Some key =>
      _set_key self (RefStr (key_name key)) (key_flip key)
        (num_mul (num_of_Z (key_w key)) multiplier)
        (num_mul (num_of_Z (key_h key)) multiplier)
        (num_of_Z (key_angle key))
  end.

Definition set_width (self : N) (value : F) : M St unit :=
  let* w := getattr self box._w in
  let* multiplier := py_div value w in
  scale_by self multiplier.

Definition set_height (self : N) (value : F) : M St unit :=
  let* h := getattr self box._h in
  let* multiplier := py_div value h in
  scale_by self multiplier.

Definition set_size (self : N) (value : F * F) : M St unit :=
  let* img := getattr self box._image in
  let* k := getattr self box._key in
  match img, k with
  | Some _, Some key =>
      _set_key self (RefStr (key_name key)) (key_flip key)
        (fst value) (snd value) (num_of_Z (key_angle key))
  | _, _ =>
      setattr self (box.set_w (fst value));;
      setattr self (box.set_h (snd value))
  end.

Definition set_color (self : N) (value : _ColorValue) : M St unit :=
  setattr self (box.set_image None);;
  setattr self (box.set_key None);;
  setattr self (box.set_color (Some value)).

Definition set_image (self : N) (value : ImageRef) : M St unit :=
  let* k := getattr self box._key in
  match k with
  | Some key =>
      _set_key self value (key_flip key) (num_of_Z (key_w key))
        (num_of_Z (key_h key)) (num_of_Z (key_angle key))
  | None => _set_key self value false zero zero zero
  end.

Definition full_size (self : N) : M St unit :=
  let* k := getattr self box._key in
  match k with
  | None => ret tt
  | Some key =>
      _set_key self (RefStr (key_name key)) (key_flip key) zero zero
        (num_of_Z (key_angle key))
  end.

Definition flip (self : N) : M St unit :=
  let* k := getattr self box._key in
  match k with
  | None => ret tt
  | Some key =>
      _set_key self (RefStr (key_name key)) (negb (key_flip key))
        (num_of_Z (key_w key)) (num_of_Z (key_h key))
        (num_of_Z (key_angle key))
  end.

Definition rotate (self : N) (angle : F) : M St unit :=
  let* k := getattr self box._key in
  match k with
  | None => ret tt
  | Some key =>
      _set_key self (RefStr (key_name key)) (key_flip key)
        (num_of_Z (key_w key)) (num_of_Z (key_h key))
        (num_add (num_of_Z (key_angle key)) angle)
  end.

(** *** Construction *)

(** A new object.  Python leaves [_key], [_image], [_color], [_w] and
    [_h] unset until [__init__] assigns them; here they start as [None]
    and zero.  A box made with neither image nor colour, whose size Python
    refuses to read, is therefore a box of size zero here. *)
Definition allocate (x y : F) : M St N :=
  MkM (fun s =>
    let self := next_box s in
    (Ok self,
     {| world := world s;
        boxes := <[self := box.mk x y zero zero None None None zero zero]> (boxes s);
        next_box := N.succ self |})).

Definition __init__ (self : N) (image : option ImageRef)
    (color : option _ColorValue) (w h : option F) : M St unit :=
  match image with
  | Some image =>
      _set_key self image false zero zero zero;;
      match w, h with
      | Some w, Some h => set_size self (w, h)
      | Some w, None => set_width self w
      | None, Some h => set_height self h
      | None, None => ret tt
      end
  | None =>
      match color with
      | Some color =>
          match w, h with
          | Some w, Some h =>
              setattr self (box.set_key None);;
              setattr self (box.set_image None);;
              setattr self (box.set_color (Some color));;
              setattr self (box.set_w w);;
              setattr self (box.set_h h)
          | _, _ => raise (ValueError "must supply size of color box")
          end
      | None => ret tt
      end
  end.

(** [SpriteBox(x, y, image, color, w, h)] *)
Definition new (x y : F) (image : option ImageRef)
    (color : option _ColorValue) (w h : option F) : M St N :=
  let* self := allocate x y in
  __init__ self image color w h;;
  ret self.

Definition from_image (x y : F) (filename_or_url : ImageRef) : M St N :=
  let* image :=
    match filename_or_url with
    | RefSurface surface =>
        lift_world (_ImageCache.cache_surface surface);;
        ret surface
    | RefStr name => lift_world (_ImageCache.load_filename_or_url name)
    end in
  new x y (Some (RefSurface image)) None None None.

Definition from_color (x y : F) (color : _ColorValue) (width height : F)
    : M St N :=
  new x y None (Some color) (Some width) (Some height).

(** [copy_at] hands [__init__] the image the box shows and its colour,
    whichever it has, with the size it has now. *)
Definition copy_at (self : N) (newx newy : F) : M St N :=
  let* image := getattr self box._image in
  let* color := getattr self box._color in
  let* w := getattr self box._w in
  let* h := getattr self box._h in
  new newx newy (option_map RefSurface image) color (Some w) (Some h).

Definition copy (self : N) : M St N :=
  let* x := getattr self box.x in
  let* y := getattr self box.y in
  copy_at self x y.

(** *** Edge, corner, centre and speed setters *)

Definition set_left (self : N) (value : F) : M St unit :=
  let* w := getattr self box._w in
  setattr self (box.set_x (num_add value (num_div w two))).

Definition set_right (self : N) (value : F) : M St unit :=
  let* w := getattr self box._w in
  setattr self (box.set_x (num_sub value (num_div w two))).

Definition set_top (self : N) (value : F) : M St unit :=
  let* h := getattr self box._h in
  setattr self (box.set_y (num_add value (num_div h two))).

Definition set_bottom (self : N) (value : F) : M St unit :=
  let* h := getattr self box._h in
  setattr self (box.set_y (num_sub value (num_div h two))).

Definition center (self : N) : M St (F * F) :=
  let* x := getattr self box.x in
  let* y := getattr self box.y in
  ret (x, y).

Definition set_center (self : N) (value : F * F) : M St unit :=
  setattr self (box.set_x (fst value));;
  setattr self (box.set_y (snd value)).

Definition topleft (self : N) : M St (F * F) :=
  let* l := left self in
  let* t := top self in
  ret (l, t).

Definition set_topleft (self : N) (value : F * F) : M St unit :=
  set_left self (fst value);;
  set_top self (snd value).

Definition topright (self : N) : M St (F * F) :=
  let* r := right self in
  let* t := top self in
  ret (r, t).

Definition set_topright (self : N) (value : F * F) : M St unit :=
  set_right self (fst value);;
  set_top self (snd value).

Definition bottomleft (self : N) : M St (F * F) :=
  let* l := left self in
  let* b := bottom self in
  ret (l, b).

Definition set_bottomleft (self : N) (value : F * F) : M St unit :=
  set_left self (fst value);;
  set_bottom self (snd value).

Definition bottomright (self : N) : M St (F * F) :=
  let* r := right self in
  let* b := bottom self in
  ret (r, b).

Definition set_bottomright (self : N) (value : F * F) : M St unit :=
  set_right self (fst value);;
  set_bottom self (snd value).

Definition speed (self : N) : M St (F * F) :=
  let* sx := getattr self box.speedx in
  let* sy := getattr self box.speedy in
  ret (sx, sy).

Definition set_speed (self : N) (value : F * F) : M St unit :=
  setattr self (box.set_speedx (fst value));;
  setattr self (box.set_speedy (snd value)).

(** *** Which edge touches *)

(** the literal [1] *)
Definition one : F := num_of_Z 1.

Definition bottom_touches (self other : N) (padding : F) (padding2 : option F)
    : M St bool :=
  let padding2 := default padding padding2 in
  let* o := overlap self other (num_add padding one) (Some (num_add padding2 one)) in
  ret (num_ltb (snd o) zero).

Definition top_touches (self other : N) (padding : F) (padding2 : option F)
    : M St bool :=
  let padding2 := default padding padding2 in
  let* o := overlap self other (num_add padding one) (Some (num_add padding2 one)) in
  ret (num_ltb zero (snd o)).

Definition left_touches (self other : N) (padding : F) (padding2 : option F)
    : M St bool :=
  let padding2 := default padding padding2 in
  let* o := overlap self other (num_add padding one) (Some (num_add padding2 one)) in
  ret (num_ltb zero (fst o)).

Definition right_touches (self other : N) (padding : F) (padding2 : option F)
    : M St bool :=
  let padding2 := default padding padding2 in
  let* o := overlap self other (num_add padding one) (Some (num_add padding2 one)) in
  ret (num_ltb (fst o) zero).

(** *** Pushing both boxes apart *)

Definition move_both_to_stop_overlapping (self other : N) (padding : F)
    (padding2 : option F) : M St unit :=
  let* o := overlap self other padding padding2 in
  if ne_zero_zero o then
    move self (num_div (fst o) two) (num_div (snd o) two);;
    move other (num_div (num_neg (fst o)) two) (num_div (num_neg (snd o)) two);;
    (if negb (num_eqb (fst o) zero) then
       let* sx := getattr self box.speedx in
       let* ox := getattr other box.speedx in
       setattr self (box.set_speedx (num_div (num_add sx ox) two));;
       let* sx := getattr self box.speedx in
       setattr other (box.set_speedx sx)
     else ret tt);;
    (if negb (num_eqb (snd o) zero) then
       let* sy := getattr self box.speedy in
       let* oy := getattr other box.speedy in
       setattr self (box.set_speedy (num_div (num_add sy oy) two));;
       let* sy := getattr self box.speedy in
       setattr other (box.set_speedy sy)
     else ret tt)
  else ret tt.

(** *** Sequences of coordinates

    The [Sequence] overloads of [move] and [contains] take one sequence
    [coords]; here it is [x :: y :: rest], a sequence of at least two
    items. *)

Definition expected_two (coords : list F) : string :=
  "Expected 2 coordinates, but got " +:+ pretty (length coords) +:+ " instead".

Definition move_sequence (self : N) (x y : F) (rest : list F) : M St unit :=
  let coords := x :: y :: rest in
  if (2 <? length coords)%nat
  then raise (ValueError (expected_two coords))
  else move self x y.

Section containment.
Context `{PyAbs F}.

Definition contains (self : N) (x y : F) : M St bool :=
  let* sx := getattr self box.x in
  let* w := getattr self box._w in
  if num_ltb (num_mul (num_abs (num_sub x sx)) two) w then
    let* sy := getattr self box.y in
    let* h := getattr self box._h in
    ret (num_ltb (num_mul (num_abs (num_sub y sy)) two) h)
  else ret false.

Definition contains_sequence (self : N) (x y : F) (rest : list F) : M St bool :=
  let coords := x :: y :: rest in
  if (2 <? length coords)%nat
  then raise (ValueError (expected_two coords))
  else contains self x y.
End containment.
End methods.
End SpriteBox.

(** ** A concrete outside world

    Used to run the embedding; stand-ins for pygame and urllib, not their
    own formulas.  A rotation through a quarter turn swaps the sides, a half
    turn keeps them, any other angle yields the bounding square of side
    [w + h], and a surface with a side above 16384 cannot be made; the name
    of a downloaded file is what follows the last slash of the URL; a URL
    with a space in it is invalid, and any other URL that is not served
    fails with [URLError]. *)

Fixpoint basename_from (acc s : string) : string :=
  match s with
  | EmptyString => acc
  | String c rest =>
      if Ascii.eqb c "/"%char then basename_from EmptyString rest
      else basename_from (acc +:+ String c EmptyString) rest
  end.

Definition too_large (w h : Z) : bool := (16384 <? w) || (16384 <? h).

Definition example_externals : Externals := {|
  rotozoom_size := fun w h angle =>
    let '(w', h') :=
      if decide (angle mod 180 = 0) then (w, h)
      else if decide (angle mod 90 = 0) then (h, w)
      else (w + h, w + h) in
    if too_large w' h' then Raise (PygameError "Out of memory") else Ok (w', h');
  smoothscale_refused := fun w h =>
    if too_large w h then Some (PygameError "Out of memory") else None;
  url_basename := fun url => Ok (basename_from EmptyString url);
  fetch_error := fun url =>
    if str_contains " " url
    then HTTPException "URL can't contain control characters"
    else OSError "URLError"
|}.

(** A working directory with a 3x2 image and a file that is no image, and a
    web server with one 4x4 image; a display has been set and nothing is
    cached yet. *)
Definition example_world : World := {|
  _known_images := ∅;
  next_id := 0%N;
  files := {[ "a.png"%string := FileImage 3 2 7%N;
              "notes.txt"%string := FileGarbage ]};
  web := {[ "http://example.com/cat.png"%string := FileImage 4 4 9%N ]};
  oplog := [];
  video_mode := true
|}.

Definition example_state (F : Type) : State F :=
  {| world := example_world; boxes := ∅; next_box := 0%N |}.

(** * The camera, the mouse, the text cache and the event loop

    The rest of [src/gamebox.py]: the class [Camera], the properties of
    [SpriteBox] that read the mouse, [_ImageCache.render_text] with
    [SpriteBox.from_text], [Key.is_pressed] and [timer_loop].  What is drawn
    on the screen is not modelled. *)

#[export] Instance _ColorValue_eq_dec : EqDecision _ColorValue.
Proof. solve_decision. Defined.

Definition _ColorValue_to_sum (c : _ColorValue)
    : string + Z * Z * Z + Z * Z * Z * Z + Z + list Z + Z * Z * Z * Z :=
  match c with
  | ColorName name => inl (inl (inl (inl (inl name))))
  | ColorRGB r g b => inl (inl (inl (inl (inr (r, g, b)))))
  | ColorRGBA r g b a => inl (inl (inl (inr (r, g, b, a))))
  | ColorInt value => inl (inl (inr value))
  | ColorList values => inl (inr values)
  | ColorObject r g b a => inr (r, g, b, a)
  end.

Definition _ColorValue_of_sum
    (c : string + Z * Z * Z + Z * Z * Z * Z + Z + list Z + Z * Z * Z * Z)
    : _ColorValue :=
  match c with
  | inl (inl (inl (inl (inl name)))) => ColorName name
  | inl (inl (inl (inl (inr (r, g, b))))) => ColorRGB r g b
  | inl (inl (inl (inr (r, g, b, a)))) => ColorRGBA r g b a
  | inl (inl (inr value)) => ColorInt value
  | inl (inr values) => ColorList values
  | inr (r, g, b, a) => ColorObject r g b a
  end.

#[export] Instance _ColorValue_countable : Countable _ColorValue.
Proof.
  refine (inj_countable' _ColorValue_to_sum _ColorValue_of_sum _).
  intros []; reflexivity.
Defined.

(** [class _TextKey(NamedTuple)]: [(text, fontsize, color, bold, italic)] *)
Abbreviation _TextKey := (string * Z * _ColorValue * bool * bool)%type.

(** The instance attributes of the [Camera] object; [keys] holds the codes
    of the keys that are down. *)
Module camera.
Record t (F : Type) : Type := mk {
  _surface : Surface;
  _x : F;
  _y : F;
  keys : gset Z
}.
Arguments mk {F}.
Arguments _surface {F}.
Arguments _x {F}.
Arguments _y {F}.
Arguments keys {F}.

Section setters.
Context {F : Type}.
Definition set_x (v : F) (c : t F) : t F := mk (_surface c) v (_y c) (keys c).
Definition set_y (v : F) (c : t F) : t F := mk (_surface c) (_x c) v (keys c).
Definition set_keys (f : gset Z -> gset Z) (c : t F) : t F :=
  mk (_surface c) (_x c) (_y c) (f (keys c)).
End setters.
End camera.

(** The state of a running game: the image cache and the boxes, the class
    attribute [Camera.instance], the class attribute
    [_ImageCache._known_text], what [pygame.mouse.get_pos()] and
    [pygame.mouse.get_pressed()] return, and the interval of the timer
    [pygame.time.set_timer(pygame.USEREVENT, ...)] set last (0: none). *)
Record Game (F : Type) : Type := {
  state : State F;
  instance : option (camera.t F);
  _known_text : gmap _TextKey Surface;
  mouse_pos : Z * Z;
  mouse_pressed : list bool;
  timer : Z
}.
Arguments state {F}.
Arguments instance {F}.
Arguments _known_text {F}.
Arguments mouse_pos {F}.
Arguments mouse_pressed {F}.
Arguments timer {F}.

Definition set_state {F : Type} (s : State F) (g : Game F) : Game F :=
  {| state := s; instance := instance g; _known_text := _known_text g;
     mouse_pos := mouse_pos g; mouse_pressed := mouse_pressed g; timer := timer g |}.

Definition set_instance {F : Type} (c : option (camera.t F)) (g : Game F) : Game F :=
  {| state := state g; instance := c; _known_text := _known_text g;
     mouse_pos := mouse_pos g; mouse_pressed := mouse_pressed g; timer := timer g |}.

Definition set_known_text {F : Type} (f : gmap _TextKey Surface -> gmap _TextKey Surface)
    (g : Game F) : Game F :=
  {| state := state g; instance := instance g; _known_text := f (_known_text g);
     mouse_pos := mouse_pos g; mouse_pressed := mouse_pressed g; timer := timer g |}.

Definition set_timer {F : Type} (interval : Z) (g : Game F) : Game F :=
  {| state := state g; instance := instance g; _known_text := _known_text g;
     mouse_pos := mouse_pos g; mouse_pressed := mouse_pressed g; timer := interval |}.

(** A call of a [SpriteBox] method, and a call into [_ImageCache]. *)
Definition lift_state {F A : Type} (c : M (State F) A) : M (Game F) A :=
  MkM (fun g => let '(r, s') := run c (state g) in (r, set_state s' g)).

Definition lift_cache {F A : Type} (c : M World A) : M (Game F) A :=
  lift_state (lift_world c).

(** What the embedding takes from pygame's display and font modules: the
    size of the surface [pygame.display.set_mode((width, height), flags)]
    returns, and the size and the content of the surface that
    [font.render(text, True, color)] returns for the default font of the
    given size and style; both may raise. *)
Class Screen : Type := {
  set_mode_size : Z -> Z -> bool -> result (Z * Z);
  font_render : string -> Z -> _ColorValue -> bool -> bool -> result (Z * Z * Pixels)
}.

(** What [Camera(...)] does: it returns, raises [RuntimeError], or lets an
    exception of pygame through. *)
Inductive constructed : Type :=
  | Constructed
  | RuntimeError (msg : string)
  | Raised (e : exn).

(** ** [class Camera] *)

Module Camera.
Section methods.
Context {F : Type} `{PyNum F} `{Screen}.

Abbreviation G := (Game F).

Definition zero : F := num_of_Z 0.
Definition two : F := num_of_Z 2.

(** [pygame.display.set_mode((width, height), flags)] *)
Definition set_mode (width height : Z) (full_screen : bool) : M World Surface :=
  match set_mode_size width height full_screen with
  | Ok (w, h) => modify (set_video_mode true);; new_surface w h (PxDrawn 0)
  | Raise e => raise e
  end.

Definition __init__ (width height : Z) (full_screen : bool) (g : G)
    : constructed * G :=
  match instance g with
  | Some _ => (RuntimeError "You can only have one Camera at a time", g)
  | None =>
      match run (lift_cache (set_mode width height full_screen)) g with
      | (Raise e, g') => (Raised e, g')
      | (Ok surface, g') =>
          (Constructed, set_instance (Some (camera.mk surface zero zero ∅)) g')
      end
  end.

(** [self.attr] and [self.attr = v] on the camera, which is the object
    [Camera.instance] holds. *)
Definition getattr {A} (attr : camera.t F -> A) : M G A :=
  MkM (fun g => match instance g with
                | Some c => (Ok (attr c), g)
                | None => (Raise (AttributeError "no such object"), g)
                end).

Definition setattr (upd : camera.t F -> camera.t F) : M G unit :=
  MkM (fun g => match instance g with
                | Some c => (Ok tt, set_instance (Some (upd c)) g)
                | None => (Raise (AttributeError "no such object"), g)
                end).

Definition width : M G Z :=
  let* surface := getattr camera._surface in
  ret (get_width surface).

Definition height : M G Z :=
  let* surface := getattr camera._surface in
  ret (get_height surface).

Definition size : M G (Z * Z) :=
  let* w := width in
  let* h := height in
  ret (w, h).

Definition left : M G F := getattr camera._x.

Definition set_left (value : F) : M G unit := setattr (camera.set_x value).

Definition right : M G F :=
  let* x := getattr camera._x in
  let* w := width in
  ret (num_add x (num_of_Z w)).

Definition set_right (value : F) : M G unit :=
  let* w := width in
  setattr (camera.set_x (num_sub value (num_of_Z w))).

Definition top : M G F := getattr camera._y.

Definition set_top (value : F) : M G unit := setattr (camera.set_y value).

Definition bottom : M G F :=
  let* y := getattr camera._y in
  let* h := height in
  ret (num_add y (num_of_Z h)).

Definition set_bottom (value : F) : M G unit :=
  let* h := height in
  setattr (camera.set_y (num_sub value (num_of_Z h))).

Definition x : M G F :=
  let* x := getattr camera._x in
  let* w := width in
  ret (num_add x (num_div (num_of_Z w) two)).

Definition set_x (value : F) : M G unit :=
  let* w := width in
  setattr (camera.set_x (num_sub value (num_div (num_of_Z w) two))).

Definition y : M G F :=
  let* y := getattr camera._y in
  let* h := height in
  ret (num_add y (num_div (num_of_Z h) two)).

Definition set_y (value : F) : M G unit :=
  let* h := height in
  setattr (camera.set_y (num_sub value (num_div (num_of_Z h) two))).

Definition center : M G (F * F) :=
  let* cx := x in
  let* cy := y in
  ret (cx, cy).

Definition set_center (value : F * F) : M G unit :=
  set_x (fst value);;
  set_y (snd value).

Definition topleft : M G (F * F) :=
  let* l := left in
  let* t := top in
  ret (l, t).

Definition set_topleft (value : F * F) : M G unit :=
  set_left (fst value);;
  set_top (snd value).

Definition topright : M G (F * F) :=
  let* r := right in
  let* t := top in
  ret (r, t).

Definition set_topright (value : F * F) : M G unit :=
  set_right (fst value);;
  set_top (snd value).

Definition bottomleft : M G (F * F) :=
  let* l := left in
  let* b := bottom in
  ret (l, b).

Definition set_bottomleft (value : F * F) : M G unit :=
  set_left (fst value);;
  set_bottom (snd value).

Definition bottomright : M G (F * F) :=
  let* r := right in
  let* b := bottom in
  ret (r, b).

Definition set_bottomright (value : F * F) : M G unit :=
  set_right (fst value);;
  set_bottom (snd value).

(** [self.x += x; self.y += y] *)
Definition move (dx dy : F) : M G unit :=
  let* cx := x in
  set_x (num_add cx dx);;
  let* cy := y in
  set_y (num_add cy dy).

(** The [Sequence] overload of [move], on the sequence [x :: y :: rest]. *)
Definition move_sequence (dx dy : F) (rest : list F) : M G unit :=
  let coords := dx :: dy :: rest in
  if (2 <? length coords)%nat
  then raise (ValueError ("Expected 2 coordinates, but got "
                            +:+ pretty (length coords) +:+ " instead"))
  else
    let* cx := x in
    set_x (num_add cx dx);;
    let* cy := y in
    set_y (num_add cy dy).

Definition mousex : M G F :=
  let* pos := gets mouse_pos in
  let* x := getattr camera._x in
  ret (num_add (num_of_Z (fst pos)) x).

Definition mousey : M G F :=
  let* pos := gets mouse_pos in
  let* y := getattr camera._y in
  ret (num_add (num_of_Z (snd pos)) y).

Definition mouse : M G (F * F) :=
  let* pos := gets mouse_pos in
  let* x := getattr camera._x in
  let* y := getattr camera._y in
  ret (num_add (num_of_Z (fst pos)) x, num_add (num_of_Z (snd pos)) y).

(** [any(pygame.mouse.get_pressed())] *)
Definition mouseclick : M G bool :=
  let* pressed := gets mouse_pressed in
  ret (existsb (fun b => b) pressed).
End methods.
End Camera.

(** ** [class Key]: a member is the code of a key *)

Module Key.
Section methods.
Context {F : Type} `{PyNum F}.

Definition K_ESCAPE : Z := 27.

Definition is_pressed (self : Z) : M (Game F) bool :=
  let* keys := Camera.getattr camera.keys in
  ret (bool_decide (self ∈ keys)).

Definition is_any_pressed : M (Game F) bool :=
  let* keys := Camera.getattr camera.keys in
  ret (negb (bool_decide (keys = ∅))).
End methods.
End Key.

(** ** [_ImageCache.render_text] and the [SpriteBox] properties that need
    the camera *)

Module _TextCache.
Section methods.
Context {F : Type} `{Screen}.

(** [pygame.font.Font(None, fontsize)], [set_bold], [set_italic] and
    [render(text, True, color)] *)
Definition render (text : string) (fontsize : Z) (color : _ColorValue)
    (bold italic : bool) : M World Surface :=
  match font_render text fontsize color bold italic with
  | Ok (w, h, px) => new_surface w h px
  | Raise e => raise e
  end.

(** [key in cls._known_text] hashes the key, and with it the colour. *)
Definition render_text (text : string) (fontsize : Z) (color : _ColorValue)
    (bold italic : bool) : M (Game F) Surface :=
  let key := (text, fontsize, color, bold, italic) in
  if hashable color then
    let* known := gets _known_text in
    match known !! key with
    | Some image => ret image
    | None =>
        let* image := lift_cache (render text fontsize color bold italic) in
        modify (set_known_text <[key := image]>);;
        lift_cache (_ImageCache.cache_surface image);;
        ret image
    end
  else raise (TypeError "unhashable type").
End methods.
End _TextCache.

Module SpriteBoxGame.
Section methods.
Context {F : Type} `{PyNum F} `{PyAbs F} `{Externals} `{Screen}.

Definition from_text (x y : F) (text : string) (fontsize : Z)
    (color : _ColorValue) (bold italic : bool) : M (Game F) N :=
  let* image := _TextCache.render_text text fontsize color bold italic in
  lift_state (SpriteBox.new x y (Some (RefSurface image)) None None None).

Definition mousehover (self : N) : M (Game F) bool :=
  let* m := Camera.mouse in
  lift_state (SpriteBox.contains self (fst m) (snd m)).

Definition mouseclick (self : N) : M (Game F) bool :=
  let* hover := mousehover self in
  if hover then Camera.mouseclick else ret false.
End methods.
End SpriteBoxGame.

(** ** The event loop *)

(** What [pygame.event.wait()] returns, as far as [timer_loop] looks at
    it. *)
Inductive Event : Type :=
  | QUIT
  | KEYDOWN (key : Z)
  | KEYUP (key : Z)
  | USEREVENT
  | OtherEvent.

Section loops.
Context {F : Type} `{PyNum F}.

(** [not limit] *)
Definition not_limit (limit : option Z) : bool :=
  match limit with
  | None => true
  | Some n => n =? 0
  end.

(** The [while] loop of [timer_loop], run on the events the successive
    calls of [pygame.event.wait()] return.  The result is the value of
    [frames] when the loop is left, or [None] when the events run out and
    the loop is still waiting. *)
Fixpoint event_loop (callback : M (Game F) unit) (limit : option Z) (frames : Z)
    (events : list Event) : M (Game F) (option Z) :=
  if not_limit limit || (frames <? default 0 limit) then
    match events with
    | [] => ret None
    | event :: events =>
        match event with
        | QUIT => ret (Some frames)
        | KEYDOWN key =>
            if key =? Key.K_ESCAPE then ret (Some frames)
            else
              Camera.setattr (camera.set_keys (fun keys => {[ key ]} ∪ keys));;
              event_loop callback limit frames events
        | KEYUP key =>
            let* keys := Camera.getattr camera.keys in
            (if bool_decide (key ∈ keys)
             then Camera.setattr (camera.set_keys (fun keys => keys ∖ {[ key ]}))
             else ret tt);;
            event_loop callback limit frames events
        | USEREVENT =>
            callback;;
            event_loop callback limit (frames + 1) events
        | OtherEvent => event_loop callback limit frames events
        end
    end
  else ret (Some frames).

(** [timer_loop(fps, callback, limit)]; [None] when the loop is still
    waiting for an event. *)
Definition timer_loop (fps : Z) (callback : M (Game F) unit) (limit : option Z)
    (events : list Event) : M (Game F) (option bool) :=
  let fps := if 60 <? fps then 60 else fps in
  let* quotient := py_div (num_of_Z 1000) (num_of_Z fps) in
  let* interval :=
    match num_int quotient with
    | Ok z => ret z
    | Raise e => raise e
    end in
  modify (set_timer interval);;
  let* frames := event_loop callback limit 0 events in
  match frames with
  | None => ret None
  | Some frames =>
      modify (set_timer 0);;
      ret (Some (match limit with
                 | Some n => n =? frames
                 | None => false
                 end))
  end.

Definition freeze_loop : M (Game F) unit := modify (set_timer 0).
End loops.

(** ** A concrete screen

    Any window size that is not negative is granted; a text is rendered
    eight pixels wide per character and as high as the font size, and a font
    size below one is refused. *)
Definition example_screen : Screen := {|
  set_mode_size := fun width height _ =>
    if decide (width < 0 \/ height < 0)
    then Raise (PygameError "Cannot set negative sized display mode")
    else Ok (width, height);
  font_render := fun text fontsize _ _ _ =>
    if decide (fontsize < 1)
    then Raise (PygameError "Invalid font size")
    else Ok (8 * Z.of_nat (String.length text), fontsize, PxDrawn 1)
|}.

(** A game that has just started: no camera, no text rendered, the mouse
    at (100, 50) with no button down. *)
Definition example_game (F : Type) : Game F := {|
  state := example_state F;
  instance := None;
  _known_text := ∅;
  mouse_pos := (100, 50);
  mouse_pressed := [false; false; false];
  timer := 0
|}.

(** * Vocabulary of the specification

    The predicates the theorems are stated with, and the concrete surfaces,
    boxes and programs they are run on. *)

(** ** The cache *)

(** The entries of the cache that relate an unrotated image to its own size:
    under a key with angle 0 and a size other than (0, 0), the image has that
    size. *)
Definition entry_ok (k : _ImageKey) (v : Surface) : Prop :=
  key_angle k = 0 -> (key_w k <> 0 \/ key_h k <> 0) ->
  get_width v = key_w k /\ get_height v = key_h k.

Definition cache_wf (known : gmap _ImageKey Surface) : Prop :=
  forall k v, known !! k = Some v -> entry_ok k v.

(** [s'] comes from [s] by writes to cache keys in [T] only, never removing
    a key, and keeping the cache well-formed. *)
Record cache_step (T : _ImageKey -> Prop) (s s' : World) : Prop := {
  step_frame : forall k, ~ T k -> _known_images s' !! k = _known_images s !! k;
  step_mono : forall k, is_Some (_known_images s !! k) -> is_Some (_known_images s' !! k);
  step_wf : cache_wf (_known_images s) -> cache_wf (_known_images s')
}.

Definition angle0 (k : _ImageKey) : Prop := key_angle k = 0.

(** The keys a call of [get_transform] may write: those of unrotated images
    and those with the requested angle. *)
Definition touched (k k2 : _ImageKey) : Prop :=
  key_angle k2 = 0 \/ key_angle k2 = key_angle k.

(** After a request of natural size: the unrotated image [tmp] is cached
    under the sentinel size and under its own size, and the answer is cached
    under [tmp]'s size with the requested angle. *)
Definition natural_alias_in (key : string) (flip : bool) (angle : Z)
    (img : Surface) (s : World) : Prop :=
  exists tmp,
    _known_images s !! (key, flip, 0, 0, 0) = Some tmp /\
    _known_images s !! (key, flip, get_width tmp, get_height tmp, 0) = Some tmp /\
    _known_images s !! (key, flip, get_width tmp, get_height tmp, angle) = Some img.


(** The URL that [_get_url] fetches for a reference. *)
Definition fetched_url (ref : string) : string :=
  if str_contains "://" ref then ref else "http://" +:+ ref.

Section cache_vocabulary.
Context `{Externals}.
Import _ImageCache.

(** The body of [get_transform], with the recursive calls as a parameter:
    the image a missing key is built from, and the extra entry for a key of
    natural size. *)
Definition compute_image (rec : _ImageKey -> M World Surface)
    (key : string) (flip : bool) (w h angle : Z) : M World Surface :=
  if decide (angle <> 0) then
    let* base := rec (key, flip, w, h, 0) in
    pygame.rotozoom base angle
  else if decide (w <> 0 \/ h <> 0) then
    let* base := rec (key, flip, 0, 0, 0) in
    pygame.smoothscale base w h
  else if flip then
    let* base := rec (key, false, 0, 0, 0) in
    pygame.flip base
  else _ImageCache.load_filename_or_url key.

Definition also_cache_natural (rec : _ImageKey -> M World Surface)
    (key : string) (flip : bool) (w h angle : Z) (ans : Surface) : M World unit :=
  if decide (w = 0 /\ h = 0) then
    let* tmp := if decide (angle <> 0) then rec (key, flip, w, h, 0) else ret ans in
    cache_put (key, flip, get_width tmp, get_height tmp, angle) ans
  else ret tt.

Definition gt_spec (k : _ImageKey) : Prop :=
  forall s r s', run (get_transform k) s = (r, s') ->
    cache_step (touched k) s s' /\
    forall img, r = Ok img ->
      _known_images s' !! k = Some img /\
      (key_w k = 0 -> key_h k = 0 ->
       natural_alias_in (key_name k) (key_flip k) (key_angle k) img s').
End cache_vocabulary.

(** ** Boxes *)

Section box_vocabulary.
Context {F : Type} `{PyNum F}.

(** The edges of a box as functions of its attributes. *)
Definition box_left (b : box.t F) : F :=
  num_sub (box.x b) (num_div (box._w b) SpriteBox.two).

Definition box_right (b : box.t F) : F :=
  num_add (box.x b) (num_div (box._w b) SpriteBox.two).

Definition box_top (b : box.t F) : F :=
  num_sub (box.y b) (num_div (box._h b) SpriteBox.two).

Definition box_bottom (b : box.t F) : F :=
  num_add (box.y b) (num_div (box._h b) SpriteBox.two).

(** The gaps between [self] and [other]: [(l, r, t, b)]. *)
Definition box_gaps (bs bo : box.t F) (padding padding2 : F) : F * F * F * F :=
  (num_sub (num_sub (box_left bo) (box_right bs)) padding,
   num_sub (num_sub (box_left bs) (box_right bo)) padding,
   num_sub (num_sub (box_top bo) (box_bottom bs)) padding2,
   num_sub (num_sub (box_top bs) (box_bottom bo)) padding2).

(** [(x, y, width, height)] *)
Definition geometry (b : box.t F) : F * F * F * F :=
  (box.x b, box.y b, box._w b, box._h b).

(** [b] moved by [(dx, dy)], everything else as it was. *)
Definition translated (dx dy : F) (b : box.t F) : box.t F :=
  box.mk (num_add (box.x b) dx) (num_add (box.y b) dy) (box.speedx b) (box.speedy b)
    (box._key b) (box._image b) (box._color b) (box._w b) (box._h b).

(** What [move_to_stop_overlapping] leaves of [self] when it moves it by
    [o]: the translated box, with a speed component set to zero where the
    push opposes it. *)
Definition pushed (o : F * F) (b : box.t F) : box.t F :=
  let b1 := translated (fst o) (snd o) b in
  let b2 := if num_ltb (num_mul (fst o) (box.speedx b1)) SpriteBox.zero
            then box.set_speedx SpriteBox.zero b1 else b1 in
  if num_ltb (num_mul (snd o) (box.speedy b2)) SpriteBox.zero
  then box.set_speedy SpriteBox.zero b2 else b2.

(** The invariant of a cache-backed box: its key carries the size of the
    unrotated image the cache holds for it, and its own size is the size of
    the image it shows, which the cache holds under the key. *)
Definition key_matches_image (s : State F) (self : N) : Prop :=
  exists b key flip w h angle unrot image,
    boxes s !! self = Some b /\
    box._key b = Some (key, flip, w, h, angle) /\
    0 <= angle < 360 /\
    _known_images (world s) !! (key, flip, w, h, 0) = Some unrot /\
    get_width unrot = w /\ get_height unrot = h /\
    (get_width unrot <> 0 \/ get_height unrot <> 0 -> ~ (w = 0 /\ h = 0)) /\
    box._image b = Some image /\
    _known_images (world s) !! (key, flip, w, h, angle) = Some image /\
    box._w b = num_of_Z (get_width image) /\
    box._h b = num_of_Z (get_height image) /\
    box._color b = None.

(** What [_set_key] stores: the key with the angle brought into [0, 360). *)
Definition stored_key (s : State F) (self : N) (key : string) (flip : bool)
    (angle : F) : Prop :=
  exists b w h z,
    boxes s !! self = Some b /\
    num_int angle = Ok z /\
    box._key b = Some (key, flip, w, h, z mod 360).

(** A box backed by the cache: it has a key and an image. *)
Definition cache_backed (b : box.t F) : Prop :=
  is_Some (box._key b) /\ is_Some (box._image b).
End box_vocabulary.

(** A flat box, as [SpriteBox.from_color] leaves it. *)
Definition color_box {F : Type} `{PyNum F} (x y w h : F) : box.t F :=
  box.mk x y SpriteBox.zero SpriteBox.zero None None (Some (ColorName "red")) w h.

(** A state with two boxes, at the locations 0 and 1. *)
Definition two_boxes {F : Type} (a b : box.t F) : State F :=
  {| world := example_world; boxes := <[1%N := b]> (<[0%N := a]> ∅); next_box := 2%N |}.

(** The mutators of [SpriteBox] that end in [_set_key]. *)
Inductive mutator (F : Type) : Type :=
  | MFlip
  | MRotate (angle : F)
  | MScaleBy (multiplier : F)
  | MFullSize
  | MSetSize (value : F * F)
  | MSetWidth (value : F)
  | MSetHeight (value : F)
  | MSetImage (value : ImageRef).
Arguments MFlip {F}.
Arguments MRotate {F} angle.
Arguments MScaleBy {F} multiplier.
Arguments MFullSize {F}.
Arguments MSetSize {F} value.
Arguments MSetWidth {F} value.
Arguments MSetHeight {F} value.
Arguments MSetImage {F} value.

Section mutator_vocabulary.
Context {F : Type} `{PyNum F} `{Externals}.
Import _ImageCache.

(** [_set_key] once the cache key of the image is chosen. *)
Definition set_key_rest (self : N) (key : string) (flip : bool)
    (width height angle : F) : M (State F) unit :=
  let* width := SpriteBox.py_int (num_add width SpriteBox.half) in
  let* height := SpriteBox.py_int (num_add height SpriteBox.half) in
  let* angle := SpriteBox.py_int angle in
  let angle := ((angle mod 360) + 360) mod 360 in
  let* unrot := lift_world (get_transform (key, flip, width, height, 0)) in
  let '(width, height) :=
    if decide (width = 0 /\ height = 0)
    then (get_width unrot, get_height unrot)
    else (width, height) in
  setattr self (box.set_key (Some (key, flip, width, height, angle)));;
  let* image := lift_world (get_transform (key, flip, width, height, angle)) in
  setattr self (box.set_image (Some image));;
  setattr self (box.set_color None);;
  setattr self (box.set_w (num_of_Z (get_width image)));;
  setattr self (box.set_h (num_of_Z (get_height image))).

Definition mutate (self : N) (m : mutator F) : M (State F) unit :=
  match m with
  | MFlip => SpriteBox.flip self
  | MRotate angle => SpriteBox.rotate self angle
  | MScaleBy multiplier => SpriteBox.scale_by self multiplier
  | MFullSize => SpriteBox.full_size self
  | MSetSize value => SpriteBox.set_size self value
  | MSetWidth value => SpriteBox.set_width self value
  | MSetHeight value => SpriteBox.set_height self value
  | MSetImage value => SpriteBox.set_image self value
  end.
End mutator_vocabulary.

(** ** Concrete surfaces, boxes and programs *)

Definition a_png : Surface :=
  {| surf_id := 0; get_width := 3; get_height := 2; surf_pixels := PxDecoded 7 |}.

Definition a_png_scaled : Surface :=
  {| surf_id := 1; get_width := 3; get_height := 2;
     surf_pixels := PxSmoothscale (PxDecoded 7) 3 2 |}.

Definition a_png_flipped_turned : Surface :=
  {| surf_id := 2; get_width := 2; get_height := 3;
     surf_pixels := PxRotozoom (PxFlip (PxDecoded 7)) 90 |}.

Definition a_png_turned (id : N) (angle : Z) : Surface :=
  {| surf_id := id; get_width := 5; get_height := 5;
     surf_pixels := PxRotozoom (PxDecoded 7) angle |}.

Definition after_a_png : World :=
  snd (run (@_ImageCache.get_transform example_externals ("a.png"%string, false, 0, 0, 0)) example_world).

Section float_examples.
Local Open Scope float_scope.

(** The Python literal [9.99]: the binary64 number nearest to it. *)
Definition float_9_99 : float := 0x1.3fae147ae147bp+3.

(** The Python literals [0.2] and [0.1]. *)
Definition float_0_2 : float := 0x1.999999999999ap-3.

Definition float_0_1 : float := 0x1.999999999999ap-4.

Definition near_boxes : State float :=
  two_boxes (color_box 0 0 10 10) (color_box float_9_99 0 10 10).

(** A box made from [a.png] with width 6, then turned, flipped and halved. *)
Definition example_box_program : M (State float) N :=
  let* self := @SpriteBox.new float _ example_externals 0 0
                 (Some (RefStr "a.png")) None (Some 6) None in
  @SpriteBox.rotate float _ example_externals self 90;;
  @SpriteBox.flip float _ example_externals self;;
  @SpriteBox.scale_by float _ example_externals self 0x1p-1;;
  ret self.
End float_examples.

(** ** The order of binary64 numbers

    A number that is not NaN has a rank, a triple of integers, and the
    comparisons of binary64 numbers are the lexicographic comparisons of the
    ranks: infinities at the ends, zero of either sign in the middle, and a
    finite number by its sign, then its exponent, then its mantissa. *)
Definition SFrank (f : spec_float) : Z * Z * Z :=
  match f with
  | S754_nan => (0, 0, 0)
  | S754_infinity true => (-2, 0, 0)
  | S754_infinity false => (2, 0, 0)
  | S754_zero _ => (0, 0, 0)
  | S754_finite true m e => (-1, - e, Zneg m)
  | S754_finite false m e => (1, e, Zpos m)
  end.

Definition lex_lt (p q : Z * Z * Z) : Prop :=
  let '(a1, b1, c1) := p in
  let '(a2, b2, c2) := q in
  a1 < a2 \/ (a1 = a2 /\ (b1 < b2 \/ (b1 = b2 /\ c1 < c2))).

(** [x] is a number: [x == x], which only NaN fails. *)
Definition is_number (x : float) : Prop := PrimFloat.eqb x x = true.

(** ** More vocabulary: what the other methods of [SpriteBox] leave *)

Section more_box_vocabulary.
Context {F : Type} `{PyNum F}.

(** What [move_both_to_stop_overlapping] leaves of [self] and of [other]
    when it moves them by the overlap [o]: each is translated by half of it,
    in opposite directions, and on an axis along which they were moved both
    get the mean of the two speeds. *)
Definition shared_push (o : F * F) (bs bo : box.t F) : box.t F * box.t F :=
  let bs1 := translated (num_div (fst o) SpriteBox.two)
               (num_div (snd o) SpriteBox.two) bs in
  let bo1 := translated (num_div (num_neg (fst o)) SpriteBox.two)
               (num_div (num_neg (snd o)) SpriteBox.two) bo in
  let '(bs2, bo2) :=
    if negb (num_eqb (fst o) SpriteBox.zero)
    then let v := num_div (num_add (box.speedx bs1) (box.speedx bo1)) SpriteBox.two in
         (box.set_speedx v bs1, box.set_speedx v bo1)
    else (bs1, bo1) in
  if negb (num_eqb (snd o) SpriteBox.zero)
  then let v := num_div (num_add (box.speedy bs2) (box.speedy bo2)) SpriteBox.two in
       (box.set_speedy v bs2, box.set_speedy v bo2)
  else (bs2, bo2).

(** A box that shows the image [v] under the key [k], and is otherwise as
    [b]. *)
Definition shows (b : box.t F) (k : _ImageKey) (v : Surface) : box.t F :=
  box.mk (box.x b) (box.y b) (box.speedx b) (box.speedy b) (Some k) (Some v) None
    (num_of_Z (get_width v)) (num_of_Z (get_height v)).

End more_box_vocabulary.

(** The key of a surface with its own size, and the world in which the
    surface is registered under its identity, at the sentinel size and at
    its own. *)
Definition natural_key (surface : Surface) : _ImageKey :=
  (_ImageCache.surface_key surface, false, get_width surface, get_height surface, 0).

Definition register (surface : Surface) (w : World) : World :=
  set_known_images
    (fun known => <[natural_key surface := surface]>
                    (<[_ImageKey_of (_ImageCache.surface_key surface) := surface]> known)) w.


Section exact_vocabulary.
Context {F : Type} `{ExactNum F}.
Local Open Scope Q_scope.

(** What a user reads after an assignment to an edge: the four edges of the
    box [self] in the state [s'], as rationals. *)
Definition reads_edges (s' : State F) (self : N) (l r t b : Q) : Prop :=
  exists vl vr vt vb,
    run (SpriteBox.left self) s' = (Ok vl, s') /\ toQ vl == l /\
    run (SpriteBox.right self) s' = (Ok vr, s') /\ toQ vr == r /\
    run (SpriteBox.top self) s' = (Ok vt, s') /\ toQ vt == t /\
    run (SpriteBox.bottom self) s' = (Ok vb, s') /\ toQ vb == b.


(** What a user reads of the camera in the game [g]: the left and the top
    edge as rationals, the size, and the other edges and the centre where
    that size puts them. *)
Definition camera_reads (g : Game F) (l t : Q) (w h : Z) : Prop :=
  exists vl vr vt vb vx vy,
    run Camera.left g = (Ok vl, g) /\ toQ vl == l /\
    run Camera.right g = (Ok vr, g) /\ toQ vr == l + inject_Z w /\
    run Camera.top g = (Ok vt, g) /\ toQ vt == t /\
    run Camera.bottom g = (Ok vb, g) /\ toQ vb == t + inject_Z h /\
    run Camera.center g = (Ok (vx, vy), g) /\
    toQ vx == l + inject_Z w / 2 /\ toQ vy == t + inject_Z h / 2 /\
    run Camera.size g = (Ok (w, h), g).

(** Where the mouse is in the world, as rationals. *)
Definition mouse_reads (g : Game F) (x y : Q) : Prop :=
  exists vx vy,
    run Camera.mouse g = (Ok (vx, vy), g) /\
    run Camera.mousex g = (Ok vx, g) /\ run Camera.mousey g = (Ok vy, g) /\
    toQ vx == x /\ toQ vy == y.
End exact_vocabulary.

(** The surface that pygame makes next in the game [g], with the given size
    and content. *)
Definition rendered {F : Type} (g : Game F) (w h : Z) (px : Pixels) : Surface :=
  {| surf_id := next_id (world (state g)); get_width := w; get_height := h;
     surf_pixels := px |}.

(** [n] calls of [c], one after the other. *)
Fixpoint times {S : Type} (n : nat) (c : M S unit) : M S unit :=
  match n with
  | O => ret tt
  | Datatypes.S n => c;; times n c
  end.

(** What the loop of [timer_loop] does with one event that does not stop
    it: a tick calls the callback, a key going down or up changes the set of
    keys, any other event is dropped; and with a list of such events, one
    after the other. *)
Definition handle {F : Type} (callback : M (Game F) unit) (event : Event)
    : M (Game F) unit :=
  match event with
  | USEREVENT => callback
  | KEYDOWN key => Camera.setattr (camera.set_keys (fun keys => {[ key ]} ∪ keys))
  | KEYUP key =>
      let* keys := Camera.getattr camera.keys in
      if bool_decide (key ∈ keys)
      then Camera.setattr (camera.set_keys (fun keys => keys ∖ {[ key ]}))
      else ret tt
  | _ => ret tt
  end.

Fixpoint handle_all {F : Type} (callback : M (Game F) unit) (events : list Event)
    : M (Game F) unit :=
  match events with
  | [] => ret tt
  | event :: events => handle callback event;; handle_all callback events
  end.

(** Whether an event asks the loop to stop: closing the window, or the
    Escape key going down. *)
Definition stops (event : Event) : bool :=
  match event with
  | QUIT => true
  | KEYDOWN key => key =? Key.K_ESCAPE
  | _ => false
  end.

(** How many of the events are ticks of the timer. *)
Fixpoint ticks (events : list Event) : Z :=
  match events with
  | [] => 0
  | USEREVENT :: events => 1 + ticks events
  | _ :: events => ticks events
  end.

(** Whether [key] is down after the events, when [before] says whether it
    was down before them: its last [KEYDOWN] or [KEYUP] decides. *)
Fixpoint pressed_after (key : Z) (events : list Event) (before : bool) : bool :=
  match events with
  | [] => before
  | KEYDOWN k :: events => pressed_after key events (if k =? key then true else before)
  | KEYUP k :: events => pressed_after key events (if k =? key then false else before)
  | _ :: events => pressed_after key events before
  end.

(** The test of the [while] loop of [timer_loop]. *)
Definition goes_on (limit : option Z) (frames : Z) : bool :=
  not_limit limit || (frames <? default 0 limit).

(** ** More concrete boxes and games *)

(** Two colour boxes over the rationals: a crate of 10 by 10 at the origin
    and a coin of 4 by 4 whose left edge lies on the right edge of the
    crate. *)
Definition crate : box.t Q := color_box 0%Q 0%Q 10%Q 10%Q.

Definition coin : box.t Q := color_box 7%Q 1%Q 4%Q 4%Q.

Definition crate_and_coin : State Q := two_boxes crate coin.

(** The same crate with a coin that reaches 3 pixels into it. *)
Definition coin_in_crate : State Q := two_boxes crate (color_box 4%Q 1%Q 4%Q 4%Q).

(** A surface the program has drawn itself. *)
Definition drawn : Surface :=
  {| surf_id := 40; get_width := 3; get_height := 2; surf_pixels := PxDrawn 1 |}.

(** The example game once [Camera(800, 600)] has run. *)
Definition started (F : Type) `{PyNum F} : Game F :=
  snd (Camera.__init__ (H0 := example_screen) 800 600 false (example_game F)).

(** A box that shows [a.png] at 10000 by 10000 pixels: turning it by an
    angle that is no multiple of 90 needs more than the example library
    gives. *)
Definition wide_box : State float :=
  snd (run (SpriteBox.new (H0 := example_externals) 0%float 0%float (Some (RefStr "a.png")) None
              (Some 10000%float) (Some 10000%float)) (example_state float)).

(** The example game with the two near boxes. *)
Definition walking : Game float := set_state near_boxes (example_game float).

(** * Lemmas about the image cache

    Reasoning about runs of the monad, then what each operation of
    [_ImageCache] does to the cache. *)

Lemma run_bind {S A B} (c : M S A) (k : A -> M S B) (s : S) :
  run (bind c k) s =
  match run c s with
  | (Ok a, s') => run (k a) s'
  | (Raise e, s') => (Raise e, s')
  end.
Proof. reflexivity. Qed.

(** A run that returns a value is the pair of that value and its final
    state. *)
Lemma run_result {S A} (c : M S A) (s : S) (a : A) :
  fst (run c s) = Ok a -> run c s = (Ok a, snd (run c s)).
Proof. destruct (run c s) as [r s']. cbn [fst snd]. intros ->. reflexivity. Qed.

Lemma bind_assoc {S A B C} (c : M S A) (k : A -> M S B) (k' : B -> M S C) :
  bind (bind c k) k' = bind c (fun a => bind (k a) k').
Proof.
  unfold bind. f_equal. apply functional_extensionality. intros s. simpl.
  destruct (run c s) as [[a|e] s1]; reflexivity.
Qed.

Lemma put_id (k : _ImageKey) (v : Surface) (s : World) :
  _known_images s !! k = Some v -> set_known_images <[k := v]> s = s.
Proof.
  intros Hk. destruct s as [known nid fs wb lg vm]. unfold set_known_images; simpl in *.
  f_equal. apply insert_id. exact Hk.
Qed.

Lemma cache_step_refl T s : cache_step T s s.
Proof. split; auto. Qed.

Lemma cache_step_trans T s1 s2 s3 :
  cache_step T s1 s2 -> cache_step T s2 s3 -> cache_step T s1 s3.
Proof.
  intros [f1 m1 w1] [f2 m2 w2]. split; auto.
  intros k Hk. rewrite f2, f1; auto.
Qed.

Lemma cache_step_weaken (T T' : _ImageKey -> Prop) s s' :
  (forall k, T k -> T' k) -> cache_step T s s' -> cache_step T' s s'.
Proof. intros HT [f m w]. split; auto. Qed.

Lemma cache_step_same T s s' :
  _known_images s' = _known_images s -> cache_step T s s'.
Proof. intros E. split; rewrite E; auto. Qed.

Lemma cache_step_put (T : _ImageKey -> Prop) k v s :
  T k -> entry_ok k v -> cache_step T s (set_known_images <[k := v]> s).
Proof.
  intros HT Hok. split; simpl.
  - intros k2 Hk2. rewrite lookup_insert_ne; [done|]. intros ->. auto.
  - intros k2 Hs. destruct (decide (k = k2)) as [->|Hne].
    + rewrite lookup_insert_eq. eauto.
    + rewrite lookup_insert_ne; auto.
  - intros Hwf k2 v2. destruct (decide (k = k2)) as [->|Hne].
    + rewrite lookup_insert_eq. intros [= <-]. exact Hok.
    + rewrite lookup_insert_ne; auto.
Qed.

Ltac mrun :=
  cbn [run bind ret raise gets modify try_except_OSError log_op cache_put
       new_surface fst snd] in *.

Lemma entry_ok_natural key flip v : entry_ok (key, flip, get_width v, get_height v, 0) v.
Proof. intros _ _. simpl. auto. Qed.

Lemma entry_ok_sentinel key flip angle v : entry_ok (key, flip, 0, 0, angle) v.
Proof. intros _ [Hw|Hh]; simpl in *; congruence. Qed.

Lemma entry_ok_rotated key flip w h angle v : angle <> 0 -> entry_ok (key, flip, w, h, angle) v.
Proof. intros Ha Hk. simpl in Hk. congruence. Qed.

Section primitives.
Context `{Externals}.

Lemma smoothscale_spec base w h s r s' :
  run (pygame.smoothscale base w h) s = (r, s') ->
  _known_images s' = _known_images s /\
  forall img, r = Ok img -> get_width img = w /\ get_height img = h.
Proof.
  unfold pygame.smoothscale. destruct (smoothscale_refused w h) as [e|].
  { mrun. intros [= <- <-]. split; [reflexivity|]. intros img [=]. }
  destruct (decide _); mrun; intros [= <- <-]; split; auto;
    intros img [= <-]; auto.
Qed.

Lemma rotozoom_spec base angle s r s' :
  run (pygame.rotozoom base angle) s = (r, s') ->
  _known_images s' = _known_images s.
Proof.
  unfold pygame.rotozoom. destruct (rotozoom_size _ _ _) as [[rw rh]|e]; mrun;
    intros [= <- <-]; reflexivity.
Qed.

Lemma flip_spec base s r s' :
  run (pygame.flip base) s = (r, s') ->
  _known_images s' = _known_images s /\
  forall img, r = Ok img -> get_width img = get_width base /\ get_height img = get_height base.
Proof.
  unfold pygame.flip. mrun. intros [= <- <-]. split; auto. intros img [= <-]. auto.
Qed.

Lemma image_load_spec filename s r s' :
  run (pygame.image_load filename) s = (r, s') ->
  _known_images s' = _known_images s.
Proof.
  unfold pygame.image_load. mrun. destruct (files s !! filename) as [[w h d|]|]; mrun;
    [cbn [video_mode set_oplog]; destruct (video_mode s); mrun| |];
    intros [= <- <-]; reflexivity.
Qed.

Lemma urlretrieve_spec url filename s r s' :
  run (urllib.urlretrieve url filename) s = (r, s') ->
  _known_images s' = _known_images s.
Proof.
  unfold urllib.urlretrieve. mrun. destruct (web s !! url); mrun.
  - destruct (decide _); mrun; intros [= <- <-]; reflexivity.
  - intros [= <- <-]; reflexivity.
Qed.

Lemma cache_surface_spec surface s :
  exists s', run (_ImageCache.cache_surface surface) s = (Ok tt, s') /\
  cache_step angle0 s s'.
Proof.
  unfold _ImageCache.cache_surface. mrun.
  destruct (_known_images s !! _) eqn:E; mrun.
  - eexists; split; [reflexivity|]. apply cache_step_refl.
  - eexists; split; [reflexivity|].
    eapply cache_step_trans; apply cache_step_put; try reflexivity.
    + apply entry_ok_sentinel.
    + apply entry_ok_natural.
Qed.

(** What [_get_filename] leaves in the cache. *)
Lemma _get_filename_spec filename s r s' :
  run (_ImageCache._get_filename filename) s = (r, s') ->
  cache_step angle0 s s' /\
  (forall e, r = Raise e -> _known_images s' = _known_images s) /\
  forall image, r = Ok image ->
    _known_images s' !! _ImageKey_of filename = Some image /\
    _known_images s' !! (filename, false, get_width image, get_height image, 0) = Some image.
Proof.
  unfold _ImageCache._get_filename. rewrite run_bind.
  destruct (run (pygame.image_load filename) s) as [[image|e] s1] eqn:E1.
  - apply image_load_spec in E1.
    mrun.
    set (s2 := set_known_images _ (set_known_images _ s1)).
    destruct (cache_surface_spec image s2) as (s3 & E3 & Hstep). rewrite E3. mrun.
    intros [= <- <-]. split; [|split; [discriminate|]].
    + eapply cache_step_trans; [|exact Hstep]. subst s2.
      eapply cache_step_trans; [apply cache_step_same; exact E1|].
      eapply cache_step_trans; apply cache_step_put; try reflexivity.
      * apply entry_ok_sentinel.
      * apply entry_ok_natural.
    + intros ? [= <-].
      assert (Hs2 : _known_images s2 !! _ImageKey_of filename = Some image /\
                    _known_images s2 !! (filename, false, get_width image, get_height image, 0) = Some image).
      { subst s2. simpl. split.
        - destruct (decide ((filename, false, get_width image, get_height image, 0) = _ImageKey_of filename)) as [->|Hne].
          + apply lookup_insert_eq.
          + rewrite lookup_insert_ne by auto. apply lookup_insert_eq.
        - apply lookup_insert_eq. }
      clear Hstep. revert E3. unfold _ImageCache.cache_surface. mrun.
      destruct (_known_images s2 !! _ImageKey_of (_ImageCache.surface_key image)) eqn:E; mrun.
      * intros [= <-]. exact Hs2.
      * intros [= <-]. clearbody s2. simpl.
        set (sid := _ImageCache.surface_key image) in *.
        assert (Hsid : sid <> filename).
        { intros ->. unfold _ImageKey_of in *. destruct Hs2 as [Hs2 _]. congruence. }
        split; (do 2 rewrite lookup_insert_ne by (unfold _ImageKey_of; congruence));
          apply Hs2.
  - mrun. intros [= <- <-]. apply image_load_spec in E1.
    split; [apply cache_step_same; exact E1|]. split; [auto|discriminate].
Qed.

End primitives.

Section cache.
Context `{Externals}.

Lemma _get_url_spec url s r s' :
  run (_ImageCache._get_url url) s = (r, s') -> cache_step angle0 s s'.
Proof.
  unfold _ImageCache._get_url, os_path.exists_. rewrite run_bind.
  destruct (url_basename url) as [filename|e0]; mrun;
    [|intros [= <- <-]; apply cache_step_refl].
  destruct (bool_decide _); mrun.
  - intros E. apply _get_filename_spec in E. apply E.
  - destruct (run (urllib.urlretrieve _ _) s) as [[[]|e] s1] eqn:E1;
      apply urlretrieve_spec in E1.
    + intros E. apply _get_filename_spec in E.
      eapply cache_step_trans; [apply cache_step_same; exact E1 | apply E].
    + intros [= <- <-]. apply cache_step_same; exact E1.
Qed.

Lemma load_filename_or_url_step ref s r s' :
  run (_ImageCache.load_filename_or_url ref) s = (r, s') -> cache_step angle0 s s'.
Proof.
  unfold _ImageCache.load_filename_or_url. mrun.
  destruct (_known_images s !! _ImageKey_of ref); mrun.
  - intros [= <- <-]. apply cache_step_refl.
  - unfold os_path.exists_. mrun.
    destruct (bool_decide _).
    + destruct (run (_ImageCache._get_filename ref) s) as [[img|e] s1] eqn:E1;
        apply _get_filename_spec in E1; destruct E1 as [E1 _].
      * intros [= <- <-]. exact E1.
      * destruct (is_OSError e); mrun; intros [= <- <-]; exact E1.
    + destruct (run (_ImageCache._get_url ref) s) as [[img|e] s1] eqn:E1;
        apply _get_url_spec in E1.
      * intros [= <- <-]. exact E1.
      * destruct (is_OSError e); mrun; intros [= <- <-]; exact E1.
Qed.

Lemma get_transform_body key flip w h angle :
  _ImageCache.get_transform (key, flip, w, h, angle) =
  let* known := gets _known_images in
  let* ans :=
    match known !! (key, flip, w, h, angle) with
    | Some ans => ret ans
    | None =>
        let* img := compute_image _ImageCache.get_transform key flip w h angle in
        cache_put (key, flip, w, h, angle) img;;
        ret img
    end in
  also_cache_natural _ImageCache.get_transform key flip w h angle ans;;
  ret ans.
Proof.
  rewrite _ImageCache.get_transform_equation_1.
  unfold compute_image, also_cache_natural.
  f_equal. apply functional_extensionality. intros known.
  f_equal.
  - destruct (known !! _); [reflexivity|].
    destruct (decide (angle = 0)), (decide (angle <> 0)); try tauto.
    + destruct (decide (w = 0 /\ h = 0)), (decide (w <> 0 \/ h <> 0)); try lia.
      * destruct flip; destruct (decide _); try congruence;
          rewrite ?bind_assoc; reflexivity.
      * rewrite bind_assoc; reflexivity.
    + rewrite bind_assoc; reflexivity.
  - apply functional_extensionality. intros ans.
    destruct (decide (w = 0 /\ h = 0)); [|reflexivity].
    destruct (decide (angle = 0)), (decide (angle <> 0)); try tauto; reflexivity.
Qed.
End cache.

Section get_transform_spec.
Context `{Externals}.
Import _ImageCache.

Lemma key_rank_ind (P : _ImageKey -> Prop) :
  (forall k, (forall k', (key_rank k' < key_rank k)%nat -> P k') -> P k) ->
  forall k, P k.
Proof.
  intros IH k. induction k as [k IHk] using (induction_ltof1 _ key_rank).
  apply IH. exact IHk.
Qed.

Lemma rank_unrotated key flip w h angle :
  angle <> 0 -> (key_rank (key, flip, w, h, 0%Z) < key_rank (key, flip, w, h, angle))%nat.
Proof. intros. unfold key_rank. repeat case_decide; destruct flip; simpl; lia. Qed.

Lemma rank_unscaled key flip w h :
  w <> 0 \/ h <> 0 ->
  (key_rank (key, flip, 0%Z, 0%Z, 0%Z) < key_rank (key, flip, w, h, 0%Z))%nat.
Proof. intros. unfold key_rank. repeat case_decide; destruct flip; simpl; lia. Qed.

Lemma rank_unflipped key :
  (key_rank (key, false, 0%Z, 0%Z, 0%Z) < key_rank (key, true, 0%Z, 0%Z, 0%Z))%nat.
Proof. unfold key_rank. repeat case_decide; simpl; lia. Qed.

Lemma touched_self k : touched k k.
Proof. right. reflexivity. Qed.

Lemma touched_angle0 k k2 : angle0 k2 -> touched k k2.
Proof. intros. left. assumption. Qed.

Lemma touched_unrotated key flip w h k k2 : touched (key, flip, w, h, 0) k2 -> touched k k2.
Proof. intros [E|E]; left; exact E. Qed.

Lemma cache_step_unrotated key flip w h k s s' :
  cache_step (touched (key, flip, w, h, 0)) s s' -> cache_step (touched k) s s'.
Proof. apply cache_step_weaken. intros k2. apply touched_unrotated. Qed.

Lemma cache_step_angle0 k s s' :
  cache_step angle0 s s' -> cache_step (touched k) s s'.
Proof. apply cache_step_weaken. intros k2. apply touched_angle0. Qed.

Lemma compute_and_put_spec key flip w h angle :
  (forall k', (key_rank k' < key_rank (key, flip, w, h, angle))%nat -> gt_spec k') ->
  forall s r s',
    run (let* img := compute_image get_transform key flip w h angle in
         cache_put (key, flip, w, h, angle) img;; ret img) s = (r, s') ->
    cache_step (touched (key, flip, w, h, angle)) s s' /\
    forall img, r = Ok img -> _known_images s' !! (key, flip, w, h, angle) = Some img.
Proof.
  intros IH s r s'. unfold compute_image.
  destruct (decide (angle <> 0)) as [Ha|Ha].
  { mrun. destruct (run (get_transform _) s) as [[base|e] sa] eqn:E1;
      apply IH in E1; try (apply rank_unrotated; assumption); destruct E1 as [E1 _];
      apply (cache_step_unrotated _ _ _ _ (key, flip, w, h, angle)) in E1.
    - destruct (run (pygame.rotozoom base angle) sa) as [[img|e] sb] eqn:E2;
        apply rotozoom_spec in E2; intros [= <- <-].
      + split; [|intros ? [= <-]; apply lookup_insert_eq].
        eapply cache_step_trans; [exact E1|].
        eapply cache_step_trans; [apply cache_step_same; exact E2|].
        apply cache_step_put; [apply touched_self | apply entry_ok_rotated; assumption].
      + split; [|discriminate].
        eapply cache_step_trans; [exact E1 | apply cache_step_same; exact E2].
    - intros [= <- <-]. split; [exact E1 | discriminate]. }
  assert (angle = 0) as -> by lia. clear Ha.
  destruct (decide (w <> 0 \/ h <> 0)) as [Hs|Hs].
  { mrun. destruct (run (get_transform _) s) as [[base|e] sa] eqn:E1;
      apply IH in E1; try (apply rank_unscaled; assumption); destruct E1 as [E1 _];
      apply (cache_step_unrotated _ _ _ _ (key, flip, w, h, 0)) in E1.
    - destruct (run (pygame.smoothscale base w h) sa) as [[img|e] sb] eqn:E2;
        apply smoothscale_spec in E2; destruct E2 as [E2 Hdim]; intros [= <- <-].
      + split; [|intros ? [= <-]; apply lookup_insert_eq].
        eapply cache_step_trans; [exact E1|].
        eapply cache_step_trans; [apply cache_step_same; exact E2|].
        apply cache_step_put; [apply touched_self |].
        intros _ _. simpl. apply Hdim. reflexivity.
      + split; [|discriminate].
        eapply cache_step_trans; [exact E1 | apply cache_step_same; exact E2].
    - intros [= <- <-]. split; [exact E1 | discriminate]. }
  assert (w = 0 /\ h = 0) as [-> ->] by lia. clear Hs.
  destruct flip.
  { mrun. destruct (run (get_transform _) s) as [[base|e] sa] eqn:E1;
      apply IH in E1; try apply rank_unflipped; destruct E1 as [E1 _];
      apply (cache_step_unrotated _ _ _ _ (key, true, 0, 0, 0)) in E1.
    - destruct (run (pygame.flip base) sa) as [[img|e] sb] eqn:E2;
        apply flip_spec in E2; destruct E2 as [E2 _]; intros [= <- <-].
      + split; [|intros ? [= <-]; apply lookup_insert_eq].
        eapply cache_step_trans; [exact E1|].
        eapply cache_step_trans; [apply cache_step_same; exact E2|].
        apply cache_step_put; [apply touched_self | apply entry_ok_sentinel].
      + split; [|discriminate].
        eapply cache_step_trans; [exact E1 | apply cache_step_same; exact E2].
    - intros [= <- <-]. split; [exact E1 | discriminate]. }
  mrun. destruct (run (load_filename_or_url key) s) as [[img|e] sa] eqn:E1;
    apply load_filename_or_url_step in E1;
    apply (cache_step_angle0 (key, false, 0, 0, 0)) in E1;
    intros [= <- <-].
  - split; [|intros ? [= <-]; apply lookup_insert_eq].
    eapply cache_step_trans; [exact E1|].
    apply cache_step_put; [apply touched_self | apply entry_ok_sentinel].
  - split; [exact E1 | discriminate].
Qed.

Lemma also_cache_natural_spec key flip w h angle ans :
  (forall k', (key_rank k' < key_rank (key, flip, w, h, angle))%nat -> gt_spec k') ->
  forall s r s',
    _known_images s !! (key, flip, w, h, angle) = Some ans ->
    run (also_cache_natural get_transform key flip w h angle ans) s = (r, s') ->
    cache_step (touched (key, flip, w, h, angle)) s s' /\
    (r = Ok tt ->
     _known_images s' !! (key, flip, w, h, angle) = Some ans /\
     (w = 0 -> h = 0 -> natural_alias_in key flip angle ans s')).
Proof.
  intros IH s r s' Hans. unfold also_cache_natural.
  destruct (decide (w = 0 /\ h = 0)) as [[-> ->]|Hnat].
  2:{ mrun. intros [= <- <-]. split; [apply cache_step_refl|].
      intros _. split; [exact Hans | lia]. }
  destruct (decide (angle <> 0)) as [Ha|Ha].
  - mrun. destruct (run (get_transform _) s) as [[tmp|e] sa] eqn:E1;
      apply IH in E1; try (apply rank_unrotated; assumption);
      destruct E1 as [E1 Hpost]; intros [= <- <-].
    + destruct (Hpost tmp eq_refl) as [Htmp Halias].
      destruct (Halias eq_refl eq_refl) as (tmp' & Ht1 & Ht2 & _).
      cbn [key_w key_h key_name key_flip key_angle] in *.
      assert (tmp' = tmp) as -> by congruence.
      assert (Hk : _known_images sa !! (key, flip, 0, 0, angle) = Some ans).
      { rewrite (step_frame _ _ _ E1); [exact Hans|].
        unfold touched; simpl. lia. }
      split.
      * eapply cache_step_trans; [eapply cache_step_unrotated; exact E1|].
        apply cache_step_put; [right; reflexivity | apply entry_ok_rotated; assumption].
      * intros _. cbn [_known_images set_known_images]. split.
        -- destruct (decide ((key, flip, get_width tmp, get_height tmp, angle) = (key, flip, 0, 0, angle))) as [->|Hne].
           ++ apply lookup_insert_eq.
           ++ rewrite lookup_insert_ne by auto. exact Hk.
        -- intros _ _. exists tmp. cbn [_known_images set_known_images].
           split; [|split].
           ++ rewrite lookup_insert_ne by congruence. exact Htmp.
           ++ rewrite lookup_insert_ne by congruence. exact Ht2.
           ++ apply lookup_insert_eq.
    + split; [|discriminate].
      eapply cache_step_unrotated; exact E1.
  - assert (angle = 0) as -> by lia. mrun. intros [= <- <-]. split.
    + apply cache_step_put; [left; reflexivity | apply entry_ok_natural].
    + intros _. simpl.
      assert (Hk : <[(key, flip, get_width ans, get_height ans, 0):=ans]> (_known_images s)
                   !! (key, flip, 0, 0, 0) = Some ans).
      { destruct (decide ((key, flip, get_width ans, get_height ans, 0) = (key, flip, 0, 0, 0))) as [->|Hne].
        - apply lookup_insert_eq.
        - rewrite lookup_insert_ne by auto. exact Hans. }
      split; [exact Hk|]. intros _ _. exists ans.
      split; [exact Hk|]. split; apply lookup_insert_eq.
Qed.

Lemma get_transform_spec k : gt_spec k.
Proof.
  induction k as [k IH] using key_rank_ind.
  destruct k as [[[[key flip] w] h] angle].
  intros s r s' E. rewrite get_transform_body in E. revert E. rewrite run_bind.
  cbn [run gets]. rewrite run_bind.
  destruct (_known_images s !! (key, flip, w, h, angle)) as [ans|] eqn:Hlook.
  - cbn [run ret]. rewrite run_bind.
    destruct (run (also_cache_natural _ _ _ _ _ _ _) s) as [[[]|e] sb] eqn:E2;
      apply (also_cache_natural_spec _ _ _ _ _ _ IH _ _ _ Hlook) in E2;
      destruct E2 as [E2 Hpost]; cbn [run ret]; intros [= <- <-].
    + split; [exact E2|]. intros ? [= <-]. apply Hpost. reflexivity.
    + split; [exact E2|discriminate].
  - destruct (run (let* img := compute_image _ _ _ _ _ _ in _) s) as [[ans|e] sa] eqn:E1;
      apply (compute_and_put_spec _ _ _ _ _ IH) in E1; destruct E1 as [E1 Hput].
    + rewrite run_bind.
      destruct (run (also_cache_natural _ _ _ _ _ _ _) sa) as [[[]|e] sb] eqn:E2;
        apply (also_cache_natural_spec _ _ _ _ _ _ IH _ _ _ (Hput _ eq_refl)) in E2;
        destruct E2 as [E2 Hpost]; cbn [run ret]; intros [= <- <-].
      * split; [eapply cache_step_trans; eassumption|].
        intros ? [= <-]. apply Hpost. reflexivity.
      * split; [eapply cache_step_trans; eassumption|discriminate].
    + intros [= <- <-]. split; [exact E1|discriminate].
Qed.
End get_transform_spec.

(** * The claims about the image cache *)

Section cache_claims.
Context `{Externals}.
Import _ImageCache.

(** A key found in the cache with an unrotated image is answered from the
    cache; only a key of natural size writes, its extra entry. *)
Lemma get_transform_hit_unrotated key flip w h v s :
  _known_images s !! (key, flip, w, h, 0) = Some v ->
  run (get_transform (key, flip, w, h, 0)) s =
  (Ok v, if decide (w = 0 /\ h = 0)
         then set_known_images <[(key, flip, get_width v, get_height v, 0) := v]> s
         else s).
Proof.
  intros Hv. rewrite get_transform_body. rewrite run_bind. cbn [run gets].
  rewrite run_bind. rewrite Hv. cbn [run ret]. rewrite run_bind.
  unfold also_cache_natural.
  destruct (decide (w = 0 /\ h = 0)) as [[-> ->]|Hn]; [|reflexivity].
  destruct (decide (0 <> 0)); [lia|]. reflexivity.
Qed.

Lemma get_transform_hit_sized key flip w h angle v s :
  _known_images s !! (key, flip, w, h, angle) = Some v ->
  ~ (w = 0 /\ h = 0) ->
  run (get_transform (key, flip, w, h, angle)) s = (Ok v, s).
Proof.
  intros Hv Hn. rewrite get_transform_body. rewrite run_bind. cbn [run gets].
  rewrite run_bind. rewrite Hv. cbn [run ret]. rewrite run_bind.
  unfold also_cache_natural. destruct (decide (w = 0 /\ h = 0)); [tauto|]. reflexivity.
Qed.

(** C1: a key that is not in the cache is resolved by the case order
    rotation, scaling, flip, source: each case resolves the key with that
    transformation removed and applies the transformation to the result,
    the last case asks the image source resolver; the computed image is
    stored under the requested key before the natural-size entry is added
    and the image returned, and is found there when the call returns. *)
Theorem get_transform_miss_case_order (key : string) (flip : bool) (w h angle : Z)
    (s : World) :
  _known_images s !! (key, flip, w, h, angle) = None ->
  let k := (key, flip, w, h, angle) in
  let finish (img : Surface) : M World Surface :=
    cache_put k img;;
    also_cache_natural get_transform key flip w h angle img;;
    ret img in
  (angle <> 0 ->
   run (get_transform k) s =
   run (let* base := get_transform (key, flip, w, h, 0) in
        let* img := pygame.rotozoom base angle in
        finish img) s) /\
  (angle = 0 -> w <> 0 \/ h <> 0 ->
   run (get_transform k) s =
   run (let* base := get_transform (key, flip, 0, 0, 0) in
        let* img := pygame.smoothscale base w h in
        finish img) s) /\
  (angle = 0 -> w = 0 -> h = 0 -> flip = true ->
   run (get_transform k) s =
   run (let* base := get_transform (key, false, 0, 0, 0) in
        let* img := pygame.flip base in
        finish img) s) /\
  (angle = 0 -> w = 0 -> h = 0 -> flip = false ->
   run (get_transform k) s =
   run (let* img := load_filename_or_url key in
        finish img) s) /\
  (forall img s', run (get_transform k) s = (Ok img, s') ->
                  _known_images s' !! k = Some img).
Proof.
  intros Hmiss k finish.
  assert (Hbody : run (get_transform k) s =
                  run (let* img := compute_image get_transform key flip w h angle in
                       finish img) s).
  { unfold k. rewrite get_transform_body. rewrite run_bind. cbn [run gets].
    rewrite !run_bind. rewrite Hmiss. rewrite !run_bind.
    destruct (run (compute_image _ _ _ _ _ _) s) as [[img|e] s1]; reflexivity. }
  repeat split.
  - intros Ha. rewrite Hbody. unfold compute_image.
    destruct (decide (angle <> 0)); [|tauto]. rewrite bind_assoc. reflexivity.
  - intros -> Hs. rewrite Hbody. unfold compute_image.
    destruct (decide (0 <> 0)); [lia|].
    destruct (decide (w <> 0 \/ h <> 0)); [|tauto]. rewrite bind_assoc. reflexivity.
  - intros -> -> -> ->. rewrite Hbody. unfold compute_image.
    destruct (decide (0 <> 0)); [lia|].
    destruct (decide (0 <> 0 \/ 0 <> 0)); [lia|]. rewrite bind_assoc. reflexivity.
  - intros -> -> -> ->. rewrite Hbody. unfold compute_image.
    destruct (decide (0 <> 0)); [lia|].
    destruct (decide (0 <> 0 \/ 0 <> 0)); [lia|]. reflexivity.
  - intros img s' E. apply get_transform_spec in E. apply E. reflexivity.
Qed.


(** C2, as amended: a call repeated at once returns the same object and
    leaves the whole state, the cache included, as the first call left it. *)
Theorem get_transform_repeat (k : _ImageKey) (s : World) (img : Surface) (s' : World) :
  run (get_transform k) s = (Ok img, s') ->
  run (get_transform k) s' = (Ok img, s').
Proof.
  destruct k as [[[[key flip] w] h] angle]. intros E.
  apply get_transform_spec in E. destruct E as [_ Hpost].
  destruct (Hpost img eq_refl) as [Hk Halias]. clear Hpost.
  cbn [key_w key_h key_name key_flip key_angle] in Halias.
  destruct (decide (w = 0 /\ h = 0)) as [[-> ->]|Hn].
  2:{ apply get_transform_hit_sized; assumption. }
  destruct (Halias eq_refl eq_refl) as (tmp & Ht1 & Ht2 & Ht3).
  destruct (decide (angle = 0)) as [->|Ha].
  - assert (tmp = img) as -> by congruence.
    rewrite (get_transform_hit_unrotated _ _ _ _ img) by exact Hk.
    destruct (decide _); [|reflexivity]. rewrite put_id; [reflexivity | exact Ht2].
  - rewrite get_transform_body. rewrite run_bind. cbn [run gets].
    rewrite run_bind. rewrite Hk. cbn [run ret]. rewrite run_bind.
    unfold also_cache_natural.
    destruct (decide (0 = 0 /\ 0 = 0)); [|lia].
    destruct (decide (angle <> 0)); [|tauto].
    rewrite run_bind. rewrite (get_transform_hit_unrotated _ _ _ _ tmp) by exact Ht1.
    destruct (decide (0 = 0 /\ 0 = 0)); [|lia].
    rewrite (put_id _ _ _ Ht2). cbn [run cache_put modify].
    rewrite (put_id _ _ _ Ht3). reflexivity.
Qed.

(** Every entry point of [_ImageCache] keeps the cache well-formed. *)
Lemma cache_wf_preserved (s : World) :
  cache_wf (_known_images s) ->
  (forall k, cache_wf (_known_images (snd (run (get_transform k) s)))) /\
  (forall ref, cache_wf (_known_images (snd (run (load_filename_or_url ref) s)))) /\
  (forall surface, cache_wf (_known_images (snd (run (cache_surface surface) s)))).
Proof.
  intros Hwf. split; [|split].
  - intros k. destruct (run (get_transform k) s) as [r s'] eqn:E.
    apply get_transform_spec in E. destruct E as [E _]. exact (step_wf _ _ _ E Hwf).
  - intros ref. destruct (run (load_filename_or_url ref) s) as [r s'] eqn:E.
    apply load_filename_or_url_step in E. exact (step_wf _ _ _ E Hwf).
  - intros surface. destruct (cache_surface_spec surface s) as (s' & E & Hstep).
    rewrite E. exact (step_wf _ _ _ Hstep Hwf).
Qed.

(** The half of C5 the code has: an image decoded from a local file is
    registered under the reference and under the reference with its natural
    size, and loading the reference again is answered from the cache. *)
Lemma load_file_registers_reference (ref : string) (s : World) (image : Surface)
    (s' : World) :
  _known_images s !! _ImageKey_of ref = None ->
  is_Some (files s !! ref) ->
  run (load_filename_or_url ref) s = (Ok image, s') ->
  _known_images s' !! _ImageKey_of ref = Some image /\
  _known_images s' !! (ref, false, get_width image, get_height image, 0) = Some image /\
  run (load_filename_or_url ref) s' = (Ok image, s').
Proof.
  intros Hmiss Hfile. unfold load_filename_or_url at 1. cbn [run bind gets].
  rewrite Hmiss. cbn [run try_except_OSError].
  unfold os_path.exists_. cbn [run bind gets].
  rewrite bool_decide_eq_true_2 by exact Hfile.
  destruct (run (_get_filename ref) s) as [[img|e] s1] eqn:E1.
  - intros [= <- <-]. apply _get_filename_spec in E1.
    destruct E1 as (_ & _ & Hreg). destruct (Hreg img eq_refl) as [Hk1 Hk2].
    split; [exact Hk1|]. split; [exact Hk2|].
    unfold load_filename_or_url. cbn [run bind gets]. rewrite Hk1. reflexivity.
  - destruct (is_OSError e); cbn [run raise]; discriminate.
Qed.





End cache_claims.

(** * The cache claims on the concrete world *)

Import _ImageCache.

(** The 3x2 image of [a.png], rotated through a quarter turn after a flip:
    the key is not cached and the call leaves the image under it. *)
Lemma get_transform_miss_case_order_witness :
  _known_images
    (snd (run (@get_transform example_externals ("a.png"%string, true, 0, 0, 90))
            example_world))
    !! ("a.png"%string, true, 0, 0, 90) = Some a_png_flipped_turned.
Proof.
  assert (Hmiss : _known_images example_world !! ("a.png"%string, true, 0, 0, 90) = None)
    by (vm_compute; reflexivity).
  assert (E : fst (run (@get_transform example_externals ("a.png"%string, true, 0, 0, 90))
                     example_world) = Ok a_png_flipped_turned)
    by (vm_compute; reflexivity).
  pose proof (@get_transform_miss_case_order example_externals
                "a.png"%string true 0 0 90 example_world Hmiss) as Hcase.
  cbv zeta in Hcase. destruct Hcase as (_ & _ & _ & _ & Hlast).
  exact (Hlast _ _ (run_result _ _ _ E)).
Defined.


Lemma get_transform_repeat_witness :
  run (@get_transform example_externals ("a.png"%string, false, 0, 0, 0)) after_a_png
    = (Ok a_png, after_a_png).
Proof.
  assert (E : fst (run (@get_transform example_externals ("a.png"%string, false, 0, 0, 0))
                     example_world) = Ok a_png) by (vm_compute; reflexivity).
  exact (@get_transform_repeat example_externals _ example_world a_png after_a_png
           (run_result _ _ _ E)).
Defined.

(** C2, as stated, fails: the scaled copy cached under the natural size is
    replaced by the natural image as soon as the natural size is
    requested, so the third call below does not return what the first
    returned. *)
Lemma get_transform_later_repeat_differs :
  let sized := ("a.png"%string, false, 3, 2, 0) in
  let natural := ("a.png"%string, false, 0, 0, 0) in
  let r1 := run (@get_transform example_externals sized) example_world in
  let r2 := run (@get_transform example_externals natural) (snd r1) in
  let r3 := run (@get_transform example_externals sized) (snd r2) in
  fst r1 = Ok a_png_scaled /\ fst r2 = Ok a_png /\ fst r3 = Ok a_png /\
  a_png <> a_png_scaled.
Proof. vm_compute. repeat split. discriminate. Qed.

(** C5 on a URL: the image is registered under the name of the downloaded
    file, not under the URL, and loading the URL again decodes the file
    again into another object. *)
Theorem load_url_registers_basename :
  let url := "http://example.com/cat.png"%string in
  let r1 := run (@load_filename_or_url example_externals url) example_world in
  let r2 := run (@load_filename_or_url example_externals url) (snd r1) in
  let cat1 := {| surf_id := 0; get_width := 4; get_height := 4; surf_pixels := PxDecoded 9 |} in
  let cat2 := {| surf_id := 1; get_width := 4; get_height := 4; surf_pixels := PxDecoded 9 |} in
  fst r1 = Ok cat1 /\
  _known_images (snd r1) !! _ImageKey_of url = None /\
  _known_images (snd r1) !! (url, false, 4, 4, 0) = None /\
  _known_images (snd r1) !! _ImageKey_of "cat.png" = Some cat1 /\
  _known_images (snd r1) !! ("cat.png"%string, false, 4, 4, 0) = Some cat1 /\
  fst r2 = Ok cat2 /\
  oplog (snd r2) = [OpLoad "cat.png"; OpLoad "cat.png"; OpDownload url "cat.png"].
Proof. vm_compute. repeat split. Qed.



(** * SpriteBox: movement and collision geometry *)

Section heap.
Context {F : Type}.

Lemma run_getattr {A} (self : N) (attr : box.t F -> A) (s : State F) (b : box.t F) :
  boxes s !! self = Some b -> run (getattr self attr) s = (Ok (attr b), s).
Proof. intros Hb. cbn [run getattr]. rewrite Hb. reflexivity. Qed.

Lemma run_setattr (self : N) (upd : box.t F -> box.t F) (s : State F) (b : box.t F) :
  boxes s !! self = Some b ->
  run (setattr self upd) s = (Ok tt, set_boxes <[self := upd b]> s).
Proof. intros Hb. cbn [run setattr]. rewrite Hb. reflexivity. Qed.

Lemma run_getattr_missing {A} (self : N) (attr : box.t F -> A) (s : State F) :
  boxes s !! self = None ->
  run (getattr self attr) s = (Raise (AttributeError "no such object"), s).
Proof. intros Hb. cbn [run getattr]. rewrite Hb. reflexivity. Qed.

Lemma boxes_set_boxes (f : gmap N (box.t F) -> gmap N (box.t F)) (s : State F) :
  boxes (set_boxes f s) = f (boxes s).
Proof. reflexivity. Qed.

Lemma set_boxes_twice (self : N) (b1 b2 : box.t F) (s : State F) :
  set_boxes <[self := b2]> (set_boxes <[self := b1]> s) = set_boxes <[self := b2]> s.
Proof.
  unfold set_boxes. cbn [world boxes next_box]. f_equal. apply insert_insert_eq.
Qed.
End heap.

(** Reading the edges, and moving. *)
Section edges.
Context {F : Type} `{PyNum F}.

Lemma run_left (s : State F) (self : N) (b : box.t F) :
  boxes s !! self = Some b -> run (SpriteBox.left self) s = (Ok (box_left b), s).
Proof.
  intros Hb. unfold SpriteBox.left.
  rewrite run_bind, (run_getattr _ _ _ _ Hb), run_bind, (run_getattr _ _ _ _ Hb).
  reflexivity.
Qed.

Lemma run_right (s : State F) (self : N) (b : box.t F) :
  boxes s !! self = Some b -> run (SpriteBox.right self) s = (Ok (box_right b), s).
Proof.
  intros Hb. unfold SpriteBox.right.
  rewrite run_bind, (run_getattr _ _ _ _ Hb), run_bind, (run_getattr _ _ _ _ Hb).
  reflexivity.
Qed.

Lemma run_top (s : State F) (self : N) (b : box.t F) :
  boxes s !! self = Some b -> run (SpriteBox.top self) s = (Ok (box_top b), s).
Proof.
  intros Hb. unfold SpriteBox.top.
  rewrite run_bind, (run_getattr _ _ _ _ Hb), run_bind, (run_getattr _ _ _ _ Hb).
  reflexivity.
Qed.

Lemma run_bottom (s : State F) (self : N) (b : box.t F) :
  boxes s !! self = Some b -> run (SpriteBox.bottom self) s = (Ok (box_bottom b), s).
Proof.
  intros Hb. unfold SpriteBox.bottom.
  rewrite run_bind, (run_getattr _ _ _ _ Hb), run_bind, (run_getattr _ _ _ _ Hb).
  reflexivity.
Qed.

Lemma run_gaps (s : State F) (self other : N) (bs bo : box.t F)
    (padding : F) (padding2 : option F) :
  boxes s !! self = Some bs -> boxes s !! other = Some bo ->
  run (SpriteBox.gaps self other padding padding2) s =
  (Ok (box_gaps bs bo padding (default padding padding2)), s).
Proof.
  intros Hs Ho. unfold SpriteBox.gaps.
  rewrite run_bind, (run_left _ _ _ Ho), run_bind, (run_right _ _ _ Hs).
  rewrite run_bind, (run_left _ _ _ Hs), run_bind, (run_right _ _ _ Ho).
  rewrite run_bind, (run_top _ _ _ Ho), run_bind, (run_bottom _ _ _ Hs).
  rewrite run_bind, (run_top _ _ _ Hs), run_bind, (run_bottom _ _ _ Ho).
  reflexivity.
Qed.

Lemma run_gaps_missing (s : State F) (self other : N)
    (padding : F) (padding2 : option F) :
  boxes s !! self = None \/ boxes s !! other = None ->
  exists e, run (SpriteBox.gaps self other padding padding2) s = (Raise e, s).
Proof.
  intros Hm. unfold SpriteBox.gaps. rewrite run_bind.
  destruct (boxes s !! other) as [bo|] eqn:Ho.
  - destruct (boxes s !! self) as [bs|] eqn:Hs; [destruct Hm; discriminate|].
    rewrite (run_left _ _ _ Ho), run_bind. unfold SpriteBox.right.
    rewrite run_bind, (run_getattr_missing _ _ _ Hs). eexists; reflexivity.
  - unfold SpriteBox.left.
    rewrite run_bind, (run_getattr_missing _ _ _ Ho). eexists; reflexivity.
Qed.

Lemma run_move (s : State F) (self : N) (b : box.t F) (dx dy : F) :
  boxes s !! self = Some b ->
  run (SpriteBox.move self dx dy) s = (Ok tt, set_boxes <[self := translated dx dy b]> s).
Proof.
  intros Hb. unfold SpriteBox.move.
  rewrite run_bind, (run_getattr _ _ _ _ Hb).
  rewrite run_bind, (run_setattr _ _ _ _ Hb).
  rewrite run_bind, (run_getattr _ _ _ (box.set_x (num_add (box.x b) dx) b))
    by (rewrite boxes_set_boxes; apply lookup_insert_eq).
  rewrite (run_setattr _ _ _ (box.set_x (num_add (box.x b) dx) b))
    by (rewrite boxes_set_boxes; apply lookup_insert_eq).
  rewrite set_boxes_twice. reflexivity.
Qed.

(** C9: [move(dx, dy)] adds [dx] to [x] and [dy] to [y] of the box and
    [move_speed()] adds the stored speed; the box's size, speed, color, key
    and image, every other box, and the world of the image cache stay as
    they were. *)
Theorem move_is_pure_translation (s : State F) (self : N) (b : box.t F) (dx dy : F) :
  boxes s !! self = Some b ->
  let moved (dx dy : F) (s' : State F) : Prop :=
    world s' = world s /\
    next_box s' = next_box s /\
    boxes s' !! self = Some (translated dx dy b) /\
    forall other, other <> self -> boxes s' !! other = boxes s !! other in
  (exists s', run (SpriteBox.move self dx dy) s = (Ok tt, s') /\ moved dx dy s') /\
  (exists s', run (SpriteBox.move_speed self) s = (Ok tt, s') /\
              moved (box.speedx b) (box.speedy b) s').
Proof.
  intros Hb moved.
  assert (Hmoved : forall dx dy, moved dx dy (set_boxes <[self := translated dx dy b]> s)).
  { intros dx' dy'. unfold moved. repeat split.
    - rewrite boxes_set_boxes. apply lookup_insert_eq.
    - intros other Hne. rewrite boxes_set_boxes. apply lookup_insert_ne. congruence. }
  split.
  - eexists. split; [apply run_move; exact Hb | apply Hmoved].
  - eexists. split; [|apply Hmoved].
    unfold SpriteBox.move_speed.
    rewrite run_bind, (run_getattr _ _ _ _ Hb).
    rewrite run_bind, (run_getattr _ _ _ _ Hb).
    apply run_move. exact Hb.
Qed.

(** The [if]/[elif] chain of [overlap], read as the claim words it: the
    push belongs to the first of [l], [r], [t], [b] that equals [m]. *)
Lemma py_max4_is_argument (l r t b : F) :
  let m := py_max4 l r t b in m = l \/ m = r \/ m = t \/ m = b.
Proof.
  unfold py_max4, py_max2. repeat destruct (num_ltb _ _); auto.
Qed.

Lemma overlap_of_last_case (l r t b : F) :
  let m := py_max4 l r t b in
  num_eqb m m = true ->
  num_eqb m l = false -> num_eqb m r = false -> num_eqb m t = false ->
  m = b.
Proof.
  intros m Hm Hl Hr Ht.
  destruct (py_max4_is_argument l r t b) as [E|[E|[E|E]]]; fold m in E; congruence.
Qed.

Lemma run_overlap (s : State F) (self other : N) (bs bo : box.t F)
    (padding : F) (padding2 : option F) :
  boxes s !! self = Some bs -> boxes s !! other = Some bo ->
  run (SpriteBox.overlap self other padding padding2) s =
  (Ok (let '(l, r, t, b) := box_gaps bs bo padding (default padding padding2) in
       SpriteBox.overlap_of l r t b), s).
Proof.
  intros Hs Ho. unfold SpriteBox.overlap.
  rewrite run_bind, (run_gaps _ _ _ _ _ _ _ Hs Ho). reflexivity.
Qed.

Lemma run_touches (s : State F) (self other : N) (bs bo : box.t F)
    (padding : F) (padding2 : option F) :
  boxes s !! self = Some bs -> boxes s !! other = Some bo ->
  run (SpriteBox.touches self other padding padding2) s =
  (Ok (let '(l, r, t, b) := box_gaps bs bo padding (default padding padding2) in
       num_leb (py_max4 l r t b) SpriteBox.zero), s).
Proof.
  intros Hs Ho. unfold SpriteBox.touches.
  rewrite run_bind, (run_gaps _ _ _ _ _ _ _ Hs Ho). reflexivity.
Qed.
End edges.

(** * The order of binary64 numbers

    The comparisons [<], [<=] and [==] of floats that are not NaN form a
    total preorder, in which [max] is the largest of its arguments. *)

Section float_order.

Lemma SFcompare_rank (f g : spec_float) :
  f <> S754_nan -> g <> S754_nan ->
  (SFcompare f g = Some Lt <-> lex_lt (SFrank f) (SFrank g)) /\
  (SFcompare f g = Some Eq <-> SFrank f = SFrank g) /\
  (SFcompare f g = Some Gt <-> lex_lt (SFrank g) (SFrank f)) /\
  SFcompare f g <> None.
Proof.
  intros Hf Hg.
  destruct f as [sf|sf| |sf mf ef], g as [sg|sg| |sg mg eg]; try contradiction;
    try (destruct sf); try (destruct sg); cbn [SFcompare SFrank lex_lt];
    try (repeat split; try discriminate; try reflexivity; intros; first [lia | congruence]).
  - (* two negative finite numbers *)
    rewrite Pos.compare_cont_spec. cbn [Pos.switch_Eq].
    destruct (Z.compare_spec ef eg) as [E|E|E];
      destruct (Pos.compare_spec mf mg) as [P|P|P]; cbn [CompOpp];
      repeat split; try discriminate; try reflexivity; intros; try lia;
      try (exfalso; congruence);
      try (match goal with H : (_, _, _) = (_, _, _) |- _ => injection H; intros end; lia);
      try (subst; reflexivity).
  - (* two positive finite numbers *)
    rewrite Pos.compare_cont_spec. cbn [Pos.switch_Eq].
    destruct (Z.compare_spec ef eg) as [E|E|E];
      destruct (Pos.compare_spec mf mg) as [P|P|P];
      repeat split; try discriminate; try reflexivity; intros; try lia;
      try (exfalso; congruence);
      try (match goal with H : (_, _, _) = (_, _, _) |- _ => injection H; intros end; lia);
      try (subst; reflexivity).
Qed.
End float_order.

Section float_comparisons.
Local Open Scope float_scope.

Lemma is_number_spec (x : float) : is_number x <-> Prim2SF x <> S754_nan.
Proof.
  unfold is_number. rewrite FloatAxioms.eqb_spec. unfold SFeqb. split.
  - intros E Hn. rewrite Hn in E. discriminate.
  - intros Hn. destruct (SFcompare_rank _ _ Hn Hn) as (_ & Heq & _ & _).
    rewrite (proj2 Heq eq_refl). reflexivity.
Qed.

Lemma float_leb_number (x y : float) : (x <=? y) = true -> is_number x /\ is_number y.
Proof.
  rewrite FloatAxioms.leb_spec, !is_number_spec. unfold SFleb. intros E.
  split; intros Hn; rewrite Hn in E; [|destruct (Prim2SF x)]; discriminate.
Qed.

Lemma float_leb_refl (x : float) : is_number x -> (x <=? x) = true.
Proof.
  rewrite is_number_spec, FloatAxioms.leb_spec. unfold SFleb. intros Hn.
  destruct (SFcompare_rank _ _ Hn Hn) as (_ & Heq & _ & _).
  rewrite (proj2 Heq eq_refl). reflexivity.
Qed.

Lemma float_ltb_leb (x y : float) : (x <? y) = true -> (x <=? y) = true.
Proof.
  rewrite FloatAxioms.ltb_spec, FloatAxioms.leb_spec. unfold SFltb, SFleb.
  destruct (SFcompare (Prim2SF x) (Prim2SF y)) as [[]|]; congruence.
Qed.

(** Two numbers compare one way or the other. *)
Lemma float_leb_total (x y : float) :
  is_number x -> is_number y -> (x <? y) = false -> (y <=? x) = true.
Proof.
  rewrite !is_number_spec, FloatAxioms.ltb_spec, FloatAxioms.leb_spec. unfold SFltb, SFleb. intros Hx Hy.
  destruct (SFcompare_rank _ _ Hx Hy) as (Hlt & Heq & Hgt & Hsome).
  destruct (SFcompare_rank _ _ Hy Hx) as (Hlt' & Heq' & Hgt' & Hsome').
  destruct (SFcompare (Prim2SF x) (Prim2SF y)) as [[]|] eqn:E; try discriminate; intros _.
  - rewrite (proj2 Heq' (eq_sym (proj1 Heq eq_refl))). reflexivity.
  - rewrite (proj2 Hlt' (proj1 Hgt eq_refl)). reflexivity.
  - contradiction.
Qed.

Lemma float_leb_trans (x y z : float) :
  (x <=? y) = true -> (y <=? z) = true -> (x <=? z) = true.
Proof.
  intros Hxy Hyz.
  destruct (float_leb_number _ _ Hxy) as [Hx Hy].
  destruct (float_leb_number _ _ Hyz) as [_ Hz].
  revert Hxy Hyz. apply is_number_spec in Hx, Hy, Hz.
  rewrite !FloatAxioms.leb_spec. unfold SFleb.
  destruct (SFcompare_rank _ _ Hx Hy) as (Hlt1 & Heq1 & _ & _).
  destruct (SFcompare_rank _ _ Hy Hz) as (Hlt2 & Heq2 & _ & _).
  destruct (SFcompare_rank _ _ Hx Hz) as (Hlt3 & Heq3 & _ & _).
  destruct (SFrank (Prim2SF x)) as [[a1 b1] c1], (SFrank (Prim2SF y)) as [[a2 b2] c2],
    (SFrank (Prim2SF z)) as [[a3 b3] c3].
  cbn [lex_lt] in *.
  assert (H12 : lex_lt (a1, b1, c1) (a2, b2, c2) \/ (a1, b1, c1) = (a2, b2, c2) ->
                lex_lt (a2, b2, c2) (a3, b3, c3) \/ (a2, b2, c2) = (a3, b3, c3) ->
                lex_lt (a1, b1, c1) (a3, b3, c3) \/ (a1, b1, c1) = (a3, b3, c3)).
  { cbn [lex_lt]. intros [L1|E1] [L2|E2].
    - left. lia.
    - injection E2 as <- <- <-. left. exact L1.
    - injection E1 as -> -> ->. left. exact L2.
    - right. congruence. }
  cbn [lex_lt] in H12.
  destruct (SFcompare (Prim2SF x) (Prim2SF y)) as [[]|] eqn:E1; try discriminate;
    destruct (SFcompare (Prim2SF y) (Prim2SF z)) as [[]|] eqn:E2; try discriminate;
    intros _ _.
  all: match goal with
       | |- match ?c with _ => _ end = true =>
           assert (Hc : c = Some Lt \/ c = Some Eq);
           [|destruct Hc as [-> | ->]; reflexivity]
       end.
  - destruct H12 as [L|E]; [right; apply Heq1; reflexivity | right; apply Heq2; reflexivity
                            | left; apply Hlt3; exact L | right; apply Heq3; exact E].
  - destruct H12 as [L|E]; [right; apply Heq1; reflexivity | left; apply Hlt2; reflexivity
                            | left; apply Hlt3; exact L | right; apply Heq3; exact E].
  - destruct H12 as [L|E]; [left; apply Hlt1; reflexivity | right; apply Heq2; reflexivity
                            | left; apply Hlt3; exact L | right; apply Heq3; exact E].
  - destruct H12 as [L|E]; [left; apply Hlt1; reflexivity | left; apply Hlt2; reflexivity
                            | left; apply Hlt3; exact L | right; apply Heq3; exact E].
Qed.

(** [max] of two numbers is one of them and is at least each. *)
Lemma float_max2_upper (cur item : float) :
  is_number cur -> is_number item ->
  is_number (py_max2 cur item) /\
  (cur <=? py_max2 cur item) = true /\ (item <=? py_max2 cur item) = true.
Proof.
  intros Hc Hi. unfold py_max2. cbn [num_ltb float_PyNum].
  destruct (cur <? item) eqn:E.
  - split; [exact Hi|]. split; [apply float_ltb_leb; exact E | apply float_leb_refl; exact Hi].
  - split; [exact Hc|]. split; [apply float_leb_refl; exact Hc|].
    apply float_leb_total; assumption.
Qed.

(** [max(l, r, t, b)] of four numbers is the largest of them. *)
Lemma float_max4_upper (l r t b : float) :
  is_number l -> is_number r -> is_number t -> is_number b ->
  let m := py_max4 l r t b in
  is_number m /\
  (l <=? m) = true /\ (r <=? m) = true /\ (t <=? m) = true /\ (b <=? m) = true.
Proof.
  intros Hl Hr Ht Hb m. subst m. unfold py_max4.
  destruct (float_max2_upper l r Hl Hr) as (H1 & L1 & R1).
  destruct (float_max2_upper (py_max2 l r) t H1 Ht) as (H2 & L2 & T2).
  destruct (float_max2_upper (py_max2 (py_max2 l r) t) b H2 Hb) as (H3 & L3 & B3).
  split; [exact H3|].
  split; [exact (float_leb_trans _ _ _ (float_leb_trans _ _ _ L1 L2) L3)|].
  split; [exact (float_leb_trans _ _ _ (float_leb_trans _ _ _ R1 L2) L3)|].
  split; [exact (float_leb_trans _ _ _ T2 L3) | exact B3].
Qed.
End float_comparisons.

(** * The collision claims on binary64 numbers *)

Section float_geometry.
Local Open Scope float_scope.

(** C7, as amended: with [l], [r], [t], [b] the four gaps and [m] what
    [max(l, r, t, b)] returns, [overlap] returns [(0, 0)] when [m >= 0] and
    otherwise the push of the first of [l], [r], [t], [b] that equals [m],
    the last case being taken without a test, and [touches] returns
    [m <= 0]; neither changes the state.  When the four gaps are numbers,
    [m] is the largest of them: each gap is at most [m], one of them equals
    [m], and the last case is taken only when [b] is [m].  Two 10x10 boxes
    centred at (0, 0) and (20, 0) do not touch and have overlap (0, 0); with
    the second at x = 9.99 they touch and the push is along x only. *)
Theorem overlap_touches_spec (s : State float) (self other : N)
    (bs bo : box.t float) (padding : float) (padding2 : option float) :
  boxes s !! self = Some bs -> boxes s !! other = Some bo ->
  let paddingY := default padding padding2 in
  let l := box_left bo - box_right bs - padding in
  let r := box_left bs - box_right bo - padding in
  let t := box_top bo - box_bottom bs - paddingY in
  let b := box_top bs - box_bottom bo - paddingY in
  let m := py_max4 l r t b in
  run (SpriteBox.overlap self other padding padding2) s =
    (Ok (if 0 <=? m then (0, 0)
         else if m =? l then (l, 0)
         else if m =? r then (- r, 0)
         else if m =? t then (0, t)
         else (0, - b)), s) /\
  run (SpriteBox.touches self other padding padding2) s = (Ok (m <=? 0), s) /\
  (is_number l -> is_number r -> is_number t -> is_number b ->
   ((l <=? m) = true /\ (r <=? m) = true /\ (t <=? m) = true /\ (b <=? m) = true) /\
   ((m =? l) || (m =? r) || (m =? t) || (m =? b) = true) /\
   ((m =? l) = false -> (m =? r) = false -> (m =? t) = false -> m = b)) /\
  (geometry bs = (0, 0, 10, 10) -> geometry bo = (20, 0, 10, 10) ->
   padding = 0 -> padding2 = None ->
   run (SpriteBox.touches self other padding padding2) s = (Ok false, s) /\
   run (SpriteBox.overlap self other padding padding2) s = (Ok (0, 0), s)) /\
  (geometry bs = (0, 0, 10, 10) -> geometry bo = (float_9_99, 0, 10, 10) ->
   padding = 0 -> padding2 = None ->
   run (SpriteBox.touches self other padding padding2) s = (Ok true, s) /\
   exists dx, run (SpriteBox.overlap self other padding padding2) s = (Ok (dx, 0), s) /\
              (dx <? 0) = true).
Proof.
  intros Hs Ho paddingY l r t b m.
  rewrite (run_overlap _ _ _ _ _ _ _ Hs Ho), (run_touches _ _ _ _ _ _ _ Hs Ho).
  split; [reflexivity|].
  split; [reflexivity|].
  split.
  { intros Hl Hr Ht Hb.
    destruct (float_max4_upper l r t b Hl Hr Ht Hb) as (Hm & Ll & Lr & Lt & Lb).
    fold m in Hm, Ll, Lr, Lt, Lb.
    split; [repeat split; assumption|].
    assert (Hself : (m =? m) = true) by exact Hm.
    split.
    - destruct (py_max4_is_argument l r t b) as [E|[E|[E|E]]]; fold m in E.
      + assert (Hone : (m =? l) = true) by (rewrite <- E; exact Hself).
        rewrite Hone. reflexivity.
      + assert (Hone : (m =? r) = true) by (rewrite <- E; exact Hself).
        rewrite Hone, Bool.orb_true_r. reflexivity.
      + assert (Hone : (m =? t) = true) by (rewrite <- E; exact Hself).
        rewrite Hone, Bool.orb_true_r. reflexivity.
      + assert (Hone : (m =? b) = true) by (rewrite <- E; exact Hself).
        rewrite Hone, Bool.orb_true_r. reflexivity.
    - exact (overlap_of_last_case l r t b Hself). }
  unfold geometry.
  split; intros [= Hx Hy Hw Hh] [= Hx' Hy' Hw' Hh'] -> ->.
  - unfold box_gaps, box_left, box_right, box_top, box_bottom.
    rewrite Hx, Hy, Hw, Hh, Hx', Hy', Hw', Hh'. split; vm_compute; reflexivity.
  - unfold box_gaps, box_left, box_right, box_top, box_bottom.
    rewrite Hx, Hy, Hw, Hh, Hx', Hy', Hw', Hh'. split; [vm_compute; reflexivity|].
    eexists. split; vm_compute; reflexivity.
Qed.
End float_geometry.

(** * [move_to_stop_overlapping] *)

Section stop_overlapping.
Context {F : Type} `{PyNum F}.

Lemma pushed_geometry (o : F * F) (b : box.t F) :
  geometry (pushed o b) =
  (num_add (box.x b) (fst o), num_add (box.y b) (snd o), box._w b, box._h b).
Proof. unfold pushed. repeat destruct (num_ltb _ _); reflexivity. Qed.

Lemma run_move_to_stop_overlapping (s : State F) (self other : N)
    (bs bo : box.t F) (padding : F) (padding2 : option F) :
  boxes s !! self = Some bs -> boxes s !! other = Some bo ->
  let o := let '(l, r, t, b) := box_gaps bs bo padding (default padding padding2) in
           SpriteBox.overlap_of l r t b in
  run (SpriteBox.move_to_stop_overlapping self other padding padding2) s =
  (Ok tt, if SpriteBox.ne_zero_zero o
          then set_boxes <[self := pushed o bs]> s else s).
Proof.
  intros Hs Ho o. unfold SpriteBox.move_to_stop_overlapping.
  rewrite run_bind, (run_overlap _ _ _ _ _ _ _ Hs Ho). fold o.
  destruct (SpriteBox.ne_zero_zero o); [|reflexivity].
  unfold SpriteBox.move_coords.
  rewrite run_bind, (run_move _ _ _ _ _ Hs).
  set (b1 := translated (fst o) (snd o) bs).
  assert (H1 : boxes (set_boxes <[self := b1]> s) !! self = Some b1)
    by (rewrite boxes_set_boxes; apply lookup_insert_eq).
  rewrite run_bind, (run_getattr _ _ _ _ H1). rewrite run_bind.
  unfold pushed. fold b1.
  destruct (num_ltb (num_mul (fst o) (box.speedx b1)) SpriteBox.zero).
  - rewrite (run_setattr _ _ _ _ H1), set_boxes_twice.
    set (b2 := box.set_speedx SpriteBox.zero b1).
    assert (H2 : boxes (set_boxes <[self := b2]> s) !! self = Some b2)
      by (rewrite boxes_set_boxes; apply lookup_insert_eq).
    rewrite run_bind, (run_getattr _ _ _ _ H2).
    destruct (num_ltb _ _).
    + rewrite (run_setattr _ _ _ _ H2), set_boxes_twice. reflexivity.
    + reflexivity.
  - cbn [run ret]. rewrite run_bind, (run_getattr _ _ _ _ H1).
    destruct (num_ltb _ _).
    + rewrite (run_setattr _ _ _ _ H1), set_boxes_twice. reflexivity.
    + reflexivity.
Qed.
End stop_overlapping.

Section exact_arithmetic.
Context {F : Type} `{ExactNum F}.
Local Open Scope Q_scope.

Lemma toQ_zero : toQ SpriteBox.zero == 0.
Proof. unfold SpriteBox.zero. rewrite toQ_of_Z. reflexivity. Qed.

Lemma toQ_halved (a : F) : toQ (num_div a SpriteBox.two) == toQ a / 2.
Proof.
  unfold SpriteBox.two. rewrite toQ_div.
  - rewrite toQ_of_Z. reflexivity.
  - rewrite toQ_of_Z. discriminate.
Qed.

Lemma toQ_box_left b : toQ (box_left b) == toQ (box.x b) - toQ (box._w b) / 2.
Proof. unfold box_left. rewrite toQ_sub, toQ_halved. reflexivity. Qed.

Lemma toQ_box_right b : toQ (box_right b) == toQ (box.x b) + toQ (box._w b) / 2.
Proof. unfold box_right. rewrite toQ_add, toQ_halved. reflexivity. Qed.

Lemma toQ_box_top b : toQ (box_top b) == toQ (box.y b) - toQ (box._h b) / 2.
Proof. unfold box_top. rewrite toQ_sub, toQ_halved. reflexivity. Qed.

Lemma toQ_box_bottom b : toQ (box_bottom b) == toQ (box.y b) + toQ (box._h b) / 2.
Proof. unfold box_bottom. rewrite toQ_add, toQ_halved. reflexivity. Qed.

Lemma toQ_max2_left (a b : F) : toQ a <= toQ (py_max2 a b).
Proof.
  unfold py_max2. rewrite toQ_ltb.
  destruct (Qle_bool (toQ b) (toQ a)) eqn:E; simpl.
  - apply Qle_refl.
  - destruct (Qlt_le_dec (toQ a) (toQ b)) as [Hlt|Hle].
    + apply Qlt_le_weak. exact Hlt.
    + apply Qle_bool_iff in Hle. congruence.
Qed.

Lemma toQ_max2_right (a b : F) : toQ b <= toQ (py_max2 a b).
Proof.
  unfold py_max2. rewrite toQ_ltb.
  destruct (Qle_bool (toQ b) (toQ a)) eqn:E; simpl.
  - apply Qle_bool_iff. exact E.
  - apply Qle_refl.
Qed.

Lemma toQ_max4_ge (l r t b : F) :
  let m := toQ (py_max4 l r t b) in
  toQ l <= m /\ toQ r <= m /\ toQ t <= m /\ toQ b <= m.
Proof.
  unfold py_max4.
  pose proof (toQ_max2_left l r). pose proof (toQ_max2_right l r).
  pose proof (toQ_max2_left (py_max2 l r) t). pose proof (toQ_max2_right (py_max2 l r) t).
  pose proof (toQ_max2_left (py_max2 (py_max2 l r) t) b).
  pose proof (toQ_max2_right (py_max2 (py_max2 l r) t) b).
  cbv zeta. repeat split; lra.
Qed.

Lemma leb_zero_true (m : F) : 0 <= toQ m -> num_leb SpriteBox.zero m = true.
Proof.
  intros Hm. rewrite toQ_leb. apply Qle_bool_iff. rewrite toQ_zero. exact Hm.
Qed.

Lemma ne_zero_zero_origin : SpriteBox.ne_zero_zero (SpriteBox.zero, SpriteBox.zero) = false.
Proof.
  unfold SpriteBox.ne_zero_zero. cbn [fst snd]. rewrite toQ_eqb.
  assert (E : Qeq_bool (toQ SpriteBox.zero) (toQ SpriteBox.zero) = true)
    by (apply Qeq_bool_iff; reflexivity).
  rewrite E. reflexivity.
Qed.

(** Once [self] has been moved by the push, one of the four gaps is closed
    exactly, so the boxes no longer overlap. *)
Lemma overlap_after_push (bs bs' bo : box.t F) (padding padding2 : F) :
  let '(l, r, t, b) := box_gaps bs bo padding padding2 in
  let o := SpriteBox.overlap_of l r t b in
  geometry bs' =
    (num_add (box.x bs) (fst o), num_add (box.y bs) (snd o), box._w bs, box._h bs) ->
  let '(l', r', t', b') := box_gaps bs' bo padding padding2 in
  SpriteBox.overlap_of l' r' t' b' = (SpriteBox.zero, SpriteBox.zero).
Proof.
  unfold box_gaps. cbv beta iota zeta. unfold geometry. intros Hgeo.
  set (l := num_sub (num_sub (box_left bo) (box_right bs)) padding) in *.
  set (r := num_sub (num_sub (box_left bs) (box_right bo)) padding) in *.
  set (t := num_sub (num_sub (box_top bo) (box_bottom bs)) padding2) in *.
  set (b := num_sub (num_sub (box_top bs) (box_bottom bo)) padding2) in *.
  set (o := SpriteBox.overlap_of l r t b) in *.
  injection Hgeo as Hx Hy Hw Hh.
  set (l' := num_sub (num_sub (box_left bo) (box_right bs')) padding).
  set (r' := num_sub (num_sub (box_left bs') (box_right bo)) padding).
  set (t' := num_sub (num_sub (box_top bo) (box_bottom bs')) padding2).
  set (b' := num_sub (num_sub (box_top bs') (box_bottom bo)) padding2).
  assert (El : toQ l == toQ (box.x bo) - toQ (box._w bo) / 2
                        - (toQ (box.x bs) + toQ (box._w bs) / 2) - toQ padding)
    by (unfold l; rewrite !toQ_sub, toQ_box_left, toQ_box_right; reflexivity).
  assert (Er : toQ r == toQ (box.x bs) - toQ (box._w bs) / 2
                        - (toQ (box.x bo) + toQ (box._w bo) / 2) - toQ padding)
    by (unfold r; rewrite !toQ_sub, toQ_box_left, toQ_box_right; reflexivity).
  assert (Et : toQ t == toQ (box.y bo) - toQ (box._h bo) / 2
                        - (toQ (box.y bs) + toQ (box._h bs) / 2) - toQ padding2)
    by (unfold t; rewrite !toQ_sub, toQ_box_top, toQ_box_bottom; reflexivity).
  assert (Eb : toQ b == toQ (box.y bs) - toQ (box._h bs) / 2
                        - (toQ (box.y bo) + toQ (box._h bo) / 2) - toQ padding2)
    by (unfold b; rewrite !toQ_sub, toQ_box_top, toQ_box_bottom; reflexivity).
  assert (El' : toQ l' == toQ (box.x bo) - toQ (box._w bo) / 2
                        - (toQ (box.x bs) + toQ (fst o) + toQ (box._w bs) / 2) - toQ padding)
    by (unfold l'; rewrite !toQ_sub, toQ_box_left, toQ_box_right, Hx, Hw, toQ_add; reflexivity).
  assert (Er' : toQ r' == toQ (box.x bs) + toQ (fst o) - toQ (box._w bs) / 2
                        - (toQ (box.x bo) + toQ (box._w bo) / 2) - toQ padding)
    by (unfold r'; rewrite !toQ_sub, toQ_box_left, toQ_box_right, Hx, Hw, toQ_add; reflexivity).
  assert (Et' : toQ t' == toQ (box.y bo) - toQ (box._h bo) / 2
                        - (toQ (box.y bs) + toQ (snd o) + toQ (box._h bs) / 2) - toQ padding2)
    by (unfold t'; rewrite !toQ_sub, toQ_box_top, toQ_box_bottom, Hy, Hh, toQ_add; reflexivity).
  assert (Eb' : toQ b' == toQ (box.y bs) + toQ (snd o) - toQ (box._h bs) / 2
                        - (toQ (box.y bo) + toQ (box._h bo) / 2) - toQ padding2)
    by (unfold b'; rewrite !toQ_sub, toQ_box_top, toQ_box_bottom, Hy, Hh, toQ_add; reflexivity).
  destruct (toQ_max4_ge l' r' t' b') as (Gl & Gr & Gt & Gb).
  pose proof toQ_zero as Z0.
  assert (Hclosed : 0 <= toQ (py_max4 l' r' t' b')).
  { clearbody l r t b l' r' t' b'. subst o. unfold SpriteBox.overlap_of in *.
    destruct (num_leb SpriteBox.zero (py_max4 l r t b)) eqn:Hm.
    { (* no overlap before: nothing moved *)
      rewrite toQ_leb in Hm. apply Qle_bool_iff in Hm.
      destruct (toQ_max4_ge l r t b) as (Hl & Hr & Ht & Hb).
      cbn [fst snd] in *.
      destruct (py_max4_is_argument l r t b) as [E|[E|[E|E]]]; rewrite E in Hm; lra. }
    destruct (num_eqb (py_max4 l r t b) l); [cbn [fst snd] in *; lra|].
    destruct (num_eqb (py_max4 l r t b) r);
      [cbn [fst snd] in *; rewrite toQ_neg in *; lra|].
    destruct (num_eqb (py_max4 l r t b) t); [cbn [fst snd] in *; lra|].
    cbn [fst snd] in *. rewrite toQ_neg in *. lra. }
  unfold SpriteBox.overlap_of. rewrite (leb_zero_true _ Hclosed). reflexivity.
Qed.
End exact_arithmetic.

(** The rationals compute exactly. *)
#[export, refine] Instance Q_ExactNum : ExactNum Q := {| toQ := fun q => q |}.
Proof.
  - intros z. reflexivity.
  - intros a b. reflexivity.
  - intros a b. reflexivity.
  - intros a b. reflexivity.
  - intros a. reflexivity.
  - intros a b _. reflexivity.
  - intros a b. reflexivity.
  - intros a b. reflexivity.
  - intros a b. reflexivity.
Defined.

Section exact_idempotence.
Context {F : Type} `{ExactNum F}.
Local Open Scope Q_scope.

Lemma overlap_of_zero_or_push (l r t b : F) :
  SpriteBox.overlap_of l r t b = (SpriteBox.zero, SpriteBox.zero) \/
  SpriteBox.ne_zero_zero (SpriteBox.overlap_of l r t b) = true.
Proof.
  unfold SpriteBox.overlap_of.
  destruct (num_leb SpriteBox.zero (py_max4 l r t b)) eqn:Hm; [left; reflexivity|].
  right. rewrite toQ_leb in Hm.
  assert (Hneg : toQ (py_max4 l r t b) < 0).
  { destruct (Qlt_le_dec (toQ (py_max4 l r t b)) 0) as [Hlt|Hle]; [exact Hlt|].
    rewrite <- toQ_zero in Hle. apply Qle_bool_iff in Hle. congruence. }
  pose proof toQ_zero as Z0.
  assert (Hnz : forall v : F, ~ toQ v == 0 -> num_eqb v SpriteBox.zero = false).
  { intros v Hv. rewrite toQ_eqb. destruct (Qeq_bool (toQ v) (toQ SpriteBox.zero)) eqn:E;
      [|reflexivity]. apply Qeq_bool_iff in E. rewrite Z0 in E. contradiction. }
  unfold SpriteBox.ne_zero_zero.
  destruct (num_eqb (py_max4 l r t b) l) eqn:El.
  { rewrite toQ_eqb in El. apply Qeq_bool_iff in El. cbn [fst snd].
    rewrite Hnz; [reflexivity | lra]. }
  destruct (num_eqb (py_max4 l r t b) r) eqn:Er.
  { rewrite toQ_eqb in Er. apply Qeq_bool_iff in Er. cbn [fst snd].
    rewrite Hnz; [reflexivity | rewrite toQ_neg; lra]. }
  destruct (num_eqb (py_max4 l r t b) t) eqn:Et.
  { rewrite toQ_eqb in Et. apply Qeq_bool_iff in Et. cbn [fst snd].
    rewrite (Hnz t) by lra. rewrite andb_false_r. reflexivity. }
  assert (Hb : py_max4 l r t b = b).
  { apply overlap_of_last_case; try assumption.
    rewrite toQ_eqb. apply Qeq_bool_iff. reflexivity. }
  cbn [fst snd]. rewrite (Hnz (num_neg b)); [rewrite andb_false_r; reflexivity|].
  rewrite toQ_neg. rewrite Hb in Hneg. lra.
Qed.

(** X23: in arithmetic without rounding, [move_to_stop_overlapping] is
    idempotent on two different boxes: a second call right after the first
    changes nothing, no position and no speed, and the overlap of the pair is
    (0, 0) after the first call. *)
Theorem move_to_stop_overlapping_idempotent (s : State F) (self other : N)
    (padding : F) (padding2 : option F) :
  self <> other ->
  let s1 := snd (run (SpriteBox.move_to_stop_overlapping self other padding padding2) s) in
  snd (run (SpriteBox.move_to_stop_overlapping self other padding padding2) s1) = s1 /\
  (is_Some (boxes s !! self) -> is_Some (boxes s !! other) ->
   run (SpriteBox.overlap self other padding padding2) s1 =
   (Ok (SpriteBox.zero, SpriteBox.zero), s1)).
Proof.
  intros Hne s1.
  destruct (boxes s !! self) as [bs|] eqn:Hs; [destruct (boxes s !! other) as [bo|] eqn:Ho|].
  - subst s1. rewrite (run_move_to_stop_overlapping _ _ _ _ _ _ _ Hs Ho). cbn [snd].
    pose proof (overlap_after_push bs (pushed
      (let '(l, r, t, b) := box_gaps bs bo padding (default padding padding2) in
       SpriteBox.overlap_of l r t b) bs) bo padding (default padding padding2)) as Hpush.
    destruct (box_gaps bs bo padding (default padding padding2)) as [[[l r] t] b] eqn:Hg.
    specialize (Hpush (pushed_geometry _ _)).
    destruct (overlap_of_zero_or_push l r t b) as [Hz|Hnz].
    + rewrite Hz, ne_zero_zero_origin.
      rewrite (run_move_to_stop_overlapping _ _ _ _ _ _ _ Hs Ho), Hg, Hz,
        ne_zero_zero_origin.
      split; [reflexivity|]. intros _ _.
      rewrite (run_overlap _ _ _ _ _ _ _ Hs Ho), Hg, Hz. reflexivity.
    + rewrite Hnz.
      set (bs' := pushed (SpriteBox.overlap_of l r t b) bs) in *.
      assert (Hs' : boxes (set_boxes <[self := bs']> s) !! self = Some bs')
        by (rewrite boxes_set_boxes; apply lookup_insert_eq).
      assert (Ho' : boxes (set_boxes <[self := bs']> s) !! other = Some bo)
        by (rewrite boxes_set_boxes, lookup_insert_ne by exact Hne; exact Ho).
      rewrite (run_move_to_stop_overlapping _ _ _ _ _ _ _ Hs' Ho').
      rewrite (run_overlap _ _ _ _ _ _ _ Hs' Ho').
      destruct (box_gaps bs' bo padding (default padding padding2)) as [[[l' r'] t'] b'].
      rewrite Hpush, ne_zero_zero_origin. split; [reflexivity|]. intros _ _. reflexivity.
  - assert (Hraise : forall st : State F, boxes st !! other = None ->
              snd (run (SpriteBox.move_to_stop_overlapping self other padding padding2) st) = st).
    { intros st Hst. unfold SpriteBox.move_to_stop_overlapping, SpriteBox.overlap.
      rewrite run_bind, run_bind.
      destruct (run_gaps_missing st self other padding padding2 (or_intror Hst)) as [e ->].
      reflexivity. }
    subst s1. rewrite (Hraise s Ho). split; [apply Hraise; exact Ho|].
    intros _ [? ?]. discriminate.
  - assert (Hraise : forall st : State F, boxes st !! self = None ->
              snd (run (SpriteBox.move_to_stop_overlapping self other padding padding2) st) = st).
    { intros st Hst. unfold SpriteBox.move_to_stop_overlapping, SpriteBox.overlap.
      rewrite run_bind, run_bind.
      destruct (run_gaps_missing st self other padding padding2 (or_introl Hst)) as [e ->].
      reflexivity. }
    subst s1. rewrite (Hraise s Hs). split; [apply Hraise; exact Hs|].
    intros [? ?]. discriminate.
Qed.
End exact_idempotence.

(** * The geometry claims on concrete boxes *)

Section geometry_examples.
Local Open Scope float_scope.
Import SpriteBox.

Lemma overlap_touches_spec_witness :
  run (touches 0 1 0 None) near_boxes = (Ok true, near_boxes) /\
  exists dx, run (overlap 0 1 0 None) near_boxes = (Ok (dx, 0), near_boxes) /\
             (dx <? 0) = true.
Proof.
  assert (Hs : boxes near_boxes !! 0%N = Some (color_box 0 0 10 10))
    by (vm_compute; reflexivity).
  assert (Ho : boxes near_boxes !! 1%N = Some (color_box float_9_99 0 10 10))
    by (vm_compute; reflexivity).
  pose proof (overlap_touches_spec near_boxes 0 1 _ _ 0 None Hs Ho) as Hspec.
  cbv zeta in Hspec. destruct Hspec as (_ & _ & _ & _ & Hnear).
  exact (Hnear eq_refl eq_refl eq_refl eq_refl).
Defined.

Lemma move_is_pure_translation_witness :
  exists s', run (move 0 3 4) near_boxes = (Ok tt, s') /\
             boxes s' !! 0%N = Some (translated 3 4 (color_box 0 0 10 10)) /\
             world s' = world near_boxes.
Proof.
  assert (Hs : boxes near_boxes !! 0%N = Some (color_box 0 0 10 10))
    by (vm_compute; reflexivity).
  pose proof (move_is_pure_translation near_boxes 0 _ 3 4 Hs) as Hmove.
  cbv zeta in Hmove. destruct Hmove as [[s' [E (Hw & _ & Hb & _)]] _].
  exists s'. split; [exact E|]. split; [exact Hb | exact Hw].
Defined.

(** C7, as stated, fails for a box with a NaN coordinate: of a 10x10 box at
    x = NaN and one at the origin the gaps [l] and [r] are NaN, [max] returns
    NaN, no test of the chain holds, and [overlap] returns the last case,
    (0, 10), although [b] is not [m] and although [touches] returns
    [False]. *)
Lemma overlap_of_nan_takes_last_case :
  let bs := color_box nan 0 10 10 in
  let bo := color_box 0 0 10 10 in
  let s := two_boxes bs bo in
  let l := box_left bo - box_right bs - 0 in
  let r := box_left bs - box_right bo - 0 in
  let t := box_top bo - box_bottom bs - 0 in
  let b := box_top bs - box_bottom bo - 0 in
  let m := py_max4 l r t b in
  run (overlap 0 1 0 None) s = (Ok (0, 10), s) /\
  run (touches 0 1 0 None) s = (Ok false, s) /\
  (l =? l) = false /\ (r =? r) = false /\
  (m =? l) = false /\ (m =? r) = false /\ (m =? t) = false /\ (m =? b) = false /\
  (t <=? m) = false /\ (b <=? m) = false.
Proof. vm_compute. repeat split. Qed.

(** C8: [move_to_stop_overlapping] is not idempotent on binary64 numbers,
    and its first call does not always leave the boxes apart.  The first
    push of a 10x10 box at x = 0.2 away from one at x = 0.1 leaves an overlap
    of 2^-49, so the second call moves the box again.  And a box passed as
    both arguments overlaps itself after every push, whatever the
    arithmetic. *)
Theorem move_to_stop_overlapping_moves_again :
  (let s0 := two_boxes (color_box float_0_2 0 10 10) (color_box float_0_1 0 10 10) in
   let s1 := snd (run (move_to_stop_overlapping 0 1 0 None) s0) in
   let s2 := snd (run (move_to_stop_overlapping 0 1 0 None) s1) in
   (box.x <$> boxes s1 !! 0%N) = Some 0x1.4333333333332p+3 /\
   fst (run (overlap 0 1 0 None) s1) = Ok (0x1p-49, 0) /\
   fst (run (touches 0 1 0 None) s1) = Ok true /\
   (box.x <$> boxes s2 !! 0%N) = Some 0x1.4333333333333p+3) /\
  (let s0 := two_boxes (color_box 0%Q 0%Q 10%Q 10%Q) (color_box 50%Q 0%Q 10%Q 10%Q) in
   let s1 := snd (run (move_to_stop_overlapping 0 0 0%Q None) s0) in
   let s2 := snd (run (move_to_stop_overlapping 0 0 0%Q None) s1) in
   (Qred ∘ box.x <$> boxes s1 !! 0%N) = Some (-10)%Q /\
   (Qred ∘ box.x <$> boxes s2 !! 0%N) = Some (-20)%Q).
Proof.
  split.
  - vm_compute. repeat split.
  - vm_compute. repeat split.
Qed.

Lemma move_to_stop_overlapping_idempotent_witness :
  let s0 := two_boxes (color_box 0%Q 0%Q 10%Q 10%Q) (color_box 3%Q 0%Q 10%Q 10%Q) in
  let s1 := snd (run (move_to_stop_overlapping 0 1 0%Q None) s0) in
  snd (run (move_to_stop_overlapping 0 1 0%Q None) s1) = s1 /\
  (Qred ∘ box.x <$> boxes s1 !! 0%N) = Some (-7)%Q.
Proof.
  assert (Hne : 0%N <> 1%N) by discriminate.
  split.
  - exact (proj1 (move_to_stop_overlapping_idempotent
                    (two_boxes (color_box 0%Q 0%Q 10%Q 10%Q) (color_box 3%Q 0%Q 10%Q 10%Q))
                    0%N 1%N 0%Q None Hne)).
  - vm_compute. reflexivity.
Defined.
End geometry_examples.

(** * [_set_key] and the mutators built on it *)

Section set_key.
Context {F : Type} `{PyNum F} `{Externals}.
Import _ImageCache.

Lemma run_lift_world {A} (c : M World A) (s : State F) :
  run (lift_world c) s = (fst (run c (world s)), set_world (snd (run c (world s))) s).
Proof. cbn [run lift_world]. destruct (run c (world s)); reflexivity. Qed.

Lemma run_py_int (v : F) (s : State F) :
  run (SpriteBox.py_int v) s =
  (match num_int v with Ok z => Ok z | Raise e => Raise e end, s).
Proof. unfold SpriteBox.py_int. destruct (num_int v); reflexivity. Qed.

(** A call for a key whose unrotated image is cached leaves that entry as
    it is. *)
Lemma get_transform_keeps_unrotated key flip w h angle v s r s' :
  _known_images s !! (key, flip, w, h, 0) = Some v ->
  run (get_transform (key, flip, w, h, angle)) s = (r, s') ->
  _known_images s' !! (key, flip, w, h, 0) = Some v.
Proof.
  intros Hv.
  assert (Hhit : forall st, _known_images st !! (key, flip, w, h, 0) = Some v ->
            exists st', run (get_transform (key, flip, w, h, 0)) st = (Ok v, st') /\
                        _known_images st' !! (key, flip, w, h, 0) = Some v /\
                        forall k2, key_angle k2 <> 0 ->
                                   _known_images st' !! k2 = _known_images st !! k2).
  { intros st Hst. rewrite (get_transform_hit_unrotated _ _ _ _ v) by exact Hst.
    eexists. split; [reflexivity|]. destruct (decide (w = 0 /\ h = 0)) as [[-> ->]|Hn].
    - cbn [_known_images set_known_images]. split.
      + destruct (decide ((key, flip, get_width v, get_height v, 0) = (key, flip, 0, 0, 0)))
          as [->|Hne]; [apply lookup_insert_eq | rewrite lookup_insert_ne by auto; exact Hst].
      + intros k2 Hk2. apply lookup_insert_ne. intros <-. apply Hk2. reflexivity.
    - split; [exact Hst | reflexivity]. }
  destruct (decide (angle = 0)) as [->|Ha].
  { intros E. destruct (Hhit s Hv) as (st' & E' & Hk & _). congruence. }
  assert (Hpost : forall st ans r s', 
            _known_images st !! (key, flip, w, h, 0) = Some v ->
            run (also_cache_natural get_transform key flip w h angle ans) st = (r, s') ->
            _known_images s' !! (key, flip, w, h, 0) = Some v).
  { intros st ans r0 s0 Hst. unfold also_cache_natural.
    destruct (decide (w = 0 /\ h = 0)) as [[-> ->]|Hn]; [|intros [= <- <-]; exact Hst].
    destruct (decide (angle <> 0)); [|tauto].
    rewrite run_bind. destruct (Hhit st Hst) as (st' & -> & Hk & _).
    cbn [run cache_put modify]. intros [= <- <-]. cbn [_known_images set_known_images].
    rewrite lookup_insert_ne by congruence. exact Hk. }
  rewrite get_transform_body. rewrite run_bind. cbn [run gets]. rewrite run_bind.
  destruct (_known_images s !! (key, flip, w, h, angle)) as [ans|].
  - cbn [run ret]. rewrite run_bind.
    destruct (run (also_cache_natural _ _ _ _ _ _ _) s) as [[[]|e] sb] eqn:E2;
      apply (Hpost _ _ _ _ Hv) in E2; cbn [run ret]; intros [= <- <-]; exact E2.
  - unfold compute_image. destruct (decide (angle <> 0)); [|tauto].
    rewrite !run_bind. destruct (Hhit s Hv) as (st' & -> & Hk & _).
    destruct (run (pygame.rotozoom v angle) st') as [[img|e] sr] eqn:Er;
      apply rotozoom_spec in Er.
    + cbn [run bind cache_put modify ret].
      set (sp := set_known_images _ sr).
      assert (Hsp : _known_images sp !! (key, flip, w, h, 0) = Some v).
      { subst sp. cbn [_known_images set_known_images].
        rewrite lookup_insert_ne by congruence. rewrite Er. exact Hk. }
      destruct (run (also_cache_natural _ _ _ _ _ _ _) sp) as [[[]|e] sb] eqn:E2;
        apply (Hpost _ _ _ _ Hsp) in E2; cbn [run ret]; intros [= <- <-]; exact E2.
    + intros [= <- <-]. rewrite Er. exact Hk.
Qed.

Lemma _set_key_rest (self : N) (name : ImageRef) (flip : bool) (width height angle : F) :
  SpriteBox._set_key self name flip width height angle =
  let* key :=
    match name with
    | RefSurface surface =>
        lift_world (cache_surface surface);; ret (surface_key surface)
    | RefStr name => ret name
    end in
  set_key_rest self key flip width height angle.
Proof. reflexivity. Qed.

Lemma set_key_rest_spec self key flip width height angle s r s' :
  run (set_key_rest self key flip width height angle) s = (r, s') ->
  cache_wf (_known_images (world s)) ->
  cache_wf (_known_images (world s')) /\
  (r = Ok tt -> key_matches_image s' self /\ stored_key s' self key flip angle).
Proof.
  unfold set_key_rest. intros E Hwf. revert E.
  rewrite run_bind, run_py_int.
  destruct (num_int (num_add width SpriteBox.half)) as [wz|e];
    [|intros [= <- <-]; split; [exact Hwf|discriminate]].
  rewrite run_bind, run_py_int.
  destruct (num_int (num_add height SpriteBox.half)) as [hz|e];
    [|intros [= <- <-]; split; [exact Hwf|discriminate]].
  rewrite run_bind, run_py_int.
  destruct (num_int angle) as [az|e] eqn:Hangle;
    [|intros [= <- <-]; split; [exact Hwf|discriminate]].
  assert (Hnorm : ((az mod 360) + 360) mod 360 = az mod 360).
  { rewrite Z.add_mod by lia. rewrite Z.mod_mod, Z.mod_same, Z.add_0_r, Z.mod_mod by lia.
    reflexivity. }
  rewrite Hnorm.
  assert (Hrange : 0 <= az mod 360 < 360) by (apply Z.mod_pos_bound; lia).
  set (a := az mod 360) in *.
  rewrite run_bind, run_lift_world.
  destruct (run (get_transform (key, flip, wz, hz, 0)) (world s)) as [[unrot|e] w1] eqn:E1;
    pose proof (get_transform_spec _ _ _ _ E1) as [Hstep1 Hpost1]; cbn [fst snd];
    [|intros [= <- <-]; split; [exact (step_wf _ _ _ Hstep1 Hwf)|discriminate]].
  pose proof (step_wf _ _ _ Hstep1 Hwf) as Hwf1.
  destruct (Hpost1 unrot eq_refl) as [Hk1 Halias1].
  cbn [key_w key_h key_name key_flip key_angle] in Halias1.
  set (size := if decide (wz = 0 /\ hz = 0) then (get_width unrot, get_height unrot)
               else (wz, hz)).
  assert (Hun : _known_images w1 !! (key, flip, fst size, snd size, 0) = Some unrot /\
                get_width unrot = fst size /\ get_height unrot = snd size).
  { subst size. destruct (decide (wz = 0 /\ hz = 0)) as [[-> ->]|Hn]; cbn [fst snd].
    - destruct (Halias1 eq_refl eq_refl) as (tmp & Ht1 & Ht2 & _).
      assert (tmp = unrot) as -> by congruence. auto.
    - split; [exact Hk1|]. apply (Hwf1 _ _ Hk1); [reflexivity|]. cbn [key_w key_h]. lia. }
  destruct size as [kw kh]. cbn [fst snd] in Hun. destruct Hun as (Hun & Hkw & Hkh).
  rewrite run_bind.
  destruct (boxes s !! self) as [b|] eqn:Hb.
  2:{ cbn [run setattr boxes set_world]. rewrite Hb.
      intros [= <- <-]. split; [exact Hwf1|discriminate]. }
  rewrite (run_setattr _ _ _ b) by exact Hb.
  rewrite run_bind, run_lift_world. cbn [world set_boxes set_world].
  destruct (run (get_transform (key, flip, kw, kh, a)) w1) as [[image|e] w2] eqn:E2;
    pose proof (get_transform_spec _ _ _ _ E2) as [Hstep2 Hpost2];
    pose proof (get_transform_keeps_unrotated _ _ _ _ _ _ _ _ _ Hun E2) as Hun2;
    pose proof (step_wf _ _ _ Hstep2 Hwf1) as Hwf2; cbn [fst snd];
    [|intros [= <- <-]; split; [exact Hwf2|discriminate]].
  destruct (Hpost2 image eq_refl) as [Hk2 _].
  set (b1 := box.set_key (Some (key, flip, kw, kh, a)) b).
  rewrite run_bind, (run_setattr _ _ _ b1) by (cbn; apply lookup_insert_eq).
  rewrite run_bind, (run_setattr _ _ _ (box.set_image (Some image) b1))
    by (cbn; apply lookup_insert_eq).
  rewrite run_bind, (run_setattr _ _ _ (box.set_color None (box.set_image (Some image) b1)))
    by (cbn; apply lookup_insert_eq).
  rewrite (run_setattr _ _ _
             (box.set_w (num_of_Z (get_width image))
                (box.set_color None (box.set_image (Some image) b1))))
    by (cbn; apply lookup_insert_eq).
  intros [= <- <-]. split; [exact Hwf2|]. intros _. split.
  - eexists _, key, flip, kw, kh, a, unrot, image.
    split; [cbn; apply lookup_insert_eq|]. cbn.
    repeat split; try assumption; try lia.
  - eexists _, kw, kh, az. split; [cbn; apply lookup_insert_eq|].
    split; [exact Hangle | reflexivity].
Qed.

Lemma _set_key_spec self name flip width height angle s r s' :
  run (SpriteBox._set_key self name flip width height angle) s = (r, s') ->
  cache_wf (_known_images (world s)) ->
  cache_wf (_known_images (world s')) /\
  (r = Ok tt -> key_matches_image s' self).
Proof.
  rewrite _set_key_rest. rewrite run_bind. destruct name as [nm|surface].
  - cbn [run ret]. intros E Hwf.
    destruct (set_key_rest_spec _ _ _ _ _ _ _ _ _ E Hwf) as [Hwf' Hpost].
    split; [exact Hwf'|]. intros Hr. apply Hpost. exact Hr.
  - rewrite run_bind, run_lift_world.
    destruct (cache_surface_spec surface (world s)) as (w1 & E1 & Hstep).
    rewrite E1. cbn [fst snd run ret]. intros E Hwf.
    assert (Hwf1 : cache_wf (_known_images (world (set_world w1 s))))
      by exact (step_wf _ _ _ Hstep Hwf).
    destruct (set_key_rest_spec _ _ _ _ _ _ _ _ _ E Hwf1) as [Hwf' Hpost].
    split; [exact Hwf'|]. intros Hr. apply Hpost. exact Hr.
Qed.
End set_key.

(** * The claims about [_set_key]: angle normalisation and the key invariant *)

Section set_key_claims.
Context {F : Type} `{PyNum F} `{Externals}.
Import _ImageCache.

Lemma set_key_rest_stored self key flip width height angle s s' :
  run (set_key_rest self key flip width height angle) s = (Ok tt, s') ->
  stored_key s' self key flip angle.
Proof.
  unfold set_key_rest.
  rewrite run_bind, run_py_int.
  destruct (num_int (num_add width SpriteBox.half)) as [wz|e]; [|discriminate].
  rewrite run_bind, run_py_int.
  destruct (num_int (num_add height SpriteBox.half)) as [hz|e]; [|discriminate].
  rewrite run_bind, run_py_int.
  destruct (num_int angle) as [az|e] eqn:Hangle; [|discriminate].
  assert (Hnorm : ((az mod 360) + 360) mod 360 = az mod 360).
  { rewrite Z.add_mod by lia. rewrite Z.mod_mod, Z.mod_same, Z.add_0_r, Z.mod_mod by lia.
    reflexivity. }
  rewrite Hnorm.
  rewrite run_bind, run_lift_world.
  destruct (run (get_transform (key, flip, wz, hz, 0)) (world s)) as [[unrot|e] w1];
    cbn [fst snd]; [|discriminate].
  destruct (if decide (wz = 0 /\ hz = 0) then (get_width unrot, get_height unrot)
            else (wz, hz)) as [kw kh].
  rewrite run_bind.
  destruct (boxes s !! self) as [b|] eqn:Hb.
  2:{ cbn [run setattr boxes set_world]. rewrite Hb. discriminate. }
  rewrite (run_setattr _ _ _ b) by exact Hb.
  rewrite run_bind, run_lift_world. cbn [world set_boxes set_world].
  destruct (run (get_transform (key, flip, kw, kh, az mod 360)) w1) as [[image|e] w2];
    cbn [fst snd]; [|discriminate].
  set (b1 := box.set_key (Some (key, flip, kw, kh, az mod 360)) b).
  rewrite run_bind, (run_setattr _ _ _ b1) by (cbn; apply lookup_insert_eq).
  rewrite run_bind, (run_setattr _ _ _ (box.set_image (Some image) b1))
    by (cbn; apply lookup_insert_eq).
  rewrite run_bind, (run_setattr _ _ _ (box.set_color None (box.set_image (Some image) b1)))
    by (cbn; apply lookup_insert_eq).
  rewrite (run_setattr _ _ _
             (box.set_w (num_of_Z (get_width image))
                (box.set_color None (box.set_image (Some image) b1))))
    by (cbn; apply lookup_insert_eq).
  intros [= <-]. eexists _, kw, kh, az. split; [cbn; apply lookup_insert_eq|].
  split; [exact Hangle | reflexivity].
Qed.

Lemma set_key_rest_same_angle self key flip width height angle1 angle2 z1 z2 s :
  num_int angle1 = Ok z1 -> num_int angle2 = Ok z2 -> z1 mod 360 = z2 mod 360 ->
  run (set_key_rest self key flip width height angle1) s =
  run (set_key_rest self key flip width height angle2) s.
Proof.
  intros H1 H2 Hmod. unfold set_key_rest.
  rewrite (run_bind (SpriteBox.py_int (num_add width SpriteBox.half))).
  rewrite (run_bind (SpriteBox.py_int (num_add width SpriteBox.half))).
  destruct (run (SpriteBox.py_int (num_add width SpriteBox.half)) s) as [[wz|e] s1];
    [|reflexivity].
  rewrite (run_bind (SpriteBox.py_int (num_add height SpriteBox.half))).
  rewrite (run_bind (SpriteBox.py_int (num_add height SpriteBox.half))).
  destruct (run (SpriteBox.py_int (num_add height SpriteBox.half)) s1) as [[hz|e] s2];
    [|reflexivity].
  rewrite (run_bind (SpriteBox.py_int angle1)), (run_bind (SpriteBox.py_int angle2)).
  rewrite !run_py_int, H1, H2.
  assert (Hnorm : forall z, ((z mod 360) + 360) mod 360 = z mod 360).
  { intros z. rewrite Z.add_mod by lia.
    rewrite Z.mod_mod, Z.mod_same, Z.add_0_r, Z.mod_mod by lia. reflexivity. }
  rewrite !Hnorm, Hmod. reflexivity.
Qed.

(** C4, as amended: it is [_set_key] that brings the requested angle into
    [0, 360), with [((int(angle) % 360) + 360) % 360], before it asks the
    cache; two requests whose angles truncate to integers that agree modulo
    360, such as -10 and 350, therefore run identically and leave the same
    key, with the angle in [0, 360), and the same image object in the box. *)
Theorem _set_key_normalizes_angle (self : N) (name : ImageRef) (flip : bool)
    (width height angle1 angle2 : F) (z1 z2 : Z) (s : State F) :
  num_int angle1 = Ok z1 -> num_int angle2 = Ok z2 -> z1 mod 360 = z2 mod 360 ->
  run (SpriteBox._set_key self name flip width height angle1) s =
  run (SpriteBox._set_key self name flip width height angle2) s /\
  forall s', run (SpriteBox._set_key self name flip width height angle1) s = (Ok tt, s') ->
    exists b k, boxes s' !! self = Some b /\ box._key b = Some k /\
                key_angle k = z1 mod 360 /\ 0 <= key_angle k < 360.
Proof.
  intros H1 H2 Hmod. split.
  - rewrite !_set_key_rest. rewrite !run_bind.
    destruct (run _ s) as [[key|e] s1]; [|reflexivity].
    apply (set_key_rest_same_angle _ _ _ _ _ _ _ _ _ _ H1 H2 Hmod).
  - intros s'. rewrite _set_key_rest. rewrite run_bind.
    destruct (run _ s) as [[key|e] s1]; [|discriminate].
    intros E. apply set_key_rest_stored in E.
    destruct E as (b & w & h & z & Hb & Hz & Hk).
    assert (z = z1) as -> by congruence.
    exists b, (key, flip, w, h, z1 mod 360). repeat split; try assumption;
      cbn [key_angle]; apply Z.mod_pos_bound; lia.
Qed.

Lemma mutate_spec (s : State F) (self : N) (b : box.t F) (m : mutator F)
    (r : result unit) (s' : State F) :
  cache_wf (_known_images (world s)) ->
  boxes s !! self = Some b -> cache_backed b ->
  run (mutate self m) s = (r, s') ->
  cache_wf (_known_images (world s')) /\ (r = Ok tt -> key_matches_image s' self).
Proof.
  intros Hwf Hb [[k Hk] [img Himg]].
  assert (Hscale : forall multiplier r s',
            run (SpriteBox.scale_by self multiplier) s = (r, s') ->
            cache_wf (_known_images (world s')) /\ (r = Ok tt -> key_matches_image s' self)).
  { intros multiplier r0 s0. unfold SpriteBox.scale_by.
    rewrite run_bind, (run_getattr _ _ _ _ Hb), Hk.
    intros E. exact (_set_key_spec _ _ _ _ _ _ _ _ _ E Hwf). }
  destruct m as [|angle|multiplier| |value|value|value|value]; cbn [mutate].
  - unfold SpriteBox.flip. rewrite run_bind, (run_getattr _ _ _ _ Hb), Hk.
    intros E. exact (_set_key_spec _ _ _ _ _ _ _ _ _ E Hwf).
  - unfold SpriteBox.rotate. rewrite run_bind, (run_getattr _ _ _ _ Hb), Hk.
    intros E. exact (_set_key_spec _ _ _ _ _ _ _ _ _ E Hwf).
  - apply Hscale.
  - unfold SpriteBox.full_size. rewrite run_bind, (run_getattr _ _ _ _ Hb), Hk.
    intros E. exact (_set_key_spec _ _ _ _ _ _ _ _ _ E Hwf).
  - unfold SpriteBox.set_size.
    rewrite run_bind, (run_getattr _ _ _ _ Hb), run_bind, (run_getattr _ _ _ _ Hb).
    rewrite Hk, Himg. intros E. exact (_set_key_spec _ _ _ _ _ _ _ _ _ E Hwf).
  - unfold SpriteBox.set_width. rewrite run_bind, (run_getattr _ _ _ _ Hb), run_bind.
    unfold py_div. destruct (num_eqb _ _).
    + intros [= <- <-]. split; [exact Hwf|discriminate].
    + apply Hscale.
  - unfold SpriteBox.set_height. rewrite run_bind, (run_getattr _ _ _ _ Hb), run_bind.
    unfold py_div. destruct (num_eqb _ _).
    + intros [= <- <-]. split; [exact Hwf|discriminate].
    + apply Hscale.
  - unfold SpriteBox.set_image. rewrite run_bind, (run_getattr _ _ _ _ Hb), Hk.
    intros E. exact (_set_key_spec _ _ _ _ _ _ _ _ _ E Hwf).
Qed.

Lemma key_matches_image_backed (s : State F) (self : N) :
  key_matches_image s self -> exists b, boxes s !! self = Some b /\ cache_backed b.
Proof.
  intros (b & key & flip & w & h & angle & unrot & image & Hb & Hk & _ & _ & _ & _ & _ & Hi & _).
  exists b. split; [exact Hb|]. split; eauto.
Qed.

(** C10: on a well-formed cache, the box a constructor builds from an image
    and the box every key-changing mutator leaves satisfy
    [key_matches_image]: the width and height of the stored key are those of
    the unrotated image the cache holds for the box, so the sentinel (0, 0)
    stays in the key only if that image is empty, and the stored [_w] and
    [_h] are the width and height of the displayed image; the cache stays
    well-formed. *)
Theorem key_matches_image_after (s : State F) :
  cache_wf (_known_images (world s)) ->
  (forall x y image color w h self s',
     run (SpriteBox.new x y (Some image) color w h) s = (Ok self, s') ->
     key_matches_image s' self /\ cache_wf (_known_images (world s'))) /\
  (forall self b m s',
     boxes s !! self = Some b -> cache_backed b ->
     run (mutate self m) s = (Ok tt, s') ->
     key_matches_image s' self /\ cache_wf (_known_images (world s'))).
Proof.
  intros Hwf. split.
  - intros x y image color w h self s'. unfold SpriteBox.new.
    rewrite run_bind. cbn [run SpriteBox.allocate].
    set (sa := {| world := world s; boxes := _; next_box := _ |}).
    rewrite run_bind. unfold SpriteBox.__init__. rewrite run_bind.
    destruct (run (SpriteBox._set_key _ _ _ _ _ _) sa) as [[[]|e] s1] eqn:E1;
      [|discriminate].
    destruct (_set_key_spec _ _ _ _ _ _ _ _ _ E1 Hwf) as [Hwf1 Hinv1].
    specialize (Hinv1 eq_refl).
    destruct (key_matches_image_backed _ _ Hinv1) as (b1 & Hb1 & Hbacked).
    assert (Hmut : forall m r s2, run (mutate (next_box s) m) s1 = (r, s2) ->
              r = Ok tt -> key_matches_image s2 (next_box s) /\
                           cache_wf (_known_images (world s2))).
    { intros m r s2 E Hr.
      destruct (mutate_spec _ _ _ _ _ _ Hwf1 Hb1 Hbacked E) as [Hwf2 Hinv2]. auto. }
    destruct w as [w|], h as [h|].
    + destruct (run (SpriteBox.set_size _ _) s1) as [[[]|e] s2] eqn:E2; [|discriminate].
      cbn [run ret]. intros [= <- <-]. exact (Hmut (MSetSize (w, h)) _ _ E2 eq_refl).
    + destruct (run (SpriteBox.set_width _ _) s1) as [[[]|e] s2] eqn:E2; [|discriminate].
      cbn [run ret]. intros [= <- <-]. exact (Hmut (MSetWidth w) _ _ E2 eq_refl).
    + destruct (run (SpriteBox.set_height _ _) s1) as [[[]|e] s2] eqn:E2; [|discriminate].
      cbn [run ret]. intros [= <- <-]. exact (Hmut (MSetHeight h) _ _ E2 eq_refl).
    + cbn [run ret]. intros [= <- <-]. split; assumption.
  - intros self b m s' Hb Hbacked E.
    destruct (mutate_spec _ _ _ _ _ _ Hwf Hb Hbacked E) as [Hwf' Hinv]. auto.
Qed.
End set_key_claims.

(** * [_set_key] on concrete boxes *)

Lemma cache_wf_empty : cache_wf ∅.
Proof. intros k v Hk. rewrite lookup_empty in Hk. discriminate. Qed.

Section set_key_examples.
Local Open Scope float_scope.

(** C4, as stated, fails: [get_transform] looks the angle up as it is
    given, so -10 and 350 are two keys, each with an image of its own. *)
Lemma get_transform_keeps_angle_as_given :
  let r1 := run (@get_transform example_externals ("a.png"%string, false, 0, 0, -10)%Z)
              example_world in
  let r2 := run (@get_transform example_externals ("a.png"%string, false, 0, 0, 350)%Z)
              (snd r1) in
  fst r1 = Ok (a_png_turned 1 (-10)) /\
  fst r2 = Ok (a_png_turned 2 350) /\
  _known_images (snd r2) !! ("a.png"%string, false, 0, 0, -10)%Z = Some (a_png_turned 1 (-10)) /\
  _known_images (snd r2) !! ("a.png"%string, false, 0, 0, 350)%Z = Some (a_png_turned 2 350) /\
  oplog (snd r2) = [OpRotozoom 0 350; OpRotozoom 0 (-10); OpLoad "a.png"].
Proof. vm_compute. repeat split. Qed.

Lemma _set_key_normalizes_angle_witness :
  run (@SpriteBox._set_key float _ example_externals 0 (RefStr "a.png") false 0 0 (-10))
    near_boxes =
  run (@SpriteBox._set_key float _ example_externals 0 (RefStr "a.png") false 0 0 350)
    near_boxes.
Proof.
  assert (H1 : num_int (-10) = Ok (-10)%Z) by (vm_compute; reflexivity).
  assert (H2 : num_int 350 = Ok 350%Z) by (vm_compute; reflexivity).
  assert (H3 : ((-10) mod 360 = 350 mod 360)%Z) by reflexivity.
  exact (proj1 (@_set_key_normalizes_angle float _ example_externals 0 (RefStr "a.png")
                  false 0 0 (-10) 350 (-10)%Z 350%Z near_boxes H1 H2 H3)).
Defined.

(** The angle is cut to its integer part, toward zero, before it is
    reduced: -10.5 and 349.5 differ by 360 and leave the angles 350 and
    349 in the key. *)
Example _set_key_truncates_angle :
  let key_after (angle : float) :=
    box._key <$> boxes (snd (run (@SpriteBox._set_key float _ example_externals 0
                                    (RefStr "a.png") false 0 0 angle) near_boxes)) !! 0%N in
  key_after (-10.5) = Some (Some ("a.png"%string, false, 3, 2, 350)%Z) /\
  key_after 349.5 = Some (Some ("a.png"%string, false, 3, 2, 349)%Z).
Proof. vm_compute. split; reflexivity. Qed.

Lemma key_matches_image_after_witness :
  key_matches_image
    (snd (run (@SpriteBox.new float _ example_externals 0 0
                 (Some (RefStr "a.png")) None (Some 6) None) (example_state float)))
    0%N.
Proof.
  assert (Hwf : cache_wf (_known_images (world (example_state float))))
    by exact cache_wf_empty.
  assert (E : fst (run (@SpriteBox.new float _ example_externals 0 0
                          (Some (RefStr "a.png")) None (Some 6) None)
                     (example_state float)) = Ok 0%N)
    by (vm_compute; reflexivity).
  exact (proj1 (proj1 (@key_matches_image_after float _ example_externals
                         (example_state float) Hwf) _ _ _ _ _ _ _ _ (run_result _ _ _ E))).
Defined.

(** The box of [example_box_program]: the key holds the natural size 3x2 of
    the flipped image, the box the size 2x3 of the image turned by 90. *)
Lemma example_box_program_result :
  let r := run example_box_program (example_state float) in
  fst r = Ok 0%N /\
  (box._key <$> boxes (snd r) !! 0%N) = Some (Some ("a.png"%string, true, 3, 2, 90)%Z) /\
  (geometry <$> boxes (snd r) !! 0%N) = Some (0, 0, 2, 3).
Proof. vm_compute. repeat split. Qed.
End set_key_examples.

(** * Arithmetic without rounding: comparisons and the maximum *)

Section exact_helpers.
Context {F : Type} `{ExactNum F}.
Local Open Scope Q_scope.

Lemma ltb_iff (a b : F) : num_ltb a b = true <-> toQ a < toQ b.
Proof.
  rewrite toQ_ltb. destruct (Qle_bool (toQ b) (toQ a)) eqn:E; simpl.
  - apply Qle_bool_iff in E. split; [discriminate|]. intros Hlt. exfalso. lra.
  - split; [intros _|reflexivity].
    destruct (Qlt_le_dec (toQ a) (toQ b)) as [Hlt|Hle]; [exact Hlt|].
    apply Qle_bool_iff in Hle. congruence.
Qed.

Lemma toQ_two : toQ SpriteBox.two == 2.
Proof. unfold SpriteBox.two. rewrite toQ_of_Z. reflexivity. Qed.

Lemma toQ_one : toQ SpriteBox.one == 1.
Proof. unfold SpriteBox.one. rewrite toQ_of_Z. reflexivity. Qed.

Lemma ltb_zero_zero : num_ltb SpriteBox.zero SpriteBox.zero = false.
Proof.
  destruct (num_ltb SpriteBox.zero SpriteBox.zero) eqn:E; [|reflexivity].
  apply ltb_iff in E. lra.
Qed.

Lemma ltb_true (a b : F) : toQ a < toQ b -> num_ltb a b = true.
Proof. apply ltb_iff. Qed.

Lemma ltb_false (a b : F) : toQ b <= toQ a -> num_ltb a b = false.
Proof.
  intros Hle. destruct (num_ltb a b) eqn:E; [|reflexivity].
  apply ltb_iff in E. lra.
Qed.

Lemma eqb_iff (a b : F) : num_eqb a b = true <-> toQ a == toQ b.
Proof. rewrite toQ_eqb. apply Qeq_bool_iff. Qed.

Lemma leb_iff (a b : F) : num_leb a b = true <-> toQ a <= toQ b.
Proof. rewrite toQ_leb. apply Qle_bool_iff. Qed.

(** The value of [max(l, r, t, b)]: one of the four and no less than any. *)
Lemma toQ_max4_is (l r t b : F) (q : Q) :
  toQ l <= q -> toQ r <= q -> toQ t <= q -> toQ b <= q ->
  (q <= toQ l \/ q <= toQ r \/ q <= toQ t \/ q <= toQ b) ->
  toQ (py_max4 l r t b) == q.
Proof.
  intros Hl Hr Ht Hb Hq.
  destruct (toQ_max4_ge l r t b) as (Gl & Gr & Gt & Gb).
  destruct (py_max4_is_argument l r t b) as [E|[E|[E|E]]]; rewrite E in *; lra.
Qed.

(** What [overlap] returns, by the sign of the largest gap. *)
Lemma overlap_of_cases (l r t b : F) :
  let m := py_max4 l r t b in
  let o := SpriteBox.overlap_of l r t b in
  (0 <= toQ m -> o = (SpriteBox.zero, SpriteBox.zero)) /\
  (toQ m < 0 ->
   (o = (l, SpriteBox.zero) /\ toQ l == toQ m) \/
   (o = (num_neg r, SpriteBox.zero) /\ toQ r == toQ m) \/
   (o = (SpriteBox.zero, t) /\ toQ t == toQ m) \/
   (o = (SpriteBox.zero, num_neg b) /\ toQ b == toQ m)).
Proof.
  intros m o. subst o. unfold SpriteBox.overlap_of. fold m. split.
  - intros Hm. rewrite (leb_zero_true _ Hm). reflexivity.
  - intros Hm.
    assert (Hleb : num_leb SpriteBox.zero m = false).
    { destruct (num_leb SpriteBox.zero m) eqn:E; [|reflexivity].
      apply leb_iff in E. rewrite toQ_zero in E. lra. }
    rewrite Hleb.
    destruct (num_eqb m l) eqn:El.
    { left. split; [reflexivity|]. apply eqb_iff in El. symmetry. exact El. }
    destruct (num_eqb m r) eqn:Er.
    { right. left. split; [reflexivity|]. apply eqb_iff in Er. symmetry. exact Er. }
    destruct (num_eqb m t) eqn:Et.
    { right. right. left. split; [reflexivity|]. apply eqb_iff in Et. symmetry. exact Et. }
    right. right. right. split; [reflexivity|].
    assert (Hb : m = b).
    { apply overlap_of_last_case; try assumption. apply eqb_iff. reflexivity. }
    rewrite <- Hb. reflexivity.
Qed.
End exact_helpers.

(** * More of [SpriteBox]: edges, containment and the edge that touches *)

Section more_edges.
Context {F : Type} `{PyNum F}.

Lemma run_set_left (s : State F) (self : N) (b : box.t F) (v : F) :
  boxes s !! self = Some b ->
  run (SpriteBox.set_left self v) s =
  (Ok tt, set_boxes <[self := box.set_x (num_add v (num_div (box._w b) SpriteBox.two)) b]> s).
Proof.
  intros Hs. unfold SpriteBox.set_left.
  rewrite run_bind, (run_getattr _ _ _ _ Hs). apply run_setattr. exact Hs.
Qed.

Lemma run_set_right (s : State F) (self : N) (b : box.t F) (v : F) :
  boxes s !! self = Some b ->
  run (SpriteBox.set_right self v) s =
  (Ok tt, set_boxes <[self := box.set_x (num_sub v (num_div (box._w b) SpriteBox.two)) b]> s).
Proof.
  intros Hs. unfold SpriteBox.set_right.
  rewrite run_bind, (run_getattr _ _ _ _ Hs). apply run_setattr. exact Hs.
Qed.

Lemma run_set_top (s : State F) (self : N) (b : box.t F) (v : F) :
  boxes s !! self = Some b ->
  run (SpriteBox.set_top self v) s =
  (Ok tt, set_boxes <[self := box.set_y (num_add v (num_div (box._h b) SpriteBox.two)) b]> s).
Proof.
  intros Hs. unfold SpriteBox.set_top.
  rewrite run_bind, (run_getattr _ _ _ _ Hs). apply run_setattr. exact Hs.
Qed.

Lemma run_set_bottom (s : State F) (self : N) (b : box.t F) (v : F) :
  boxes s !! self = Some b ->
  run (SpriteBox.set_bottom self v) s =
  (Ok tt, set_boxes <[self := box.set_y (num_sub v (num_div (box._h b) SpriteBox.two)) b]> s).
Proof.
  intros Hs. unfold SpriteBox.set_bottom.
  rewrite run_bind, (run_getattr _ _ _ _ Hs). apply run_setattr. exact Hs.
Qed.

Lemma lookup_set_boxes (s : State F) (self : N) (b : box.t F) :
  boxes (set_boxes <[self := b]> s) !! self = Some b.
Proof. rewrite boxes_set_boxes. apply lookup_insert_eq. Qed.
End more_edges.

Section exact_edges.
Context {F : Type} `{ExactNum F}.
Local Open Scope Q_scope.

Lemma reads_edges_of (s' : State F) (self : N) (b' : box.t F) (l r t b : Q) :
  boxes s' !! self = Some b' ->
  toQ (box.x b') - toQ (box._w b') / 2 == l ->
  toQ (box.x b') + toQ (box._w b') / 2 == r ->
  toQ (box.y b') - toQ (box._h b') / 2 == t ->
  toQ (box.y b') + toQ (box._h b') / 2 == b ->
  reads_edges s' self l r t b.
Proof.
  intros Hs El Er Et Eb.
  exists (box_left b'), (box_right b'), (box_top b'), (box_bottom b').
  rewrite (run_left _ _ _ Hs), (run_right _ _ _ Hs), (run_top _ _ _ Hs),
    (run_bottom _ _ _ Hs).
  rewrite toQ_box_left, toQ_box_right, toQ_box_top, toQ_box_bottom.
  repeat split; assumption.
Qed.

(** X1: in arithmetic without rounding, an assignment to an edge of a box
    puts that edge where it was told and keeps the size: after
    [box.left = v] the left edge reads [v] and the right edge [v + width],
    with top and bottom as before, and likewise for [right], [top] and
    [bottom]. *)
Theorem set_edge_reads_back (s : State F) (self : N) (b : box.t F) (v : F) :
  boxes s !! self = Some b ->
  let x := toQ (box.x b) in
  let y := toQ (box.y b) in
  let w := toQ (box._w b) in
  let h := toQ (box._h b) in
  let after (set : N -> F -> M (State F) unit) : State F := snd (run (set self v) s) in
  reads_edges (after SpriteBox.set_left) self (toQ v) (toQ v + w) (y - h / 2) (y + h / 2) /\
  reads_edges (after SpriteBox.set_right) self (toQ v - w) (toQ v) (y - h / 2) (y + h / 2) /\
  reads_edges (after SpriteBox.set_top) self (x - w / 2) (x + w / 2) (toQ v) (toQ v + h) /\
  reads_edges (after SpriteBox.set_bottom) self (x - w / 2) (x + w / 2) (toQ v - h) (toQ v).
Proof.
  intros Hs x y w h after. subst after. cbv beta.
  rewrite (run_set_left _ _ _ _ Hs), (run_set_right _ _ _ _ Hs),
    (run_set_top _ _ _ _ Hs), (run_set_bottom _ _ _ _ Hs). cbn [snd].
  repeat split.
  - eapply reads_edges_of; [apply lookup_set_boxes|..]; cbn [box.x box.y box._w box._h box.set_x];
      rewrite ?toQ_add, ?toQ_sub, ?toQ_halved; subst x y w h; field.
  - eapply reads_edges_of; [apply lookup_set_boxes|..]; cbn [box.x box.y box._w box._h box.set_x];
      rewrite ?toQ_add, ?toQ_sub, ?toQ_halved; subst x y w h; field.
  - eapply reads_edges_of; [apply lookup_set_boxes|..]; cbn [box.x box.y box._w box._h box.set_y];
      rewrite ?toQ_add, ?toQ_sub, ?toQ_halved; subst x y w h; field.
  - eapply reads_edges_of; [apply lookup_set_boxes|..]; cbn [box.x box.y box._w box._h box.set_y];
      rewrite ?toQ_add, ?toQ_sub, ?toQ_halved; subst x y w h; field.
Qed.
End exact_edges.

Section exact_containment.
Context {F : Type} `{ExactNum F} `{!PyAbs F} `{!ExactAbs F}.
Local Open Scope Q_scope.

(** [abs(p - c) * 2 < d] says that [p] lies strictly between [c - d/2] and
    [c + d/2]. *)
Lemma within_iff (p c d : F) :
  num_ltb (num_mul (num_abs (num_sub p c)) SpriteBox.two) d = true <->
  toQ c - toQ d / 2 < toQ p /\ toQ p < toQ c + toQ d / 2.
Proof.
  rewrite ltb_iff, toQ_mul, toQ_abs, toQ_sub, toQ_two.
  assert (E : forall a, a * 2 < toQ d <-> a < toQ d / 2)
    by (intros a; unfold Qdiv; change (/ 2) with (1 # 2); split; intros; lra).
  rewrite E, Qabs_Qlt_condition. split; intros [? ?]; split; lra.
Qed.

Lemma contains_in_box (s : State F) (self : N) (b : box.t F) (x y : F) :
  boxes s !! self = Some b ->
  exists inside : bool,
    run (SpriteBox.contains self x y) s = (Ok inside, s) /\
    (inside = true <->
     toQ (box_left b) < toQ x /\ toQ x < toQ (box_right b) /\
     toQ (box_top b) < toQ y /\ toQ y < toQ (box_bottom b)).
Proof.
  intros Hs. unfold SpriteBox.contains.
  rewrite run_bind, (run_getattr _ _ _ _ Hs), run_bind, (run_getattr _ _ _ _ Hs).
  pose proof (within_iff x (box.x b) (box._w b)) as Wx.
  pose proof (within_iff y (box.y b) (box._h b)) as Wy.
  pose proof (toQ_box_left b) as El. pose proof (toQ_box_right b) as Er.
  pose proof (toQ_box_top b) as Et. pose proof (toQ_box_bottom b) as Eb.
  destruct (num_ltb (num_mul (num_abs (num_sub x (box.x b))) SpriteBox.two) (box._w b)).
  - rewrite run_bind, (run_getattr _ _ _ _ Hs), run_bind, (run_getattr _ _ _ _ Hs).
    cbn [run ret]. eexists. split; [reflexivity|].
    rewrite Wy, El, Er, Et, Eb. tauto.
  - cbn [run ret]. eexists. split; [reflexivity|].
    rewrite El, Er. split; [discriminate|]. intros (Hl & Hr & _).
    apply Wx. split; assumption.
Qed.

(** X2: in arithmetic without rounding, [contains(x, y)] holds exactly for
    the points strictly inside the box: strictly between its left and right
    edges and strictly between its top and bottom edges.  A point on an edge
    is not contained.  The call changes nothing, and the overload for a
    sequence of two coordinates gives the same answer. *)
Theorem contains_strictly_inside (s : State F) (self : N) (b : box.t F) (x y : F) :
  boxes s !! self = Some b ->
  exists inside : bool,
    run (SpriteBox.contains self x y) s = (Ok inside, s) /\
    (inside = true <->
     toQ (box_left b) < toQ x /\ toQ x < toQ (box_right b) /\
     toQ (box_top b) < toQ y /\ toQ y < toQ (box_bottom b)) /\
    run (SpriteBox.contains_sequence self x y []) s = (Ok inside, s).
Proof.
  intros Hs. destruct (contains_in_box s self b x y Hs) as (inside & Hrun & Hin).
  exists inside. split; [exact Hrun|]. split; [exact Hin|]. exact Hrun.
Qed.
End exact_containment.

Section which_edge.
Context {F : Type} `{PyNum F}.

(** The four predicates look at the overlap computed with one more pixel of
    padding on each axis. *)
Lemma run_edge_touches (s : State F) (self other : N) (bs bo : box.t F)
    (padding : F) (padding2 : option F) :
  boxes s !! self = Some bs -> boxes s !! other = Some bo ->
  let o := let '(l, r, t, b) :=
             box_gaps bs bo (num_add padding SpriteBox.one)
               (num_add (default padding padding2) SpriteBox.one) in
           SpriteBox.overlap_of l r t b in
  run (SpriteBox.bottom_touches self other padding padding2) s =
    (Ok (num_ltb (snd o) SpriteBox.zero), s) /\
  run (SpriteBox.top_touches self other padding padding2) s =
    (Ok (num_ltb SpriteBox.zero (snd o)), s) /\
  run (SpriteBox.left_touches self other padding padding2) s =
    (Ok (num_ltb SpriteBox.zero (fst o)), s) /\
  run (SpriteBox.right_touches self other padding padding2) s =
    (Ok (num_ltb (fst o) SpriteBox.zero), s).
Proof.
  intros Hs Ho o.
  unfold SpriteBox.bottom_touches, SpriteBox.top_touches, SpriteBox.left_touches,
    SpriteBox.right_touches.
  rewrite !run_bind, (run_overlap _ _ _ _ _ _ _ Hs Ho). cbn [default].
  fold o. repeat split; reflexivity.
Qed.
End which_edge.

Section exact_which_edge.
Context {F : Type} `{ExactNum F}.
Local Open Scope Q_scope.

Lemma toQ_box_gaps (bs bo : box.t F) (padding padding2 : F) :
  let '(l, r, t, b) := box_gaps bs bo padding padding2 in
  toQ l == toQ (box_left bo) - toQ (box_right bs) - toQ padding /\
  toQ r == toQ (box_left bs) - toQ (box_right bo) - toQ padding /\
  toQ t == toQ (box_top bo) - toQ (box_bottom bs) - toQ padding2 /\
  toQ b == toQ (box_top bs) - toQ (box_bottom bo) - toQ padding2.
Proof. unfold box_gaps. rewrite !toQ_sub. repeat split; reflexivity. Qed.

(** One more pixel of padding lowers the largest gap by one. *)
Lemma toQ_max4_padded (bs bo : box.t F) (padding padding2 : F) :
  let '(l, r, t, b) := box_gaps bs bo padding padding2 in
  let '(l1, r1, t1, b1) :=
    box_gaps bs bo (num_add padding SpriteBox.one) (num_add padding2 SpriteBox.one) in
  toQ (py_max4 l1 r1 t1 b1) == toQ (py_max4 l r t b) - 1.
Proof.
  pose proof (toQ_box_gaps bs bo padding padding2) as G.
  pose proof (toQ_box_gaps bs bo (num_add padding SpriteBox.one)
                (num_add padding2 SpriteBox.one)) as G1.
  destruct (box_gaps bs bo padding padding2) as [[[l r] t] b].
  destruct (box_gaps bs bo (num_add padding SpriteBox.one)
              (num_add padding2 SpriteBox.one)) as [[[l1 r1] t1] b1].
  destruct G as (El & Er & Et & Eb). destruct G1 as (El1 & Er1 & Et1 & Eb1).
  rewrite !toQ_add, toQ_one in *.
  destruct (toQ_max4_ge l r t b) as (Gl & Gr & Gt & Gb).
  apply toQ_max4_is; try lra.
  destruct (py_max4_is_argument l r t b) as [E|[E|[E|E]]]; rewrite E in *; lra.
Qed.

(** X3: in arithmetic without rounding, of [bottom_touches], [top_touches],
    [left_touches] and [right_touches] exactly one holds when the largest of
    the four gaps between the boxes is below one pixel, and none holds
    otherwise; so exactly one holds whenever [touches] does, and the edge it
    names is the one whose gap is the largest. *)
Theorem one_edge_touches (s : State F) (self other : N) (bs bo : box.t F)
    (padding : F) (padding2 : option F) :
  boxes s !! self = Some bs -> boxes s !! other = Some bo ->
  let '(l, r, t, b) := box_gaps bs bo padding (default padding padding2) in
  let m := toQ (py_max4 l r t b) in
  exists bottom top left right touching : bool,
    run (SpriteBox.bottom_touches self other padding padding2) s = (Ok bottom, s) /\
    run (SpriteBox.top_touches self other padding padding2) s = (Ok top, s) /\
    run (SpriteBox.left_touches self other padding padding2) s = (Ok left, s) /\
    run (SpriteBox.right_touches self other padding padding2) s = (Ok right, s) /\
    run (SpriteBox.touches self other padding padding2) s = (Ok touching, s) /\
    (m < 1 -> (Nat.b2n bottom + Nat.b2n top + Nat.b2n left + Nat.b2n right = 1)%nat) /\
    (1 <= m -> bottom = false /\ top = false /\ left = false /\ right = false) /\
    (touching = true ->
     (Nat.b2n bottom + Nat.b2n top + Nat.b2n left + Nat.b2n right = 1)%nat) /\
    (right = true -> toQ l == m) /\ (left = true -> toQ r == m) /\
    (bottom = true -> toQ t == m) /\ (top = true -> toQ b == m).
Proof.
  intros Hs Ho.
  destruct (run_edge_touches s self other bs bo padding padding2 Hs Ho)
    as (Rb & Rt & Rl & Rr).
  pose proof (run_touches s self other bs bo padding padding2 Hs Ho) as Rtouch.
  pose proof (toQ_max4_padded bs bo padding (default padding padding2)) as Hpad.
  pose proof (toQ_box_gaps bs bo padding (default padding padding2)) as G.
  pose proof (toQ_box_gaps bs bo (num_add padding SpriteBox.one)
                (num_add (default padding padding2) SpriteBox.one)) as G1.
  destruct (box_gaps bs bo padding (default padding padding2)) as [[[l r] t] b].
  destruct (box_gaps bs bo (num_add padding SpriteBox.one)
              (num_add (default padding padding2) SpriteBox.one)) as [[[l1 r1] t1] b1].
  destruct G as (El & Er & Et & Eb). destruct G1 as (El1 & Er1 & Et1 & Eb1).
  rewrite !toQ_add, toQ_one in *.
  cbv zeta.
  do 5 eexists.
  split; [exact Rb|]. split; [exact Rt|]. split; [exact Rl|]. split; [exact Rr|].
  split; [exact Rtouch|]. clear Rb Rt Rl Rr Rtouch.
  pose proof toQ_zero as Z0. pose proof ltb_zero_zero as Z00.
  destruct (overlap_of_cases l1 r1 t1 b1) as [Hnone Hsome].
  set (m := toQ (py_max4 l r t b)) in *.
  set (m1 := toQ (py_max4 l1 r1 t1 b1)) in *.
  destruct (Qlt_le_dec m 1) as [Hlt|Hge].
  - (* one edge touches *)
    assert (Hm1 : m1 < 0) by lra.
    assert (Htouch : num_leb (py_max4 l r t b) SpriteBox.zero = true ->
                     m < 1) by (intros _; exact Hlt).
    destruct (Hsome Hm1) as [[-> E]|[[-> E]|[[-> E]|[-> E]]]]; cbn [fst snd];
      rewrite ?Z00.
    + rewrite (ltb_true l1 SpriteBox.zero) by lra.
      rewrite (ltb_false SpriteBox.zero l1) by lra.
      repeat split; try reflexivity; try discriminate; try lra; intros; lra.
    + rewrite (ltb_false (num_neg r1) SpriteBox.zero) by (rewrite toQ_neg; lra).
      rewrite (ltb_true SpriteBox.zero (num_neg r1)) by (rewrite toQ_neg; lra).
      repeat split; try reflexivity; try discriminate; try lra; intros; lra.
    + rewrite (ltb_true t1 SpriteBox.zero) by lra.
      rewrite (ltb_false SpriteBox.zero t1) by lra.
      repeat split; try reflexivity; try discriminate; try lra; intros; lra.
    + rewrite (ltb_false (num_neg b1) SpriteBox.zero) by (rewrite toQ_neg; lra).
      rewrite (ltb_true SpriteBox.zero (num_neg b1)) by (rewrite toQ_neg; lra).
      repeat split; try reflexivity; try discriminate; try lra; intros; lra.
  - (* too far apart *)
    assert (Hm1 : 0 <= m1) by lra.
    rewrite (Hnone Hm1). cbn [fst snd]. rewrite Z00.
    assert (Hno : num_leb (py_max4 l r t b) SpriteBox.zero = false).
    { destruct (num_leb (py_max4 l r t b) SpriteBox.zero) eqn:E; [|reflexivity].
      apply leb_iff in E. fold m in E. lra. }
    rewrite Hno.
    repeat split; try reflexivity; try discriminate; intros; lra.
Qed.

(** X4: in arithmetic without rounding, [touches] is symmetric: with the
    same paddings, [b1.touches(b2)] and [b2.touches(b1)] give the same
    answer. *)
Theorem touches_symmetric (s : State F) (self other : N) (bs bo : box.t F)
    (padding : F) (padding2 : option F) :
  boxes s !! self = Some bs -> boxes s !! other = Some bo ->
  run (SpriteBox.touches self other padding padding2) s =
  run (SpriteBox.touches other self padding padding2) s.
Proof.
  intros Hs Ho.
  rewrite (run_touches _ _ _ _ _ _ _ Hs Ho), (run_touches _ _ _ _ _ _ _ Ho Hs).
  unfold box_gaps.
  set (l := num_sub (num_sub (box_left bo) (box_right bs)) padding).
  set (r := num_sub (num_sub (box_left bs) (box_right bo)) padding).
  set (t := num_sub (num_sub (box_top bo) (box_bottom bs)) (default padding padding2)).
  set (b := num_sub (num_sub (box_top bs) (box_bottom bo)) (default padding padding2)).
  f_equal. f_equal. rewrite !toQ_leb.
  assert (E : toQ (py_max4 r l b t) == toQ (py_max4 l r t b)).
  { destruct (toQ_max4_ge l r t b) as (Gl & Gr & Gt & Gb).
    apply toQ_max4_is; try assumption.
    destruct (py_max4_is_argument l r t b) as [E|[E|[E|E]]]; rewrite E; lra. }
  rewrite E. reflexivity.
Qed.
End exact_which_edge.

(** * [move_both_to_stop_overlapping] *)

(** Lookups in a heap after a series of attribute writes. *)
Ltac heap :=
  repeat (rewrite boxes_set_boxes;
          first [ rewrite lookup_insert_eq; reflexivity
                | rewrite lookup_insert_ne by congruence ]);
  first [ eassumption | reflexivity ].

Section move_both.
Context {F : Type} `{PyNum F}.

Lemma run_move_both_to_stop_overlapping (s : State F) (self other : N)
    (bs bo : box.t F) (padding : F) (padding2 : option F) :
  self <> other ->
  boxes s !! self = Some bs -> boxes s !! other = Some bo ->
  let o := let '(l, r, t, b) := box_gaps bs bo padding (default padding padding2) in
           SpriteBox.overlap_of l r t b in
  exists s1,
    run (SpriteBox.move_both_to_stop_overlapping self other padding padding2) s
      = (Ok tt, s1) /\
    world s1 = world s /\
    (forall k, k <> self -> k <> other -> boxes s1 !! k = boxes s !! k) /\
    if SpriteBox.ne_zero_zero o
    then boxes s1 !! self = Some (fst (shared_push o bs bo)) /\
         boxes s1 !! other = Some (snd (shared_push o bs bo))
    else s1 = s.
Proof.
  intros Hne Hs Ho o. unfold SpriteBox.move_both_to_stop_overlapping.
  rewrite run_bind, (run_overlap _ _ _ _ _ _ _ Hs Ho). fold o.
  destruct (SpriteBox.ne_zero_zero o).
  2:{ exists s. cbn [run ret]. repeat split; reflexivity. }
  unfold shared_push.
  rewrite run_bind, (run_move _ _ _ _ _ Hs).
  rewrite run_bind. erewrite run_move by heap.
  rewrite run_bind.
  destruct (negb (num_eqb (fst o) SpriteBox.zero)).
  - rewrite run_bind. erewrite run_getattr by heap.
    rewrite run_bind. erewrite run_getattr by heap.
    rewrite run_bind. erewrite run_setattr by heap.
    rewrite run_bind. erewrite run_getattr by heap.
    erewrite run_setattr by heap.
    destruct (negb (num_eqb (snd o) SpriteBox.zero)).
    + rewrite run_bind. erewrite run_getattr by heap.
      rewrite run_bind. erewrite run_getattr by heap.
      rewrite run_bind. erewrite run_setattr by heap.
      rewrite run_bind. erewrite run_getattr by heap.
      erewrite run_setattr by heap.
      eexists. split; [reflexivity|]. split; [reflexivity|].
      split; [intros k Hk1 Hk2; heap|]. cbn [fst snd]. split; heap.
    + cbn [run ret].
      eexists. split; [reflexivity|]. split; [reflexivity|].
      split; [intros k Hk1 Hk2; heap|]. cbn [fst snd]. split; heap.
  - cbn [run ret].
    destruct (negb (num_eqb (snd o) SpriteBox.zero)).
    + rewrite run_bind. erewrite run_getattr by heap.
      rewrite run_bind. erewrite run_getattr by heap.
      rewrite run_bind. erewrite run_setattr by heap.
      rewrite run_bind. erewrite run_getattr by heap.
      erewrite run_setattr by heap.
      eexists. split; [reflexivity|]. split; [reflexivity|].
      split; [intros k Hk1 Hk2; heap|]. cbn [fst snd]. split; heap.
    + cbn [run ret].
      eexists. split; [reflexivity|]. split; [reflexivity|].
      split; [intros k Hk1 Hk2; heap|]. cbn [fst snd]. split; heap.
Qed.

Lemma shared_push_geometry (o : F * F) (bs bo : box.t F) :
  geometry (fst (shared_push o bs bo)) =
    (num_add (box.x bs) (num_div (fst o) SpriteBox.two),
     num_add (box.y bs) (num_div (snd o) SpriteBox.two), box._w bs, box._h bs) /\
  geometry (snd (shared_push o bs bo)) =
    (num_add (box.x bo) (num_div (num_neg (fst o)) SpriteBox.two),
     num_add (box.y bo) (num_div (num_neg (snd o)) SpriteBox.two), box._w bo, box._h bo).
Proof.
  unfold shared_push.
  destruct (negb (num_eqb (fst o) SpriteBox.zero));
    destruct (negb (num_eqb (snd o) SpriteBox.zero)); split; reflexivity.
Qed.
End move_both.

Section exact_move_both.
Context {F : Type} `{ExactNum F}.
Local Open Scope Q_scope.

(** Once both boxes have been moved by half the push, one of the four gaps
    is closed exactly. *)
Lemma overlap_after_shared_push (bs bo bs' bo' : box.t F) (padding padding2 : F) :
  let '(l, r, t, b) := box_gaps bs bo padding padding2 in
  let o := SpriteBox.overlap_of l r t b in
  geometry bs' =
    (num_add (box.x bs) (num_div (fst o) SpriteBox.two),
     num_add (box.y bs) (num_div (snd o) SpriteBox.two), box._w bs, box._h bs) ->
  geometry bo' =
    (num_add (box.x bo) (num_div (num_neg (fst o)) SpriteBox.two),
     num_add (box.y bo) (num_div (num_neg (snd o)) SpriteBox.two), box._w bo, box._h bo) ->
  let '(l', r', t', b') := box_gaps bs' bo' padding padding2 in
  SpriteBox.overlap_of l' r' t' b' = (SpriteBox.zero, SpriteBox.zero).
Proof.
  pose proof (toQ_box_gaps bs bo padding padding2) as G.
  pose proof (toQ_box_gaps bs' bo' padding padding2) as G'.
  destruct (box_gaps bs bo padding padding2) as [[[l r] t] b].
  destruct (box_gaps bs' bo' padding padding2) as [[[l' r'] t'] b'].
  cbv zeta. unfold geometry. intros Hs Ho.
  injection Hs as Hsx Hsy Hsw Hsh. injection Ho as Hox Hoy How Hoh.
  destruct G as (El & Er & Et & Eb). destruct G' as (El' & Er' & Et' & Eb').
  rewrite toQ_box_left, toQ_box_right, toQ_box_top, toQ_box_bottom in *.
  rewrite Hsx, Hsy, Hsw, Hsh, Hox, Hoy, How, Hoh in *.
  rewrite !toQ_add, !toQ_halved, !toQ_neg in *.
  unfold Qdiv in *. change (/ 2) with (1 # 2) in *.
  destruct (toQ_max4_ge l' r' t' b') as (Gl & Gr & Gt & Gb).
  destruct (toQ_max4_ge l r t b) as (Hl & Hr & Ht & Hb).
  pose proof toQ_zero as Z0.
  destruct (overlap_of_cases l' r' t' b') as [Hnone _]. apply Hnone.
  destruct (overlap_of_cases l r t b) as [Hzero Hpush].
  set (o := SpriteBox.overlap_of l r t b) in *.
  set (m := toQ (py_max4 l r t b)) in *.
  set (m' := toQ (py_max4 l' r' t' b')) in *.
  destruct (Qlt_le_dec m 0) as [Hlt|Hge].
  - destruct (Hpush Hlt) as [[Eo E]|[[Eo E]|[[Eo E]|[Eo E]]]]; rewrite Eo in *;
      cbn [fst snd] in *; rewrite ?toQ_neg in *; lra.
  - rewrite (Hzero Hge) in *. cbn [fst snd] in *.
    destruct (py_max4_is_argument l r t b) as [E|[E|[E|E]]]; unfold m in Hge;
      rewrite E in Hge; lra.
Qed.

(** X5: in arithmetic without rounding, [move_both_to_stop_overlapping]
    on two different boxes moves [self] by half of the overlap and [other] by
    half of it the other way, keeps both sizes, and leaves the pair with
    overlap (0, 0); along an axis on which it moved them both boxes get the
    mean of their two speeds, and along the other axis the speeds stay. *)
Theorem move_both_to_stop_overlapping_separates (s : State F) (self other : N)
    (bs bo : box.t F) (padding : F) (padding2 : option F) :
  self <> other ->
  boxes s !! self = Some bs -> boxes s !! other = Some bo ->
  let o := let '(l, r, t, b) := box_gaps bs bo padding (default padding padding2) in
           SpriteBox.overlap_of l r t b in
  exists s1 bs1 bo1,
    run (SpriteBox.move_both_to_stop_overlapping self other padding padding2) s
      = (Ok tt, s1) /\
    boxes s1 !! self = Some bs1 /\ boxes s1 !! other = Some bo1 /\
    run (SpriteBox.overlap self other padding padding2) s1
      = (Ok (SpriteBox.zero, SpriteBox.zero), s1) /\
    (toQ (box.x bs1) == toQ (box.x bs) + toQ (fst o) / 2 /\
     toQ (box.y bs1) == toQ (box.y bs) + toQ (snd o) / 2 /\
     toQ (box.x bo1) == toQ (box.x bo) - toQ (fst o) / 2 /\
     toQ (box.y bo1) == toQ (box.y bo) - toQ (snd o) / 2) /\
    (box._w bs1 = box._w bs /\ box._h bs1 = box._h bs /\
     box._w bo1 = box._w bo /\ box._h bo1 = box._h bo) /\
    (~ toQ (fst o) == 0 ->
     toQ (box.speedx bs1) == (toQ (box.speedx bs) + toQ (box.speedx bo)) / 2 /\
     box.speedx bo1 = box.speedx bs1) /\
    (toQ (fst o) == 0 ->
     box.speedx bs1 = box.speedx bs /\ box.speedx bo1 = box.speedx bo) /\
    (~ toQ (snd o) == 0 ->
     toQ (box.speedy bs1) == (toQ (box.speedy bs) + toQ (box.speedy bo)) / 2 /\
     box.speedy bo1 = box.speedy bs1) /\
    (toQ (snd o) == 0 ->
     box.speedy bs1 = box.speedy bs /\ box.speedy bo1 = box.speedy bo).
Proof.
  intros Hne Hs Ho o.
  destruct (run_move_both_to_stop_overlapping s self other bs bo padding padding2
              Hne Hs Ho) as (s1 & Hrun & _ & _ & Hcase).
  fold o in Hcase.
  pose proof (overlap_after_shared_push bs bo (fst (shared_push o bs bo))
                (snd (shared_push o bs bo)) padding (default padding padding2)) as Hsep.
  pose proof (shared_push_geometry o bs bo) as [Gs Go].
  pose proof toQ_zero as Z0.
  assert (Hox : num_eqb (fst o) SpriteBox.zero = true <-> toQ (fst o) == 0)
    by (rewrite eqb_iff, Z0; reflexivity).
  assert (Hoy : num_eqb (snd o) SpriteBox.zero = true <-> toQ (snd o) == 0)
    by (rewrite eqb_iff, Z0; reflexivity).
  destruct (SpriteBox.ne_zero_zero o) eqn:Hnz.
  - destruct Hcase as [Hs1 Ho1].
    exists s1, (fst (shared_push o bs bo)), (snd (shared_push o bs bo)).
    split; [exact Hrun|]. split; [exact Hs1|]. split; [exact Ho1|].
    split.
    { rewrite (run_overlap _ _ _ _ _ _ _ Hs1 Ho1).
      subst o. destruct (box_gaps bs bo padding (default padding padding2))
        as [[[l r] t] b].
      specialize (Hsep Gs Go).
      destruct (box_gaps _ _ padding (default padding padding2)) as [[[l' r'] t'] b'].
      rewrite Hsep. reflexivity. }
    unfold geometry in Gs, Go.
    injection Gs as Gsx Gsy Gsw Gsh. injection Go as Gox Goy Gow Goh.
    split.
    { rewrite Gsx, Gsy, Gox, Goy, !toQ_add, !toQ_halved, !toQ_neg.
      repeat split; field. }
    split; [repeat split; assumption|].
    clear Hsep Hs1 Ho1 Hrun Gsx Gsy Gsw Gsh Gox Goy Gow Goh.
    unfold shared_push.
    destruct (num_eqb (fst o) SpriteBox.zero) eqn:Ex;
      destruct (num_eqb (snd o) SpriteBox.zero) eqn:Ey; cbn [negb fst snd];
      cbn [box.speedx box.speedy box.set_speedx box.set_speedy translated];
      rewrite ?toQ_halved, ?toQ_add;
      (split; [intros Hn|split; [intros Hz|split; [intros Hn|intros Hz]]]);
      try (exfalso; apply Hn; apply Hox; reflexivity);
      try (exfalso; apply Hn; apply Hoy; reflexivity);
      try (apply Hox in Hz; discriminate);
      try (apply Hoy in Hz; discriminate);
      split; reflexivity.
  - subst s1. exists s, bs, bo.
    split; [exact Hrun|]. split; [exact Hs|]. split; [exact Ho|].
    assert (Hzero : o = (SpriteBox.zero, SpriteBox.zero)).
    { subst o. destruct (box_gaps bs bo padding (default padding padding2))
        as [[[l r] t] b].
      destruct (overlap_of_zero_or_push l r t b) as [E|E]; [exact E|congruence]. }
    split.
    { rewrite (run_overlap _ _ _ _ _ _ _ Hs Ho). fold o. rewrite Hzero. reflexivity. }
    rewrite Hzero. cbn [fst snd]. rewrite Z0.
    split; [repeat split; field|].
    split; [repeat split; reflexivity|].
    split; [intros Hn; exfalso; apply Hn; reflexivity|].
    split; [intros _; split; reflexivity|].
    split; [intros Hn; exfalso; apply Hn; reflexivity|].
    intros _; split; reflexivity.
Qed.
End exact_move_both.

(** * The size of a colour box *)

Section color_box_size.
Context {F : Type} `{PyNum F} `{Externals}.

Lemma run_scale_by_flat (s : State F) (self : N) (b : box.t F) (multiplier : F) :
  boxes s !! self = Some b -> box._key b = None ->
  run (SpriteBox.scale_by self multiplier) s =
  (Ok tt, set_boxes <[self := box.set_h (num_mul (box._h b) multiplier)
                               (box.set_w (num_mul (box._w b) multiplier) b)]> s).
Proof.
  intros Hs Hk. unfold SpriteBox.scale_by.
  rewrite run_bind, (run_getattr _ _ _ _ Hs), Hk.
  rewrite run_bind, (run_getattr _ _ _ _ Hs).
  rewrite run_bind, (run_setattr _ _ _ _ Hs).
  rewrite run_bind. erewrite run_getattr by apply lookup_set_boxes.
  erewrite run_setattr by apply lookup_set_boxes.
  rewrite set_boxes_twice. reflexivity.
Qed.

Lemma run_py_div (a b : F) (s : State F) :
  run (py_div a b) s =
  if num_eqb b (num_of_Z 0) then (Raise ZeroDivisionError, s) else (Ok (num_div a b), s).
Proof. unfold py_div. destruct (num_eqb b (num_of_Z 0)); reflexivity. Qed.

Lemma run_set_width (s : State F) (self : N) (b : box.t F) (value : F) :
  boxes s !! self = Some b ->
  run (SpriteBox.set_width self value) s =
  if num_eqb (box._w b) (num_of_Z 0) then (Raise ZeroDivisionError, s)
  else run (SpriteBox.scale_by self (num_div value (box._w b))) s.
Proof.
  intros Hs. unfold SpriteBox.set_width.
  rewrite run_bind, (run_getattr _ _ _ _ Hs), run_bind, run_py_div.
  destruct (num_eqb (box._w b) (num_of_Z 0)); reflexivity.
Qed.

Lemma run_set_height (s : State F) (self : N) (b : box.t F) (value : F) :
  boxes s !! self = Some b ->
  run (SpriteBox.set_height self value) s =
  if num_eqb (box._h b) (num_of_Z 0) then (Raise ZeroDivisionError, s)
  else run (SpriteBox.scale_by self (num_div value (box._h b))) s.
Proof.
  intros Hs. unfold SpriteBox.set_height.
  rewrite run_bind, (run_getattr _ _ _ _ Hs), run_bind, run_py_div.
  destruct (num_eqb (box._h b) (num_of_Z 0)); reflexivity.
Qed.
End color_box_size.

Section exact_color_box_size.
Context {F : Type} `{ExactNum F} `{Externals}.
Local Open Scope Q_scope.

(** X6: on a colour box, in arithmetic without rounding, [box.width = v]
    makes the width [v] and scales the height by the same factor, so the
    proportions are kept, and [box.height = v] does the same from the
    height; position, speed and colour stay.  When the side that is assigned
    is 0 the assignment raises [ZeroDivisionError] and changes nothing. *)
Theorem set_width_keeps_proportions (s : State F) (self : N) (b : box.t F) (v : F) :
  boxes s !! self = Some b -> box._key b = None ->
  let scaled (b' : box.t F) (factor : Q) : Prop :=
    toQ (box._w b') == toQ (box._w b) * factor /\
    toQ (box._h b') == toQ (box._h b) * factor /\
    box.x b' = box.x b /\ box.y b' = box.y b /\
    box.speedx b' = box.speedx b /\ box.speedy b' = box.speedy b /\
    box._key b' = None /\ box._image b' = box._image b /\ box._color b' = box._color b in
  (toQ (box._w b) == 0 ->
   run (SpriteBox.set_width self v) s = (Raise ZeroDivisionError, s)) /\
  (~ toQ (box._w b) == 0 ->
   exists b', run (SpriteBox.set_width self v) s = (Ok tt, set_boxes <[self := b']> s) /\
              toQ (box._w b') == toQ v /\ scaled b' (toQ v / toQ (box._w b))) /\
  (toQ (box._h b) == 0 ->
   run (SpriteBox.set_height self v) s = (Raise ZeroDivisionError, s)) /\
  (~ toQ (box._h b) == 0 ->
   exists b', run (SpriteBox.set_height self v) s = (Ok tt, set_boxes <[self := b']> s) /\
              toQ (box._h b') == toQ v /\ scaled b' (toQ v / toQ (box._h b))).
Proof.
  intros Hs Hk scaled.
  assert (Hzero : forall d : F, num_eqb d (num_of_Z 0) = true <-> toQ d == 0).
  { intros d. rewrite eqb_iff, toQ_of_Z. reflexivity. }
  rewrite (run_set_width _ _ _ _ Hs), (run_set_height _ _ _ _ Hs).
  split; [|split; [|split]].
  - intros Hw. apply Hzero in Hw. rewrite Hw. reflexivity.
  - intros Hw. destruct (num_eqb (box._w b) (num_of_Z 0)) eqn:E;
      [exfalso; apply Hw, Hzero; exact E|].
    rewrite (run_scale_by_flat _ _ _ _ Hs Hk). eexists. split; [reflexivity|].
    subst scaled. cbn [box._w box._h box.x box.y box.speedx box.speedy box._key
                        box._image box._color box.set_w box.set_h].
    rewrite !toQ_mul, (toQ_div _ _ Hw).
    split; [field; exact Hw|]. repeat split; try reflexivity; assumption.
  - intros Hh. apply Hzero in Hh. rewrite Hh. reflexivity.
  - intros Hh. destruct (num_eqb (box._h b) (num_of_Z 0)) eqn:E;
      [exfalso; apply Hh, Hzero; exact E|].
    rewrite (run_scale_by_flat _ _ _ _ Hs Hk). eexists. split; [reflexivity|].
    subst scaled. cbn [box._w box._h box.x box.y box.speedx box.speedy box._key
                        box._image box._color box.set_w box.set_h].
    rewrite !toQ_mul, (toQ_div _ _ Hh).
    split; [field; exact Hh|]. repeat split; try reflexivity; assumption.
Qed.
End exact_color_box_size.

(** * What a failed or an idle call leaves *)

Section atomic.
Context {F : Type} `{PyNum F} `{Externals}.
Import _ImageCache.





End atomic.

(** * Boxes made from a surface, and copies *)

Section shown.
Context {F : Type} `{PyNum F} `{Externals}.
Import _ImageCache.

(** [_set_key] for an unrotated image the cache holds, asked at its natural
    size or at the size it has: no image is made, the box shows the cached
    object. *)
Lemma set_key_rest_shows_cached self key flip width height angle
    (s : State F) b v wz hz az :
  boxes s !! self = Some b ->
  num_int (num_add width SpriteBox.half) = Ok wz ->
  num_int (num_add height SpriteBox.half) = Ok hz ->
  num_int angle = Ok az -> az mod 360 = 0 ->
  _known_images (world s) !! (key, flip, wz, hz, 0) = Some v ->
  (wz = 0 /\ hz = 0) \/ (wz = get_width v /\ hz = get_height v) ->
  exists s',
    run (set_key_rest self key flip width height angle) s = (Ok tt, s') /\
    world s' = set_known_images <[(key, flip, get_width v, get_height v, 0) := v]> (world s) /\
    boxes s' = <[self := shows b (key, flip, get_width v, get_height v, 0) v]> (boxes s) /\
    next_box s' = next_box s.
Proof.
  intros Hb Hw Hh Ha Hmod Hv Hsize. unfold set_key_rest.
  rewrite run_bind, run_py_int, Hw, run_bind, run_py_int, Hh, run_bind, run_py_int, Ha.
  assert (Hnorm : ((az mod 360) + 360) mod 360 = 0) by (rewrite Hmod; reflexivity).
  rewrite Hnorm.
  rewrite run_bind, run_lift_world.
  rewrite (get_transform_hit_unrotated _ _ _ _ v) by exact Hv. cbn [fst snd].
  set (alias := (key, flip, get_width v, get_height v, 0)).
  set (w1 := if decide (wz = 0 /\ hz = 0) then set_known_images <[alias := v]> (world s)
             else world s).
  assert (Hsame : w1 = set_known_images <[alias := v]> (world s)).
  { subst w1. destruct (decide (wz = 0 /\ hz = 0)) as [_|Hn]; [reflexivity|].
    destruct Hsize as [Hz|[-> ->]]; [contradiction|].
    symmetry. apply put_id. exact Hv. }
  clearbody w1.
  assert (Halias : _known_images w1 !! alias = Some v).
  { rewrite Hsame. cbn [_known_images set_known_images]. apply lookup_insert_eq. }
  assert (Hsz : (if decide (wz = 0 /\ hz = 0) then (get_width v, get_height v) else (wz, hz))
                = (get_width v, get_height v)).
  { destruct (decide (wz = 0 /\ hz = 0)) as [_|Hn]; [reflexivity|].
    destruct Hsize as [Hz|[-> ->]]; [contradiction|reflexivity]. }
  rewrite Hsz. fold alias.
  rewrite run_bind, (run_setattr _ _ _ b) by exact Hb.
  rewrite run_bind, run_lift_world. cbn [world set_boxes set_world].
  subst alias.
  rewrite (get_transform_hit_unrotated _ _ _ _ v) by exact Halias. cbn [fst snd].
  assert (Hw2 : (if decide (get_width v = 0 /\ get_height v = 0)
                 then set_known_images <[(key, flip, get_width v, get_height v, 0) := v]> w1
                 else w1) = w1).
  { destruct (decide (get_width v = 0 /\ get_height v = 0)); [|reflexivity].
    apply put_id. exact Halias. }
  rewrite Hw2. cbv beta.
  rewrite run_bind. erewrite run_setattr by (cbn; apply lookup_insert_eq).
  rewrite run_bind. erewrite run_setattr by (cbn; apply lookup_insert_eq).
  rewrite run_bind. erewrite run_setattr by (cbn; apply lookup_insert_eq).
  erewrite run_setattr by (cbn; apply lookup_insert_eq).
  eexists. split; [reflexivity|]. cbn [world boxes next_box set_boxes set_world].
  split; [exact Hsame|]. split; [|reflexivity].
  rewrite !insert_insert_eq. reflexivity.
Qed.

(** Registering a surface that is registered changes nothing. *)
Lemma register_registered surface (w : World) :
  _known_images w !! _ImageKey_of (surface_key surface) = Some surface ->
  set_known_images <[natural_key surface := surface]> w = register surface w.
Proof.
  intros Hk. unfold register, set_known_images. f_equal.
  rewrite (insert_id (_known_images w) _ _ Hk). reflexivity.
Qed.

Lemma lookup_register_sentinel surface (w : World) :
  _known_images (register surface w) !! _ImageKey_of (surface_key surface) = Some surface.
Proof.
  unfold register. cbn [_known_images set_known_images].
  destruct (decide (natural_key surface = _ImageKey_of (surface_key surface))) as [E|E].
  - rewrite E. apply lookup_insert_eq.
  - rewrite lookup_insert_ne by exact E. apply lookup_insert_eq.
Qed.

Lemma run_cache_surface surface (w : World) :
  run (cache_surface surface) w =
  (Ok tt, if decide (is_Some (_known_images w !! _ImageKey_of (surface_key surface)))
          then w else register surface w).
Proof.
  unfold cache_surface. cbn [run bind gets].
  destruct (_known_images w !! _ImageKey_of (surface_key surface)) as [v|] eqn:E.
  - cbn [run ret]. destruct (decide _) as [_|Hn]; [reflexivity|].
    exfalso. apply Hn. eauto.
  - cbn [run bind cache_put modify]. destruct (decide _) as [[v Hv]|_]; [discriminate|].
    reflexivity.
Qed.

Lemma register_twice surface (w : World) :
  set_known_images <[natural_key surface := surface]> (register surface w)
  = register surface w.
Proof.
  unfold register, set_known_images. cbn [_known_images next_id files web oplog].
  f_equal. apply insert_insert_eq.
Qed.

(** The same for [_set_key] on a surface: it is registered first, unless it
    already is. *)
Lemma _set_key_shows_surface self surface width height angle
    (s : State F) b az :
  boxes s !! self = Some b ->
  num_int (num_add width SpriteBox.half) = Ok 0 ->
  num_int (num_add height SpriteBox.half) = Ok 0 ->
  num_int angle = Ok az -> az mod 360 = 0 ->
  (forall v, _known_images (world s) !! _ImageKey_of (surface_key surface) = Some v ->
             v = surface) ->
  exists s',
    run (SpriteBox._set_key self (RefSurface surface) false width height angle) s
      = (Ok tt, s') /\
    world s' = register surface (world s) /\
    boxes s' = <[self := shows b (natural_key surface) surface]> (boxes s) /\
    next_box s' = next_box s.
Proof.
  intros Hb Hw Hh Ha Hmod Hid.
  rewrite _set_key_rest. rewrite run_bind, run_bind, run_lift_world, run_cache_surface.
  cbn [fst snd run ret].
  destruct (decide (is_Some (_known_images (world s) !! _ImageKey_of (surface_key surface))))
    as [[v Hv]|_].
  - rewrite (Hid v Hv) in Hv.
    destruct (set_key_rest_shows_cached self (surface_key surface) false width height
                angle (set_world (world s) s) b surface 0 0 az Hb Hw Hh Ha Hmod Hv
                (or_introl (conj eq_refl eq_refl)))
      as (s' & Hrun & Hworld & Hboxes & Hnext).
    exists s'. split; [exact Hrun|]. split; [|split; assumption].
    rewrite Hworld. apply register_registered. exact Hv.
  - pose proof (lookup_register_sentinel surface (world s)) as Hv.
    destruct (set_key_rest_shows_cached self (surface_key surface) false width height
                angle (set_world (register surface (world s)) s) b surface 0 0 az
                Hb Hw Hh Ha Hmod Hv (or_introl (conj eq_refl eq_refl)))
      as (s' & Hrun & Hworld & Hboxes & Hnext).
    exists s'. split; [exact Hrun|]. split; [|split; assumption].
    rewrite Hworld. apply register_twice.
Qed.
End shown.

Section from_surface.
Context {F : Type} `{PyNum F} `{Externals}.
Import _ImageCache.

Lemma register_idem surface (w : World) :
  register surface (register surface w) = register surface w.
Proof.
  rewrite <- (register_registered surface (register surface w))
    by apply lookup_register_sentinel.
  apply register_twice.
Qed.

Lemma shows_shows (b : box.t F) k v k' v' : shows (shows b k v) k' v' = shows b k' v'.
Proof. reflexivity. Qed.

(** [SpriteBox(x, y, surface, None)] when the cache holds nothing else under
    the identity of the surface. *)
Lemma new_shows_surface (s : State F) (x y : F) (surface : Surface) :
  num_int (num_add SpriteBox.zero SpriteBox.half) = Ok 0 ->
  num_int SpriteBox.zero = Ok 0 ->
  (forall v, _known_images (world s) !! _ImageKey_of (surface_key surface) = Some v ->
             v = surface) ->
  exists s',
    run (SpriteBox.new x y (Some (RefSurface surface)) None None None) s
      = (Ok (next_box s), s') /\
    world s' = register surface (world s) /\
    boxes s' =
      <[next_box s :=
          box.mk x y SpriteBox.zero SpriteBox.zero (Some (natural_key surface))
            (Some surface) None (num_of_Z (get_width surface))
            (num_of_Z (get_height surface))]> (boxes s) /\
    next_box s' = N.succ (next_box s).
Proof.
  intros Hhalf Hzero Hid.
  unfold SpriteBox.new. rewrite run_bind. cbn [run SpriteBox.allocate].
  set (b0 := box.mk x y SpriteBox.zero SpriteBox.zero None None None
               SpriteBox.zero SpriteBox.zero).
  set (sa := {| world := _; boxes := _; next_box := _ |}).
  assert (Hb0 : boxes sa !! next_box s = Some b0) by (cbn; apply lookup_insert_eq).
  rewrite run_bind. unfold SpriteBox.__init__. rewrite run_bind.
  destruct (_set_key_shows_surface (next_box s) surface SpriteBox.zero SpriteBox.zero
              SpriteBox.zero sa b0 0 Hb0 Hhalf Hhalf Hzero eq_refl Hid)
    as (s1 & Hrun & Hworld & Hboxes & Hnext).
  rewrite Hrun. cbn [run ret].
  exists s1. split; [reflexivity|]. split; [exact Hworld|].
  split; [|exact Hnext].
  rewrite Hboxes. cbn [boxes sa]. rewrite insert_insert_eq. reflexivity.
Qed.

(** X8: [from_image] on a surface makes no copy and no transformation: the
    new box shows that very object at its own size, with no flip and no
    rotation, under the key of the object's identity; the surface is
    registered in the cache, and nothing is loaded, made or drawn. *)
Theorem from_image_shows_the_surface (s : State F) (x y : F) (surface : Surface) :
  num_int (num_add SpriteBox.zero SpriteBox.half) = Ok 0 ->
  num_int SpriteBox.zero = Ok 0 ->
  (forall v, _known_images (world s) !! _ImageKey_of (surface_key surface) = Some v ->
             v = surface) ->
  exists s',
    run (SpriteBox.from_image x y (RefSurface surface)) s = (Ok (next_box s), s') /\
    world s' = register surface (world s) /\
    boxes s' =
      <[next_box s :=
          box.mk x y SpriteBox.zero SpriteBox.zero (Some (natural_key surface))
            (Some surface) None (num_of_Z (get_width surface))
            (num_of_Z (get_height surface))]> (boxes s) /\
    next_box s' = N.succ (next_box s).
Proof.
  intros Hhalf Hzero Hid. unfold SpriteBox.from_image.
  rewrite run_bind, run_bind, run_lift_world, run_cache_surface. cbn [fst snd run ret].
  set (w1 := if decide _ then world s else register surface (world s)).
  assert (Hw1 : (forall v, _known_images w1 !! _ImageKey_of (surface_key surface) = Some v ->
                           v = surface) /\
                register surface w1 = register surface (world s)).
  { subst w1. destruct (decide _) as [_|_].
    - split; [exact Hid | reflexivity].
    - split; [|apply register_idem].
      intros v. rewrite lookup_register_sentinel. congruence. }
  destruct Hw1 as [Hid1 Hreg]. clearbody w1.
  destruct (new_shows_surface (set_world w1 s) x y surface Hhalf Hzero Hid1)
    as (s1 & Hrun & Hworld & Hboxes & Hnext).
  cbn [world set_world next_box boxes] in Hrun, Hworld, Hboxes, Hnext.
  exists s1. split; [exact Hrun|]. split; [rewrite Hworld; exact Hreg|].
  split; assumption.
Qed.

(** X9: [copy_at] makes a new box at the given place, of the same size,
    with speed zero whatever the speed of the original.  The copy of a
    colour box has the same colour.  The copy of a box that shows an image
    shows the identical surface object, but under the key of that object's
    identity with no flip and angle 0: it does not keep the key of the
    original, and nothing is loaded or transformed.  [copy] is [copy_at] at
    the place of the original. *)
Theorem copy_at_shares_the_image (s : State F) (self : N) (b : box.t F) (newx newy : F) :
  boxes s !! self = Some b ->
  num_int (num_add SpriteBox.zero SpriteBox.half) = Ok 0 ->
  num_int SpriteBox.zero = Ok 0 ->
  (forall c, box._image b = None -> box._color b = Some c ->
     run (SpriteBox.copy_at self newx newy) s =
     (Ok (next_box s),
      {| world := world s;
         boxes := <[next_box s :=
                      box.mk newx newy SpriteBox.zero SpriteBox.zero None None (Some c)
                        (box._w b) (box._h b)]> (boxes s);
         next_box := N.succ (next_box s) |})) /\
  (forall img, box._image b = Some img ->
     box._w b = num_of_Z (get_width img) -> box._h b = num_of_Z (get_height img) ->
     num_int (num_add (num_of_Z (get_width img)) SpriteBox.half) = Ok (get_width img) ->
     num_int (num_add (num_of_Z (get_height img)) SpriteBox.half) = Ok (get_height img) ->
     (forall v, _known_images (world s) !! _ImageKey_of (surface_key img) = Some v ->
                v = img) ->
     exists s',
       run (SpriteBox.copy_at self newx newy) s = (Ok (next_box s), s') /\
       world s' = register img (world s) /\
       boxes s' =
         <[next_box s :=
             box.mk newx newy SpriteBox.zero SpriteBox.zero (Some (natural_key img))
               (Some img) None (box._w b) (box._h b)]> (boxes s) /\
       next_box s' = N.succ (next_box s)) /\
  run (SpriteBox.copy self) s = run (SpriteBox.copy_at self (box.x b) (box.y b)) s.
Proof.
  intros Hs Hhalf Hzero. split; [|split].
  - intros c Himg Hcol. unfold SpriteBox.copy_at.
    rewrite run_bind, (run_getattr _ _ _ _ Hs), run_bind, (run_getattr _ _ _ _ Hs).
    rewrite run_bind, (run_getattr _ _ _ _ Hs), run_bind, (run_getattr _ _ _ _ Hs).
    rewrite Himg, Hcol. cbn [option_map].
    unfold SpriteBox.new. rewrite run_bind. cbn [run SpriteBox.allocate].
    rewrite run_bind. unfold SpriteBox.__init__.
    rewrite run_bind. erewrite run_setattr by (cbn; apply lookup_insert_eq).
    rewrite run_bind. erewrite run_setattr by (cbn; apply lookup_insert_eq).
    rewrite run_bind. erewrite run_setattr by (cbn; apply lookup_insert_eq).
    rewrite run_bind. erewrite run_setattr by (cbn; apply lookup_insert_eq).
    erewrite run_setattr by (cbn; apply lookup_insert_eq).
    cbn [run ret]. f_equal. unfold set_boxes. cbn [world boxes next_box].
    f_equal. rewrite !insert_insert_eq. reflexivity.
  - intros img Himg Hw Hh Hiw Hih Hid. unfold SpriteBox.copy_at.
    rewrite run_bind, (run_getattr _ _ _ _ Hs), run_bind, (run_getattr _ _ _ _ Hs).
    rewrite run_bind, (run_getattr _ _ _ _ Hs), run_bind, (run_getattr _ _ _ _ Hs).
    rewrite Himg. cbn [option_map].
    unfold SpriteBox.new. rewrite run_bind. cbn [run SpriteBox.allocate].
    set (b0 := box.mk newx newy SpriteBox.zero SpriteBox.zero None None None
                 SpriteBox.zero SpriteBox.zero).
    set (sa := {| world := _; boxes := _; next_box := _ |}).
    assert (Hb0 : boxes sa !! next_box s = Some b0) by (cbn; apply lookup_insert_eq).
    rewrite run_bind. unfold SpriteBox.__init__. rewrite run_bind.
    destruct (_set_key_shows_surface (next_box s) img SpriteBox.zero SpriteBox.zero
                SpriteBox.zero sa b0 0 Hb0 Hhalf Hhalf Hzero eq_refl Hid)
      as (s1 & Hrun & Hworld & Hboxes & Hnext).
    rewrite Hrun.
    set (b1 := shows b0 (natural_key img) img) in *.
    assert (Hb1 : boxes s1 !! next_box s = Some b1)
      by (rewrite Hboxes; apply lookup_insert_eq).
    unfold SpriteBox.set_size.
    rewrite run_bind, (run_getattr _ _ _ _ Hb1), run_bind, (run_getattr _ _ _ _ Hb1).
    cbn [box._image box._key b1 shows fst snd key_name key_flip key_angle natural_key].
    rewrite _set_key_rest, run_bind. cbn [run ret].
    assert (Hv : _known_images (world s1) !!
                   (surface_key img, false, get_width img, get_height img, 0) = Some img).
    { rewrite Hworld. unfold register. cbn [_known_images set_known_images].
      apply lookup_insert_eq. }
    assert (Hiw' : num_int (num_add (box._w b) SpriteBox.half) = Ok (get_width img))
      by (rewrite Hw; exact Hiw).
    assert (Hih' : num_int (num_add (box._h b) SpriteBox.half) = Ok (get_height img))
      by (rewrite Hh; exact Hih).
    destruct (set_key_rest_shows_cached (next_box s) (surface_key img) false
                (box._w b) (box._h b) (num_of_Z 0) s1 b1 img (get_width img)
                (get_height img) 0 Hb1 Hiw' Hih' Hzero eq_refl Hv
                (or_intror (conj eq_refl eq_refl)))
      as (s2 & Hrun2 & Hworld2 & Hboxes2 & Hnext2).
    rewrite Hrun2. cbn [run ret].
    exists s2. split; [reflexivity|].
    split.
    { rewrite Hworld2, Hworld. cbn [world sa]. apply register_twice. }
    split; [|rewrite Hnext2, Hnext; reflexivity].
    rewrite Hboxes2, Hboxes. cbn [boxes sa]. rewrite !insert_insert_eq.
    unfold b1. rewrite shows_shows. unfold shows, b0.
    cbn [box.x box.y box.speedx box.speedy]. rewrite Hw, Hh. reflexivity.
  - unfold SpriteBox.copy.
    rewrite run_bind, (run_getattr _ _ _ _ Hs), run_bind, (run_getattr _ _ _ _ Hs).
    reflexivity.
Qed.
End from_surface.

(** * Colour boxes, and references that load or do not *)

Section flat.
Context {F : Type} `{PyNum F} `{Externals}.
Import _ImageCache.

(** X10: an assignment to [color] turns any box, also one that shows an
    image, into a colour box of the size it had: key and image are dropped,
    position, speed and size stay; from then on [flip], [rotate] and
    [full_size] return without changing the box or the cache. *)
Theorem color_setter_drops_the_image (s : State F) (self : N) (b : box.t F)
    (c : _ColorValue) :
  boxes s !! self = Some b ->
  let s1 := set_boxes <[self := box.mk (box.x b) (box.y b) (box.speedx b) (box.speedy b)
                                  None None (Some c) (box._w b) (box._h b)]> s in
  run (SpriteBox.set_color self c) s = (Ok tt, s1) /\
  run (SpriteBox.flip self) s1 = (Ok tt, s1) /\
  (forall angle, run (SpriteBox.rotate self angle) s1 = (Ok tt, s1)) /\
  run (SpriteBox.full_size self) s1 = (Ok tt, s1).
Proof.
  intros Hs s1.
  assert (Hs1 : boxes s1 !! self = Some (box.mk (box.x b) (box.y b) (box.speedx b)
                  (box.speedy b) None None (Some c) (box._w b) (box._h b)))
    by apply lookup_set_boxes.
  split; [|split; [|split]].
  - unfold SpriteBox.set_color.
    rewrite run_bind, (run_setattr _ _ _ _ Hs).
    rewrite run_bind. erewrite run_setattr by apply lookup_set_boxes.
    erewrite run_setattr by (rewrite set_boxes_twice; apply lookup_set_boxes).
    rewrite !set_boxes_twice. reflexivity.
  - unfold SpriteBox.flip. rewrite run_bind, (run_getattr _ _ _ _ Hs1). reflexivity.
  - intros angle. unfold SpriteBox.rotate.
    rewrite run_bind, (run_getattr _ _ _ _ Hs1). reflexivity.
  - unfold SpriteBox.full_size. rewrite run_bind, (run_getattr _ _ _ _ Hs1). reflexivity.
Qed.

(** A reference that names no file and that cannot be fetched: the
    [OSError] of [urlretrieve] becomes the [ValueError], another exception
    comes out as it is. *)
Lemma load_unknown_reference (ref filename : string) (w : World) :
  _known_images w !! _ImageKey_of ref = None ->
  files w !! ref = None ->
  url_basename ref = Ok filename ->
  files w !! filename = None ->
  web w !! fetched_url ref = None ->
  run (load_filename_or_url ref) w =
    (Raise (if is_OSError (fetch_error (fetched_url ref))
            then ValueError (fetch_error_message ref)
            else fetch_error (fetched_url ref)), w).
Proof.
  intros Hc Hf Hb Hfile Hw. unfold load_filename_or_url. cbn [run bind gets].
  rewrite Hc. cbn [run try_except_OSError].
  unfold os_path.exists_. cbn [run bind gets]. rewrite Hf.
  rewrite bool_decide_eq_false_2 by (intros [? ?]; discriminate).
  unfold _get_url, os_path.exists_. rewrite run_bind, Hb. cbn [run ret bind gets].
  rewrite Hfile.
  rewrite bool_decide_eq_false_2 by (intros [? ?]; discriminate).
  unfold urllib.urlretrieve. cbn [run bind gets]. fold (fetched_url ref).
  rewrite Hw. cbn [run raise].
  destruct (is_OSError (fetch_error (fetched_url ref))); reflexivity.
Qed.

(** X11: [from_image] with a reference that is not cached, names no file
    here and cannot be fetched raises, and leaves no box and no cache entry
    behind; so does a request to the cache for any transformation of such a
    reference.  What is raised is the [ValueError] that names the reference
    when [urlretrieve] fails with an [OSError], and otherwise the exception
    of [urlretrieve] itself, such as [http.client.InvalidURL] for a name
    with a space in it. *)
Theorem from_image_unknown_reference (s : State F) (x y : F) (ref filename : string) :
  _known_images (world s) !! _ImageKey_of ref = None ->
  files (world s) !! ref = None ->
  url_basename ref = Ok filename ->
  files (world s) !! filename = None ->
  web (world s) !! fetched_url ref = None ->
  let raised :=
    if is_OSError (fetch_error (fetched_url ref))
    then ValueError (fetch_error_message ref)
    else fetch_error (fetched_url ref) in
  run (SpriteBox.from_image x y (RefStr ref)) s = (Raise raised, s) /\
  forall flip w h angle,
    (forall f w' h' a, _known_images (world s) !! (ref, f, w', h', a) = None) ->
    run (get_transform (ref, flip, w, h, angle)) (world s) = (Raise raised, world s).
Proof.
  intros Hc Hf Hb Hfile Hw raised.
  pose proof (load_unknown_reference ref filename (world s) Hc Hf Hb Hfile Hw) as Hload.
  fold raised in Hload.
  split.
  - unfold SpriteBox.from_image. rewrite run_bind, run_lift_world, Hload.
    cbn [fst snd]. destruct s; reflexivity.
  - intros flip w h angle Hnone.
    assert (H000 : forall f, f = false ->
              run (get_transform (ref, f, 0, 0, 0)) (world s)
              = (Raise raised, world s)).
    { intros f ->. rewrite get_transform_body. rewrite run_bind. cbn [run gets].
      rewrite run_bind, Hnone. unfold compute_image.
      destruct (decide (0 <> 0)); [lia|]. destruct (decide (0 <> 0 \/ 0 <> 0)); [lia|].
      rewrite run_bind, Hload. reflexivity. }
    assert (Hf00 : forall f,
              run (get_transform (ref, f, 0, 0, 0)) (world s)
              = (Raise raised, world s)).
    { intros [|]; [|apply H000; reflexivity].
      rewrite get_transform_body. rewrite run_bind. cbn [run gets].
      rewrite run_bind, Hnone. unfold compute_image.
      destruct (decide (0 <> 0)); [lia|]. destruct (decide (0 <> 0 \/ 0 <> 0)); [lia|].
      rewrite !run_bind, (H000 false eq_refl). reflexivity. }
    assert (Hs0 : forall f w h,
              run (get_transform (ref, f, w, h, 0)) (world s)
              = (Raise raised, world s)).
    { intros f w0 h0. destruct (decide (w0 = 0 /\ h0 = 0)) as [[-> ->]|Hn]; [apply Hf00|].
      rewrite get_transform_body. rewrite run_bind. cbn [run gets].
      rewrite run_bind, Hnone. unfold compute_image.
      destruct (decide (0 <> 0)); [lia|].
      destruct (decide (w0 <> 0 \/ h0 <> 0)); [|lia].
      rewrite !run_bind, Hf00. reflexivity. }
    destruct (decide (angle = 0)) as [->|Ha]; [apply Hs0|].
    rewrite get_transform_body. rewrite run_bind. cbn [run gets].
    rewrite run_bind, Hnone. unfold compute_image.
    destruct (decide (angle <> 0)); [|tauto].
    rewrite !run_bind, Hs0. reflexivity.
Qed.
End flat.

Section cache_more.
Context `{Externals}.
Import _ImageCache.

(** X12: [cache_surface] registers a surface under the key of its identity,
    at the sentinel size and at its own size, and never twice: when the
    identity is registered already the call changes nothing, so a second
    call after the first is idle.  It makes no surface and calls nothing. *)
Theorem cache_surface_registers_once (surface : Surface) (w : World) :
  let w1 := snd (run (cache_surface surface) w) in
  run (cache_surface surface) w = (Ok tt, w1) /\
  run (cache_surface surface) w1 = (Ok tt, w1) /\
  (_known_images w !! _ImageKey_of (surface_key surface) = None ->
   w1 = register surface w /\
   _known_images w1 !! _ImageKey_of (surface_key surface) = Some surface /\
   _known_images w1 !! natural_key surface = Some surface) /\
  (is_Some (_known_images w !! _ImageKey_of (surface_key surface)) -> w1 = w).
Proof.
  intros w1. subst w1. rewrite run_cache_surface. cbn [snd].
  destruct (decide (is_Some (_known_images w !! _ImageKey_of (surface_key surface))))
    as [Hsome|Hnone].
  - split; [reflexivity|]. split.
    + rewrite run_cache_surface. destruct (decide _) as [_|Hn]; [reflexivity|contradiction].
    + split; [|reflexivity]. intros E. destruct Hsome as [v Hv]. congruence.
  - split; [reflexivity|]. split.
    + rewrite run_cache_surface. destruct (decide _) as [_|Hn]; [reflexivity|].
      exfalso. apply Hn. rewrite lookup_register_sentinel. eauto.
    + split; [|intros Hs; contradiction]. intros _. split; [reflexivity|].
      split; [apply lookup_register_sentinel|].
      unfold register. cbn [_known_images set_known_images]. apply lookup_insert_eq.
Qed.

(** X13: once a display has been set, a file that exists is decoded
    once: the first [load_filename_or_url] of its name calls
    [pygame.image.load] once and registers the image under the name, at the
    sentinel size and at its own size, and under the identity of the
    surface; loading the name again returns the same surface object and
    changes nothing, so the file is not read again.  Before a display has
    been set the load raises [pygame.error] and registers nothing. *)
Theorem load_file_decodes_once (ref : string) (w : World) (width height : Z) (data : N) :
  _known_images w !! _ImageKey_of ref = None ->
  files w !! ref = Some (FileImage width height data) ->
  (video_mode w = true ->
   exists image w',
     run (load_filename_or_url ref) w = (Ok image, w') /\
     image = {| surf_id := next_id w; get_width := width; get_height := height;
                surf_pixels := PxDecoded data |} /\
     oplog w' = OpLoad ref :: oplog w /\
     next_id w' = N.succ (next_id w) /\
     _known_images w' !! _ImageKey_of ref = Some image /\
     _known_images w' !! (ref, false, width, height, 0) = Some image /\
     is_Some (_known_images w' !! _ImageKey_of (surface_key image)) /\
     run (load_filename_or_url ref) w' = (Ok image, w')) /\
  (video_mode w = false ->
   exists w',
     run (load_filename_or_url ref) w
       = (Raise (PygameError "No video mode has been set"), w') /\
     _known_images w' = _known_images w /\ next_id w' = next_id w).
Proof.
  intros Hmiss Hfile. split; intros Hvideo.
  2:{ unfold load_filename_or_url. cbn [run bind gets].
      rewrite Hmiss. cbn [run try_except_OSError].
      unfold os_path.exists_. cbn [run bind gets].
      rewrite bool_decide_eq_true_2 by (rewrite Hfile; eauto).
      unfold _get_filename, pygame.image_load. cbn [run bind gets]. rewrite Hfile.
      cbn [run bind gets log_op modify video_mode set_oplog]. rewrite Hvideo.
      cbn [run raise is_OSError]. eexists. split; [reflexivity|]. split; reflexivity. }
  assert (Hrun : exists w',
            run (load_filename_or_url ref) w =
              (Ok {| surf_id := next_id w; get_width := width; get_height := height;
                     surf_pixels := PxDecoded data |}, w') /\
            oplog w' = OpLoad ref :: oplog w /\ next_id w' = N.succ (next_id w) /\
            is_Some (_known_images w' !! _ImageKey_of (surface_key
              {| surf_id := next_id w; get_width := width; get_height := height;
                 surf_pixels := PxDecoded data |}))).
  { unfold load_filename_or_url at 1. cbn [run bind gets].
    rewrite Hmiss. cbn [run try_except_OSError].
    unfold os_path.exists_. cbn [run bind gets].
    rewrite bool_decide_eq_true_2 by (rewrite Hfile; eauto).
    unfold _get_filename. rewrite run_bind.
    unfold pygame.image_load. cbn [run bind gets]. rewrite Hfile.
    cbn [run bind gets log_op modify video_mode set_oplog]. rewrite Hvideo.
    cbn [run bind log_op modify new_surface cache_put].
    rewrite run_cache_surface. cbn [run ret get_width get_height].
    eexists. split; [reflexivity|].
    match goal with |- context [decide ?P] => destruct (decide P) as [Hs|Hn] end.
    - cbn [oplog next_id set_known_images set_next_id set_oplog].
      split; [reflexivity|]. split; [reflexivity|]. exact Hs.
    - unfold register.
      cbn [oplog next_id set_known_images set_next_id set_oplog _known_images].
      split; [reflexivity|]. split; [reflexivity|].
      destruct (decide (natural_key {| surf_id := next_id w; get_width := width;
                          get_height := height; surf_pixels := PxDecoded data |}
                        = _ImageKey_of (surface_key {| surf_id := next_id w;
                            get_width := width; get_height := height;
                            surf_pixels := PxDecoded data |}))) as [E|E].
      + rewrite E, lookup_insert_eq. eauto.
      + rewrite lookup_insert_ne by exact E. rewrite lookup_insert_eq. eauto. }
  destruct Hrun as (w' & Hrun & Hlog & Hid & Hreg).
  destruct (load_file_registers_reference ref w _ w' Hmiss
              ltac:(rewrite Hfile; eauto) Hrun) as (Hk1 & Hk2 & Hagain).
  eexists _, w'. split; [exact Hrun|]. split; [reflexivity|].
  repeat split; assumption.
Qed.
End cache_more.

(** * The camera *)

Section camera_runs.
Context {F : Type} `{PyNum F}.

Lemma run_camera_getattr {A} (attr : camera.t F -> A) (g : Game F) (c : camera.t F) :
  instance g = Some c -> run (Camera.getattr attr) g = (Ok (attr c), g).
Proof. intros Hc. cbn [run Camera.getattr]. rewrite Hc. reflexivity. Qed.

Lemma run_camera_setattr (upd : camera.t F -> camera.t F) (g : Game F) (c : camera.t F) :
  instance g = Some c ->
  run (Camera.setattr upd) g = (Ok tt, set_instance (Some (upd c)) g).
Proof. intros Hc. cbn [run Camera.setattr]. rewrite Hc. reflexivity. Qed.

Lemma run_camera_width (g : Game F) (c : camera.t F) :
  instance g = Some c -> run Camera.width g = (Ok (get_width (camera._surface c)), g).
Proof.
  intros Hc. unfold Camera.width. rewrite run_bind, (run_camera_getattr _ _ _ Hc).
  reflexivity.
Qed.

Lemma run_camera_height (g : Game F) (c : camera.t F) :
  instance g = Some c -> run Camera.height g = (Ok (get_height (camera._surface c)), g).
Proof.
  intros Hc. unfold Camera.height. rewrite run_bind, (run_camera_getattr _ _ _ Hc).
  reflexivity.
Qed.

Lemma instance_set_instance (c : option (camera.t F)) (g : Game F) :
  instance (set_instance c g) = c.
Proof. reflexivity. Qed.

Lemma set_instance_twice (c c' : option (camera.t F)) (g : Game F) :
  set_instance c' (set_instance c g) = set_instance c' g.
Proof. reflexivity. Qed.

(** The six assignments, as updates of the camera object. *)
Lemma run_camera_setters (g : Game F) (c : camera.t F) (v : F) :
  instance g = Some c ->
  let w := num_of_Z (get_width (camera._surface c)) in
  let h := num_of_Z (get_height (camera._surface c)) in
  let put (upd : camera.t F -> camera.t F) := (Ok tt, set_instance (Some (upd c)) g) in
  run (Camera.set_left v) g = put (camera.set_x v) /\
  run (Camera.set_right v) g = put (camera.set_x (num_sub v w)) /\
  run (Camera.set_top v) g = put (camera.set_y v) /\
  run (Camera.set_bottom v) g = put (camera.set_y (num_sub v h)) /\
  run (Camera.set_x v) g = put (camera.set_x (num_sub v (num_div w Camera.two))) /\
  run (Camera.set_y v) g = put (camera.set_y (num_sub v (num_div h Camera.two))).
Proof.
  intros Hc w h put.
  unfold Camera.set_left, Camera.set_right, Camera.set_top, Camera.set_bottom,
    Camera.set_x, Camera.set_y.
  rewrite !run_bind, (run_camera_width _ _ Hc), (run_camera_height _ _ Hc).
  rewrite !(run_camera_setattr _ _ _ Hc). repeat split; reflexivity.
Qed.
Lemma run_camera_getters (g : Game F) (c : camera.t F) :
  instance g = Some c ->
  let w := get_width (camera._surface c) in
  let h := get_height (camera._surface c) in
  run Camera.left g = (Ok (camera._x c), g) /\
  run Camera.right g = (Ok (num_add (camera._x c) (num_of_Z w)), g) /\
  run Camera.top g = (Ok (camera._y c), g) /\
  run Camera.bottom g = (Ok (num_add (camera._y c) (num_of_Z h)), g) /\
  run Camera.center g =
    (Ok (num_add (camera._x c) (num_div (num_of_Z w) Camera.two),
         num_add (camera._y c) (num_div (num_of_Z h) Camera.two)), g) /\
  run Camera.size g = (Ok (w, h), g).
Proof.
  intros Hc w h.
  assert (Rx : run Camera.x g =
               (Ok (num_add (camera._x c) (num_div (num_of_Z w) Camera.two)), g)).
  { unfold Camera.x. rewrite run_bind, (run_camera_getattr _ _ _ Hc). cbn [fst snd].
    rewrite run_bind, (run_camera_width _ _ Hc). reflexivity. }
  assert (Ry : run Camera.y g =
               (Ok (num_add (camera._y c) (num_div (num_of_Z h) Camera.two)), g)).
  { unfold Camera.y. rewrite run_bind, (run_camera_getattr _ _ _ Hc). cbn [fst snd].
    rewrite run_bind, (run_camera_height _ _ Hc). reflexivity. }
  split; [apply (run_camera_getattr _ _ _ Hc)|].
  split.
  { unfold Camera.right. rewrite run_bind, (run_camera_getattr _ _ _ Hc). cbn [fst snd].
    rewrite run_bind, (run_camera_width _ _ Hc). reflexivity. }
  split; [apply (run_camera_getattr _ _ _ Hc)|].
  split.
  { unfold Camera.bottom. rewrite run_bind, (run_camera_getattr _ _ _ Hc). cbn [fst snd].
    rewrite run_bind, (run_camera_height _ _ Hc). reflexivity. }
  split.
  { unfold Camera.center. rewrite run_bind, Rx. cbn [fst snd].
    rewrite run_bind, Ry. reflexivity. }
  unfold Camera.size. rewrite run_bind, (run_camera_width _ _ Hc). cbn [fst snd].
  rewrite run_bind, (run_camera_height _ _ Hc). reflexivity.
Qed.
End camera_runs.

Section exact_camera.
Context {F : Type} `{ExactNum F}.
Local Open Scope Q_scope.

Lemma toQ_camera_two : toQ (Camera.two (F := F)) == 2.
Proof. unfold Camera.two. rewrite toQ_of_Z. reflexivity. Qed.

Lemma toQ_camera_halved (z : Z) :
  toQ (num_div (num_of_Z z) (Camera.two (F := F))) == inject_Z z / 2.
Proof.
  rewrite toQ_div by (rewrite toQ_camera_two; discriminate).
  rewrite toQ_camera_two, toQ_of_Z. reflexivity.
Qed.

Lemma camera_reads_of (g : Game F) (c : camera.t F) (l t : Q) :
  instance g = Some c ->
  toQ (camera._x c) == l -> toQ (camera._y c) == t ->
  camera_reads g l t (get_width (camera._surface c)) (get_height (camera._surface c)).
Proof.
  intros Hc El Et.
  destruct (run_camera_getters g c Hc) as (Rl & Rr & Rt & Rb & Rc & Rs).
  unfold camera_reads. do 6 eexists.
  split; [exact Rl|]. split; [exact El|].
  split; [exact Rr|]. split; [rewrite toQ_add, toQ_of_Z, El; reflexivity|].
  split; [exact Rt|]. split; [exact Et|].
  split; [exact Rb|]. split; [rewrite toQ_add, toQ_of_Z, Et; reflexivity|].
  split; [exact Rc|].
  split; [rewrite toQ_add, toQ_camera_halved, El; reflexivity|].
  split; [rewrite toQ_add, toQ_camera_halved, Et; reflexivity|]. exact Rs.
Qed.
End exact_camera.

Section camera_moves.
Context {F : Type} `{PyNum F}.

(** [move] reads the centre and assigns it, one axis after the other. *)
Lemma run_camera_move (g : Game F) (c : camera.t F) (dx dy : F) :
  instance g = Some c ->
  let w := num_div (num_of_Z (get_width (camera._surface c))) Camera.two in
  let h := num_div (num_of_Z (get_height (camera._surface c))) Camera.two in
  run (Camera.move dx dy) g =
  (Ok tt, set_instance
            (Some (camera.mk (camera._surface c)
                     (num_sub (num_add (num_add (camera._x c) w) dx) w)
                     (num_sub (num_add (num_add (camera._y c) h) dy) h)
                     (camera.keys c))) g).
Proof.
  intros Hc w h. unfold Camera.move, Camera.x, Camera.y, Camera.set_x, Camera.set_y.
  rewrite !run_bind, (run_camera_getattr _ _ _ Hc). cbn [fst snd].
  rewrite !run_bind, (run_camera_width _ _ Hc). cbn [fst snd run ret].
  rewrite !run_bind, (run_camera_width _ _ Hc). cbn [fst snd].
  rewrite (run_camera_setattr _ _ _ Hc). cbn [fst snd].
  set (c1 := camera.set_x _ c).
  assert (Hc1 : instance (set_instance (Some c1) g) = Some c1) by reflexivity.
  rewrite !run_bind, (run_camera_getattr _ _ _ Hc1). cbn [fst snd].
  rewrite !run_bind, (run_camera_height _ _ Hc1). cbn [fst snd run ret].
  rewrite !run_bind, (run_camera_height _ _ Hc1). cbn [fst snd].
  rewrite (run_camera_setattr _ _ _ Hc1). reflexivity.
Qed.

Lemma run_camera_mouse (g : Game F) (c : camera.t F) :
  instance g = Some c ->
  let mx := num_add (num_of_Z (fst (mouse_pos g))) (camera._x c) in
  let my := num_add (num_of_Z (snd (mouse_pos g))) (camera._y c) in
  run Camera.mouse g = (Ok (mx, my), g) /\
  run Camera.mousex g = (Ok mx, g) /\ run Camera.mousey g = (Ok my, g).
Proof.
  intros Hc mx my. unfold Camera.mouse, Camera.mousex, Camera.mousey.
  rewrite !run_bind. cbn [run gets fst snd].
  rewrite !run_bind, !(run_camera_getattr _ _ _ Hc). cbn [fst snd].
  rewrite !run_bind, !(run_camera_getattr _ _ _ Hc). repeat split; reflexivity.
Qed.
End camera_moves.

Section exact_camera_claims.
Context {F : Type} `{ExactNum F}.
Local Open Scope Q_scope.

Lemma mouse_reads_of (g : Game F) (c : camera.t F) (x y : Q) :
  instance g = Some c ->
  inject_Z (fst (mouse_pos g)) + toQ (camera._x c) == x ->
  inject_Z (snd (mouse_pos g)) + toQ (camera._y c) == y ->
  mouse_reads g x y.
Proof.
  intros Hc Ex Ey. destruct (run_camera_mouse g c Hc) as (Rm & Rx & Ry).
  unfold mouse_reads. do 2 eexists.
  split; [exact Rm|]. split; [exact Rx|]. split; [exact Ry|].
  rewrite !toQ_add, !toQ_of_Z. split; assumption.
Qed.

(** X14: in arithmetic without rounding, an assignment to an edge or to a
    centre coordinate of the camera puts it where it was told and keeps the
    size of the view and the other axis: after [camera.right = v] the left
    edge reads [v - width] and the right edge [v]; after [camera.x = v] the
    left edge reads [v - width / 2] and the centre [v]; and likewise for
    [left], [top], [bottom] and [y]. *)
Theorem camera_edge_reads_back (g : Game F) (c : camera.t F) (v : F) :
  instance g = Some c ->
  let w := get_width (camera._surface c) in
  let h := get_height (camera._surface c) in
  let l := toQ (camera._x c) in
  let t := toQ (camera._y c) in
  let after (set : F -> M (Game F) unit) : Game F := snd (run (set v) g) in
  camera_reads (after Camera.set_left) (toQ v) t w h /\
  camera_reads (after Camera.set_right) (toQ v - inject_Z w) t w h /\
  camera_reads (after Camera.set_top) l (toQ v) w h /\
  camera_reads (after Camera.set_bottom) l (toQ v - inject_Z h) w h /\
  camera_reads (after Camera.set_x) (toQ v - inject_Z w / 2) t w h /\
  camera_reads (after Camera.set_y) l (toQ v - inject_Z h / 2) w h.
Proof.
  intros Hc w h l t after. subst after. cbv beta.
  destruct (run_camera_setters g c v Hc) as (Rl & Rr & Rt & Rb & Rx & Ry).
  rewrite Rl, Rr, Rt, Rb, Rx, Ry. cbn [snd].
  repeat split.
  all: match goal with
       | |- camera_reads (set_instance (Some ?c') ?g') _ _ _ _ =>
           apply (camera_reads_of (set_instance (Some c') g') c' _ _ eq_refl)
       end; cbn [camera._x camera._y camera.set_x camera.set_y];
       rewrite ?toQ_sub, ?toQ_camera_halved, ?toQ_of_Z; reflexivity.
Qed.

(** X15: in arithmetic without rounding, [camera.move(dx, dy)] scrolls the
    view by just that much: every edge and the centre move by [(dx, dy)],
    the size of the view stays, and so the mouse, which has not moved on the
    screen, is [(dx, dy)] further in the world.  The boxes and the image
    cache are not touched.  The overload for a sequence does the same for
    two coordinates, and raises [ValueError] and changes nothing for more. *)
Theorem camera_move_scrolls (g : Game F) (c : camera.t F) (dx dy : F) (rest : list F) :
  instance g = Some c ->
  let w := get_width (camera._surface c) in
  let h := get_height (camera._surface c) in
  exists g',
    run (Camera.move dx dy) g = (Ok tt, g') /\
    camera_reads g' (toQ (camera._x c) + toQ dx) (toQ (camera._y c) + toQ dy) w h /\
    mouse_reads g (inject_Z (fst (mouse_pos g)) + toQ (camera._x c))
      (inject_Z (snd (mouse_pos g)) + toQ (camera._y c)) /\
    mouse_reads g' (inject_Z (fst (mouse_pos g)) + toQ (camera._x c) + toQ dx)
      (inject_Z (snd (mouse_pos g)) + toQ (camera._y c) + toQ dy) /\
    state g' = state g /\ _known_text g' = _known_text g /\
    run (Camera.move_sequence dx dy []) g = (Ok tt, g') /\
    (rest <> [] ->
     run (Camera.move_sequence dx dy rest) g =
       (Raise (ValueError ("Expected 2 coordinates, but got "
                             +:+ pretty (length (dx :: dy :: rest)) +:+ " instead")), g)).
Proof.
  intros Hc w h. eexists. split; [apply (run_camera_move g c dx dy Hc)|].
  set (c' := camera.mk _ _ _ _).
  assert (Ex : toQ (camera._x c') == toQ (camera._x c) + toQ dx).
  { subst c'. cbn [camera._x]. rewrite toQ_sub, !toQ_add, toQ_camera_halved. ring. }
  assert (Ey : toQ (camera._y c') == toQ (camera._y c) + toQ dy).
  { subst c'. cbn [camera._y]. rewrite toQ_sub, !toQ_add, toQ_camera_halved. ring. }
  split; [apply (camera_reads_of (set_instance (Some c') g) c' _ _ eq_refl Ex Ey)|].
  split; [apply (mouse_reads_of g c _ _ Hc); reflexivity|].
  split.
  { apply (mouse_reads_of (set_instance (Some c') g) c' _ _ eq_refl);
      cbn [mouse_pos set_instance]; rewrite ?Ex, ?Ey; ring. }
  split; [reflexivity|]. split; [reflexivity|].
  split; [apply (run_camera_move g c dx dy Hc)|].
  intros Hrest. unfold Camera.move_sequence.
  destruct rest as [|z rest]; [contradiction|]. reflexivity.
Qed.
End exact_camera_claims.

Section camera_singleton.
Context {F : Type} `{PyNum F} `{Screen}.

(** X16: there is one camera.  [Camera(...)] when a camera exists raises
    [RuntimeError] and changes nothing.  When it succeeds there was none,
    the new camera is [Camera.instance], its view has its top left corner at
    (0, 0) and the size of the window pygame opened, no key is down, and
    every later [Camera(...)] is refused.  When pygame refuses the window,
    there is still no camera. *)
Theorem camera_is_a_singleton (g : Game F) (width height : Z) (full_screen : bool) :
  let refused := RuntimeError "You can only have one Camera at a time" in
  (is_Some (instance g) ->
   Camera.__init__ width height full_screen g = (refused, g)) /\
  (forall g', Camera.__init__ width height full_screen g = (Constructed, g') ->
     instance g = None /\
     (exists surface w h,
        set_mode_size width height full_screen = Ok (w, h) /\
        instance g' = Some (camera.mk surface Camera.zero Camera.zero ∅) /\
        get_width surface = w /\ get_height surface = h /\
        run Camera.size g' = (Ok (w, h), g')) /\
     boxes (state g') = boxes (state g) /\
     forall width' height' full_screen',
       Camera.__init__ width' height' full_screen' g' = (refused, g')) /\
  (forall e g', Camera.__init__ width height full_screen g = (Raised e, g') ->
     set_mode_size width height full_screen = Raise e /\ g' = g).
Proof.
  intros refused. unfold Camera.__init__. split; [|split].
  - intros [c Hc]. rewrite Hc. reflexivity.
  - intros g' Hrun. destruct (instance g) as [c|] eqn:Hc; [discriminate|].
    split; [reflexivity|].
    unfold lift_cache, lift_state, lift_world, Camera.set_mode in Hrun.
    cbn [run] in Hrun.
    destruct (set_mode_size width height full_screen) as [[w h]|e] eqn:Hmode;
      cbn in Hrun; [|discriminate].
    injection Hrun as <-.
    split.
    + do 3 eexists. split; [reflexivity|]. split; [reflexivity|]. split; [reflexivity|].
      split; [reflexivity|]. reflexivity.
    + split; [reflexivity|]. intros. reflexivity.
  - intros e g' Hrun. destruct (instance g) as [c|] eqn:Hc; [discriminate|].
    unfold lift_cache, lift_state, lift_world, Camera.set_mode in Hrun.
    cbn [run] in Hrun.
    destruct (set_mode_size width height full_screen) as [[w h]|e'] eqn:Hmode;
      cbn in Hrun; [discriminate|].
    injection Hrun as <- <-. split; [reflexivity|].
    destruct g as [s i k mp mpr tm]. destruct s. cbn in *. subst i. reflexivity.
Qed.
End camera_singleton.

(** * The mouse over a box *)

Section game_runs.
Context {F : Type}.

Lemma set_state_id (g : Game F) : set_state (state g) g = g.
Proof. destruct g. reflexivity. Qed.

Lemma run_lift_state {A} (c : M (State F) A) (g : Game F) :
  run (lift_state c) g = (fst (run c (state g)), set_state (snd (run c (state g))) g).
Proof. cbn [run lift_state]. destruct (run c (state g)). reflexivity. Qed.

(** A call that leaves the boxes and the cache alone leaves the game
    alone. *)
Lemma run_lift_state_pure {A} (c : M (State F) A) (g : Game F) (r : result A) :
  run c (state g) = (r, state g) -> run (lift_state c) g = (r, g).
Proof. intros Hrun. rewrite run_lift_state, Hrun. cbn [fst snd]. rewrite set_state_id. reflexivity. Qed.
End game_runs.

Section exact_hover.
Context {F : Type} `{ExactNum F} `{!PyAbs F} `{!ExactAbs F}.
Local Open Scope Q_scope.

(** X17: in arithmetic without rounding, [box.mousehover] holds exactly when
    the cursor, at the place on the screen pygame reports plus the top left
    corner of the camera, is strictly inside the box, and [box.mouseclick]
    exactly when moreover a mouse button is down.  Neither changes anything.
    Without a camera both raise [AttributeError]. *)
Theorem mousehover_under_the_cursor (g : Game F) (self : N) :
  (forall c b, instance g = Some c -> boxes (state g) !! self = Some b ->
     let mx := inject_Z (fst (mouse_pos g)) + toQ (camera._x c) in
     let my := inject_Z (snd (mouse_pos g)) + toQ (camera._y c) in
     exists hover click : bool,
       run (SpriteBoxGame.mousehover self) g = (Ok hover, g) /\
       run (SpriteBoxGame.mouseclick self) g = (Ok click, g) /\
       (hover = true <->
        toQ (box_left b) < mx /\ mx < toQ (box_right b) /\
        toQ (box_top b) < my /\ my < toQ (box_bottom b)) /\
       (click = true <-> hover = true /\ In true (mouse_pressed g))) /\
  (instance g = None ->
   exists msg,
     run (SpriteBoxGame.mousehover self) g = (Raise (AttributeError msg), g) /\
     run (SpriteBoxGame.mouseclick self) g = (Raise (AttributeError msg), g)).
Proof.
  split.
  - intros c b Hc Hb mx my.
    destruct (run_camera_mouse g c Hc) as (Rm & _ & _).
    destruct (contains_in_box (state g) self b
                (num_add (num_of_Z (fst (mouse_pos g))) (camera._x c))
                (num_add (num_of_Z (snd (mouse_pos g))) (camera._y c)) Hb)
      as (hover & Rc & Hin).
    assert (Rh : run (SpriteBoxGame.mousehover self) g = (Ok hover, g)).
    { unfold SpriteBoxGame.mousehover. rewrite run_bind, Rm. cbn [fst snd].
      apply run_lift_state_pure. exact Rc. }
    exists hover, (hover && existsb (fun p => p) (mouse_pressed g))%bool.
    split; [exact Rh|]. split.
    { unfold SpriteBoxGame.mouseclick. rewrite run_bind, Rh. cbn [fst snd].
      destruct hover; reflexivity. }
    split.
    { rewrite Hin, !toQ_add, !toQ_of_Z. reflexivity. }
    rewrite Bool.andb_true_iff, existsb_exists.
    split.
    + intros [Hh (p & Hp & ->)]. split; assumption.
    + intros [Hh Hp]. split; [exact Hh|]. exists true. split; [exact Hp|reflexivity].
  - intros Hc. eexists.
    assert (Rh : run (SpriteBoxGame.mousehover self) g
                 = (Raise (AttributeError "no such object"), g)).
    { unfold SpriteBoxGame.mousehover, Camera.mouse. rewrite !run_bind.
      cbn [run gets fst snd]. rewrite !run_bind. cbn [run Camera.getattr].
      rewrite Hc. reflexivity. }
    split; [exact Rh|].
    unfold SpriteBoxGame.mouseclick. rewrite run_bind, Rh. reflexivity.
Qed.
End exact_hover.

(** * Rendered text *)

Section text.
Context {F : Type} `{PyNum F} `{Externals} `{Screen}.
Import _ImageCache.

Lemma run_lift_cache {A} (c : M World A) (g : Game F) :
  run (lift_cache c) g =
  (fst (run c (world (state g))),
   set_state (set_world (snd (run c (world (state g)))) (state g)) g).
Proof. unfold lift_cache. rewrite run_lift_state, run_lift_world. reflexivity. Qed.

Lemma run_render_text_unhashable text fontsize color bold italic (g : Game F) :
  hashable color = false ->
  run (_TextCache.render_text (F := F) text fontsize color bold italic) g
    = (Raise (TypeError "unhashable type"), g).
Proof. intros Hh. unfold _TextCache.render_text. rewrite Hh. reflexivity. Qed.

Lemma run_render_text_hit text fontsize color bold italic (g : Game F) image :
  hashable color = true ->
  _known_text g !! (text, fontsize, color, bold, italic) = Some image ->
  run (_TextCache.render_text text fontsize color bold italic) g = (Ok image, g).
Proof.
  intros Hh Hk. unfold _TextCache.render_text. rewrite Hh, run_bind. cbn [run gets fst snd].
  rewrite Hk. reflexivity.
Qed.

Lemma run_render_text_fail text fontsize color bold italic (g : Game F) e :
  hashable color = true ->
  _known_text g !! (text, fontsize, color, bold, italic) = None ->
  font_render text fontsize color bold italic = Raise e ->
  run (_TextCache.render_text (F := F) text fontsize color bold italic) g = (Raise e, g).
Proof.
  intros Hh Hk Hf. unfold _TextCache.render_text. rewrite Hh, run_bind.
  cbn [run gets fst snd].
  rewrite Hk, run_bind, run_lift_cache. unfold _TextCache.render. rewrite Hf.
  cbn [run raise fst snd]. f_equal. destruct g as [[]]; reflexivity.
Qed.

Lemma run_render_text_miss text fontsize color bold italic (g : Game F) w h px :
  hashable color = true ->
  _known_text g !! (text, fontsize, color, bold, italic) = None ->
  font_render text fontsize color bold italic = Ok (w, h, px) ->
  let image := rendered g w h px in
  let w1 := set_next_id N.succ (world (state g)) in
  run (_TextCache.render_text text fontsize color bold italic) g =
  (Ok image,
   set_state
     (set_world (if decide (is_Some (_known_images w1 !! _ImageKey_of (surface_key image)))
                 then w1 else register image w1) (state g))
     (set_known_text <[(text, fontsize, color, bold, italic) := image]> g)).
Proof.
  intros Hh Hk Hf image w1. unfold _TextCache.render_text.
  rewrite Hh, run_bind. cbn [run gets fst snd].
  rewrite Hk, run_bind, run_lift_cache. unfold _TextCache.render. rewrite Hf.
  cbn [run new_surface fst snd]. fold (rendered g w h px). fold image. fold w1.
  rewrite run_bind. cbn [run modify fst snd].
  rewrite run_bind, run_lift_cache, run_cache_surface.
  cbn [fst snd run ret state set_state set_known_text world set_world].
  reflexivity.
Qed.
End text.

Section text_claims.
Context {F : Type} `{PyNum F} `{Externals} `{Screen}.
Import _ImageCache.

(** X18: [render_text] renders a text once.  A call that returns an image
    leaves a game in which the same call returns the identical surface
    object and changes nothing.  The first call made one surface, of the
    size pygame's font gave it, exactly when the text cache did not hold the
    key; a call that found the key changed nothing at all.  A call raises in
    two cases, and then changes nothing: [TypeError] for a colour that cannot
    be hashed, a list or a [pygame.Color], at the lookup in the text cache;
    and the exception of pygame when it refuses to render.  No call touches
    a box. *)
Theorem render_text_renders_once text fontsize color bold italic (g : Game F) :
  let key := (text, fontsize, color, bold, italic) in
  let call := _TextCache.render_text (F := F) text fontsize color bold italic in
  (forall image g',
     run call g = (Ok image, g') ->
     hashable color = true /\
     run call g' = (Ok image, g') /\
     _known_text g' !! key = Some image /\
     boxes (state g') = boxes (state g) /\
     (is_Some (_known_text g !! key) -> g' = g) /\
     (_known_text g !! key = None ->
      exists w h px,
        font_render text fontsize color bold italic = Ok (w, h, px) /\
        image = rendered g w h px /\
        next_id (world (state g')) = N.succ (next_id (world (state g))) /\
        _known_text g' = <[key := image]> (_known_text g) /\
        is_Some (_known_images (world (state g')) !! _ImageKey_of (surface_key image)))) /\
  (forall e g',
     run call g = (Raise e, g') ->
     g' = g /\
     ((hashable color = false /\ exists msg, e = TypeError msg) \/
      (hashable color = true /\ _known_text g !! key = None /\
       font_render text fontsize color bold italic = Raise e))) /\
  (hashable color = false -> exists msg, run call g = (Raise (TypeError msg), g)).
Proof.
  intros key call. subst call.
  destruct (hashable color) eqn:Hh.
  2:{ rewrite (run_render_text_unhashable _ _ _ _ _ _ Hh). split; [|split].
      - intros image g' E. discriminate.
      - intros e g' E. injection E as <- <-. split; [reflexivity|]. left.
        split; [reflexivity|]. eauto.
      - intros _. eauto. }
  destruct (_known_text g !! key) as [known|] eqn:Hk.
  - (* the key is in the text cache *)
    rewrite (run_render_text_hit _ _ _ _ _ _ _ Hh Hk). split; [|split].
    + intros image g' E. injection E as <- <-. split; [reflexivity|].
      split; [apply run_render_text_hit; [exact Hh | exact Hk]|].
      split; [exact Hk|]. split; [reflexivity|]. split; [reflexivity|]. discriminate.
    + intros e g' E. discriminate.
    + discriminate.
  - destruct (font_render text fontsize color bold italic) as [[[w h] px]|e0] eqn:Hf.
    + (* rendered now *)
      rewrite (run_render_text_miss _ _ _ _ _ _ _ _ _ Hh Hk Hf). split; [|split].
      * intros image g' E. injection E as <- <-.
        set (image := rendered g w h px).
        set (w1 := set_next_id N.succ (world (state g))).
        assert (Hk' : forall s', _known_text
                        (set_state s' (set_known_text <[key := image]> g)) !! key
                      = Some image)
          by (intros s'; cbn [_known_text set_state set_known_text]; apply lookup_insert_eq).
        split; [reflexivity|].
        split; [apply run_render_text_hit; [exact Hh | apply Hk']|].
        split; [apply Hk'|]. split; [reflexivity|].
        split; [intros [v Hv]; discriminate|]. intros _.
        exists w, h, px. split; [reflexivity|]. split; [reflexivity|].
        cbn [state set_state world set_world _known_text set_known_text].
        split.
        { destruct (decide _); reflexivity. }
        split; [reflexivity|].
        destruct (decide _) as [Hin|_]; [exact Hin|].
        rewrite lookup_register_sentinel. eauto.
      * intros e g' E. discriminate.
      * discriminate.
    + rewrite (run_render_text_fail _ _ _ _ _ _ _ Hh Hk Hf). split; [|split].
      * intros image g' E. discriminate.
      * intros e g' E. injection E as <- <-. split; [reflexivity|]. right.
        repeat split; reflexivity.
      * discriminate.
Qed.

(** X19: two boxes made by [from_text] with the same text, size, style and
    colour, a colour that can be hashed, share one image.  When the text is
    new, pygame renders it, and the identity of the surface it renders is not
    in use in the image cache, the first call renders it and the second
    renders nothing: both boxes show the identical surface object at its own
    size, each at its own place, and one surface was made in all. *)
Theorem from_text_shares_the_image (g : Game F) (x1 y1 x2 y2 : F)
    text fontsize color bold italic w h px :
  num_int (num_add SpriteBox.zero SpriteBox.half) = Ok 0 ->
  num_int SpriteBox.zero = Ok 0 ->
  hashable color = true ->
  _known_text g !! (text, fontsize, color, bold, italic) = None ->
  font_render text fontsize color bold italic = Ok (w, h, px) ->
  let image := rendered g w h px in
  _known_images (world (state g)) !! _ImageKey_of (surface_key image) = None ->
  let n := next_box (state g) in
  let showing (x y : F) :=
    box.mk x y SpriteBox.zero SpriteBox.zero (Some (natural_key image)) (Some image) None
      (num_of_Z w) (num_of_Z h) in
  exists g1 g2,
    run (SpriteBoxGame.from_text x1 y1 text fontsize color bold italic) g = (Ok n, g1) /\
    run (SpriteBoxGame.from_text x2 y2 text fontsize color bold italic) g1
      = (Ok (N.succ n), g2) /\
    boxes (state g2) = <[N.succ n := showing x2 y2]> (<[n := showing x1 y1]> (boxes (state g))) /\
    world (state g1) = register image (set_next_id N.succ (world (state g))) /\
    world (state g2) = world (state g1).
Proof.
  intros Hhalf Hzero Hh Hk Hf image Hfresh n showing.
  unfold SpriteBoxGame.from_text.
  rewrite run_bind, (run_render_text_miss _ _ _ _ _ _ _ _ _ Hh Hk Hf). cbn [fst snd].
  fold image. set (w1 := set_next_id N.succ (world (state g))).
  destruct (decide (is_Some (_known_images w1 !! _ImageKey_of (surface_key image))))
    as [[v Hv]|_].
  { cbn [w1 _known_images set_next_id] in Hv. congruence. }
  set (key := (text, fontsize, color, bold, italic)).
  set (ga := set_state _ (set_known_text _ g)).
  assert (Hid : forall v, _known_images (world (state ga)) !! _ImageKey_of (surface_key image)
                          = Some v -> v = image).
  { intros v. cbn [ga state set_state world set_world].
    rewrite lookup_register_sentinel. congruence. }
  destruct (new_shows_surface (state ga) x1 y1 image Hhalf Hzero Hid)
    as (s1 & Hrun1 & Hworld1 & Hboxes1 & Hnext1).
  rewrite run_lift_state, Hrun1. cbn [fst snd].
  set (g1 := set_state s1 ga).
  assert (Hk1 : _known_text g1 !! key = Some image)
    by (cbn [g1 ga _known_text set_state set_known_text]; apply lookup_insert_eq).
  assert (Hw1 : world (state g1) = register image w1).
  { cbn [g1 state set_state]. rewrite Hworld1. cbn [ga state set_state world set_world].
    apply register_idem. }
  assert (Hid1 : forall v, _known_images (world (state g1)) !! _ImageKey_of (surface_key image)
                           = Some v -> v = image).
  { intros v. rewrite Hw1, lookup_register_sentinel. congruence. }
  destruct (new_shows_surface (state g1) x2 y2 image Hhalf Hzero Hid1)
    as (s2 & Hrun2 & Hworld2 & Hboxes2 & Hnext2).
  exists g1, (set_state s2 g1).
  split; [reflexivity|].
  split.
  { rewrite run_bind, (run_render_text_hit _ _ _ _ _ _ _ Hh Hk1). cbn [fst snd].
    rewrite run_lift_state, Hrun2. cbn [fst snd]. f_equal. f_equal.
    cbn [g1 state set_state]. exact Hnext1. }
  split.
  { cbn [state set_state]. rewrite Hboxes2. cbn [g1 state set_state].
    rewrite Hboxes1, Hnext1. reflexivity. }
  split; [exact Hw1|].
  cbn [state set_state]. rewrite Hworld2, Hw1. apply register_idem.
Qed.
End text_claims.

(** * The event loop *)

Section loop_lemmas.
Context {F : Type} `{PyNum F}.

Lemma event_loop_eq (callback : M (Game F) unit) limit frames events :
  event_loop callback limit frames events =
  if goes_on limit frames then
    match events with
    | [] => ret None
    | event :: events =>
        match event with
        | QUIT => ret (Some frames)
        | KEYDOWN key =>
            if key =? Key.K_ESCAPE then ret (Some frames)
            else
              Camera.setattr (camera.set_keys (fun keys => {[ key ]} ∪ keys));;
              event_loop callback limit frames events
        | KEYUP key =>
            let* keys := Camera.getattr camera.keys in
            (if bool_decide (key ∈ keys)
             then Camera.setattr (camera.set_keys (fun keys => keys ∖ {[ key ]}))
             else ret tt);;
            event_loop callback limit frames events
        | USEREVENT =>
            callback;;
            event_loop callback limit (frames + 1) events
        | OtherEvent => event_loop callback limit frames events
        end
    end
  else ret (Some frames).
Proof. destruct events; reflexivity. Qed.

Lemma ticks_nonneg (events : list Event) : 0 <= ticks events.
Proof. induction events as [|[] events IH]; cbn [ticks]; lia. Qed.

(** Where the loop has stopped with [n] frames counted: no frame is lost,
    each one took a tick, a limit above zero is not passed, and short of the
    limit only an event that stops the loop ends it. *)
Lemma event_loop_frames (callback : M (Game F) unit) limit events :
  forall frames (g g' : Game F) n,
    run (event_loop callback limit frames events) g = (Ok (Some n), g') ->
    frames <= n /\
    n - frames <= ticks events /\
    (goes_on limit n = true -> Exists (fun e => stops e = true) events) /\
    (forall l, limit = Some l -> 0 < l -> frames <= l -> n <= l).
Proof.
  assert (Hstep : forall event events frames n,
            (frames <= n /\
             n - frames <= ticks events /\
             (goes_on limit n = true -> Exists (fun e => stops e = true) events) /\
             (forall l, limit = Some l -> 0 < l -> frames <= l -> n <= l)) ->
            frames <= n /\
            n - frames <= ticks (event :: events) /\
            (goes_on limit n = true ->
             Exists (fun e => stops e = true) (event :: events)) /\
            (forall l, limit = Some l -> 0 < l -> frames <= l -> n <= l)).
  { intros event evs frames n (H1 & H2 & H3 & H4).
    split; [exact H1|]. split.
    - pose proof (ticks_nonneg evs). destruct event; cbn [ticks]; lia.
    - split; [intros Hn; apply Exists_cons_tl, H3, Hn | exact H4]. }
  assert (Hstop : forall event events frames,
            stops event = true \/ goes_on limit frames = false ->
            frames <= frames /\
            frames - frames <= ticks (event :: events) /\
            (goes_on limit frames = true ->
             Exists (fun e => stops e = true) (event :: events)) /\
            (forall l, limit = Some l -> 0 < l -> frames <= l -> frames <= l)).
  { intros event evs frames Hs. split; [lia|].
    split; [pose proof (ticks_nonneg (event :: evs)); lia|]. split.
    - intros Hn. destruct Hs as [Hs|Hs]; [|congruence]. apply Exists_cons_hd. exact Hs.
    - intros l _ _ Hle. exact Hle. }
  induction events as [|event events IH]; intros frames g g' n; rewrite event_loop_eq;
    destruct (goes_on limit frames) eqn:Hgo.
  - discriminate.
  - intros E. injection E as <- <-. split; [lia|]. split; [cbn [ticks]; lia|].
    split; [congruence|]. intros l _ _ Hle. exact Hle.
  - destruct event as [|key|key| |].
    + intros E. injection E as <- <-.
      destruct (Hstop QUIT events frames (or_introl eq_refl)) as (H1 & H2 & H3 & H4).
      split; [exact H1|]. split; [exact H2|]. split; assumption.
    + destruct (key =? Key.K_ESCAPE) eqn:Hesc.
      * intros E. injection E as <- <-.
        destruct (Hstop (KEYDOWN key) events frames (or_introl Hesc)) as (H1 & H2 & H3 & H4).
        split; [exact H1|]. split; [exact H2|]. split; assumption.
      * rewrite run_bind.
        destruct (run (Camera.setattr _) g) as [[[]|e] g1]; [|discriminate].
        intros E. apply Hstep. apply (IH _ _ _ _ E).
    + rewrite run_bind.
      destruct (run (Camera.getattr camera.keys) g) as [[keys|e] g1]; [|discriminate].
      rewrite run_bind.
      lazymatch goal with
      | |- match run ?c g1 with _ => _ end = _ -> _ =>
          destruct (run c g1) as [[[]|e] g2]; [|discriminate]
      end.
      intros E. apply Hstep. apply (IH _ _ _ _ E).
    + rewrite run_bind. destruct (run callback g) as [[[]|e] g1]; [|discriminate].
      intros E. destruct (IH _ _ _ _ E) as (H1 & H2 & H3 & H4).
      split; [lia|]. split.
      { cbn [ticks]. lia. }
      split; [intros Hn; apply Exists_cons_tl, H3, Hn|].
      intros l Hl Hpos Hle. apply (H4 l Hl Hpos).
      unfold goes_on, not_limit in Hgo. rewrite Hl in Hgo. cbn [default] in Hgo.
      destruct (l =? 0) eqn:Hz; [apply Z.eqb_eq in Hz; lia|].
      cbn [orb] in Hgo. apply Z.ltb_lt in Hgo. unfold id in Hgo. lia.
    + intros E. apply Hstep. apply (IH _ _ _ _ E).
  - intros E. injection E as <- <-.
    destruct (Hstop event events frames (or_intror Hgo)) as (H1 & H2 & H3 & H4).
    split; [exact H1|]. split; [exact H2|]. split; assumption.
Qed.
End loop_lemmas.

Section loop_claims.
Context {F : Type} `{PyNum F}.

Lemma set_instance_id (g : Game F) (c : camera.t F) :
  instance g = Some c -> set_instance (Some c) g = g.
Proof. destruct g. cbn. intros ->. reflexivity. Qed.

Lemma run_is_pressed (g : Game F) (c : camera.t F) (key : Z) :
  instance g = Some c ->
  run (Key.is_pressed key) g = (Ok (bool_decide (key ∈ camera.keys c)), g).
Proof.
  intros Hc. unfold Key.is_pressed. rewrite run_bind, (run_camera_getattr _ _ _ Hc).
  reflexivity.
Qed.

Lemma ticks_app (events events' : list Event) :
  ticks (events ++ events') = ticks events + ticks events'.
Proof. induction events as [|[] events IH]; cbn [app ticks]; lia. Qed.

Lemma handle_all_ticks (callback : M (Game F) unit) (k : nat) :
  handle_all callback (repeat USEREVENT k) = times k callback.
Proof.
  induction k as [|k IH]; [reflexivity|].
  cbn [repeat handle_all handle times]. rewrite IH. reflexivity.
Qed.

(** The run of the loop up to the tick that reaches the limit [n], through
    events none of which stops it. *)
Lemma event_loop_until_limit (callback : M (Game F) unit) (n : Z) (rest : list Event) :
  0 < n ->
  forall (events : list Event) (frames : Z) (g : Game F),
    Forall (fun event => stops event = false) events ->
    frames + ticks events + 1 = n ->
    run (event_loop callback (Some n) frames (events ++ USEREVENT :: rest)) g =
    match run (handle_all callback (events ++ [USEREVENT])) g with
    | (Ok tt, g') => (Ok (Some n), g')
    | (Raise e, g') => (Raise e, g')
    end.
Proof.
  intros Hpos.
  assert (Hgo : forall frames, frames < n -> goes_on (Some n) frames = true).
  { intros frames Hlt. unfold goes_on. apply Bool.orb_true_iff. right.
    cbn [default]. unfold id. apply Z.ltb_lt. exact Hlt. }
  assert (Hend : goes_on (Some n) n = false).
  { unfold goes_on, not_limit. cbn [default]. unfold id.
    apply Bool.orb_false_iff. split; [apply Z.eqb_neq | apply Z.ltb_ge]; lia. }
  induction events as [|event events IH]; intros frames g Hev Hsum.
  - cbn [ticks] in Hsum. cbn [app handle_all handle].
    rewrite event_loop_eq, Hgo by lia. rewrite !run_bind.
    destruct (run callback g) as [[[]|e] g1]; [|reflexivity].
    rewrite event_loop_eq. replace (frames + 1) with n by lia. rewrite Hend. reflexivity.
  - apply Forall_cons in Hev. destruct Hev as [Hstop Hev].
    pose proof (ticks_nonneg events) as Hnn.
    cbn [app handle_all]. rewrite event_loop_eq, Hgo
      by (destruct event; cbn [ticks] in Hsum; lia).
    destruct event as [|key|key| |]; cbn [handle ticks stops] in *.
    + discriminate.
    + rewrite Hstop. rewrite !run_bind.
      destruct (run (Camera.setattr _) g) as [[[]|e] g1]; [|reflexivity].
      apply IH; [exact Hev | lia].
    + rewrite !run_bind.
      destruct (run (Camera.getattr camera.keys) g) as [[keys|e] g1]; [|reflexivity].
      rewrite run_bind.
      destruct (run (if bool_decide (key ∈ keys)
                     then Camera.setattr (camera.set_keys (fun keys => keys ∖ {[ key ]}))
                     else ret tt) g1) as [[[]|e] g2]; [|reflexivity].
      apply IH; [exact Hev | lia].
    + rewrite !run_bind.
      destruct (run callback g) as [[[]|e] g1]; [|reflexivity].
      apply IH; [exact Hev | lia].
    + rewrite run_bind. cbn [run ret]. apply IH; [exact Hev | lia].
Qed.

(** X20: what the result of [timer_loop] says.  When it returns, the timer
    is stopped.  It returns [True] only when a limit was given that is not
    negative and at least that many ticks came, and with the limit 0 only
    when an event stopped the loop; it returns [False] only when no limit
    was given, the limit is negative, or the window was closed or Escape
    pressed. *)
Theorem timer_loop_result (fps : Z) (callback : M (Game F) unit) (limit : option Z)
    (events : list Event) (g g' : Game F) (b : bool) :
  run (timer_loop fps callback limit events) g = (Ok (Some b), g') ->
  timer g' = 0 /\
  (b = true ->
   exists n, limit = Some n /\ 0 <= n <= ticks events /\
             (n = 0 -> Exists (fun e => stops e = true) events)) /\
  (b = false ->
   limit = None \/
   exists n, limit = Some n /\ (n < 0 \/ Exists (fun e => stops e = true) events)).
Proof.
  unfold timer_loop. rewrite run_bind.
  destruct (run (py_div _ _) g) as [[quotient|e] g1]; [|discriminate].
  rewrite run_bind.
  destruct (num_int quotient) as [interval|e]; [|discriminate].
  cbn [run ret]. rewrite run_bind. cbn [run modify]. rewrite run_bind.
  destruct (run (event_loop callback limit 0 events) (set_timer interval g1))
    as [[[n|]|e] g2] eqn:Hloop; [| |discriminate].
  2:{ cbn [run ret]. discriminate. }
  rewrite run_bind. cbn [run modify ret]. intros E. injection E as <- <-.
  destruct (event_loop_frames _ _ _ _ _ _ _ Hloop) as (H1 & H2 & H3 & H4).
  split; [reflexivity|].
  assert (Hgo : forall l, limit = Some l -> (l =? 0) = true \/ n < l ->
                          goes_on limit n = true).
  { intros l -> Hl. unfold goes_on, not_limit. cbn [default]. unfold id.
    apply Bool.orb_true_iff. destruct Hl as [Hl|Hl]; [left; exact Hl|].
    right. apply Z.ltb_lt. exact Hl. }
  split.
  - destruct limit as [l|]; [|discriminate]. intros Hb. apply Z.eqb_eq in Hb. subst l.
    exists n. split; [reflexivity|]. split; [lia|].
    intros ->. apply H3, (Hgo 0 eq_refl). left. reflexivity.
  - destruct limit as [l|]; [|left; reflexivity]. intros Hb. apply Z.eqb_neq in Hb.
    right. exists l. split; [reflexivity|].
    destruct (Z.lt_trichotomy l 0) as [Hneg|[->|Hpos]].
    + left. exact Hneg.
    + right. apply H3, (Hgo 0 eq_refl). left. reflexivity.
    + right. apply H3, (Hgo l eq_refl). right.
      pose proof (H4 l eq_refl Hpos ltac:(lia)). lia.
Qed.

(** X21: with a limit of [n] above zero, [timer_loop] runs up to the
    [n]-th tick and no further.  When no [QUIT] and no Escape comes before
    the [n]-th tick, it handles the events up to that tick in their order,
    with one call of the callback for each tick and the set of keys brought
    up to date for each key event, reads no event after it, stops the timer
    and returns [True]; so for a stream that starts with [n] ticks the
    callback is called [n] times.  When handling an event raises, as a call
    of the callback may, the exception comes out of [timer_loop] and the
    timer keeps running. *)
Theorem timer_loop_counts_ticks (fps : Z) (callback : M (Game F) unit) (n : Z)
    (events rest : list Event) (g : Game F) (interval : Z) :
  0 < n ->
  num_eqb (num_of_Z (if 60 <? fps then 60 else fps)) (num_of_Z (F := F) 0) = false ->
  num_int (num_div (num_of_Z 1000) (num_of_Z (F := F) (if 60 <? fps then 60 else fps)))
    = Ok interval ->
  Forall (fun event => stops event = false) events ->
  ticks (events ++ [USEREVENT]) = n ->
  run (timer_loop fps callback (Some n) (events ++ USEREVENT :: rest)) g =
    match run (handle_all callback (events ++ [USEREVENT])) (set_timer interval g) with
    | (Ok tt, g') => (Ok (Some true), set_timer 0 g')
    | (Raise e, g') => (Raise e, g')
    end /\
  (events = repeat USEREVENT (Z.to_nat (n - 1)) ->
   run (timer_loop fps callback (Some n) (events ++ USEREVENT :: rest)) g =
     match run (times (Z.to_nat n) callback) (set_timer interval g) with
     | (Ok tt, g') => (Ok (Some true), set_timer 0 g')
     | (Raise e, g') => (Raise e, g')
     end).
Proof.
  intros Hpos Hfps Hint Hev Hticks.
  assert (Hmain : run (timer_loop fps callback (Some n) (events ++ USEREVENT :: rest)) g =
            match run (handle_all callback (events ++ [USEREVENT])) (set_timer interval g) with
            | (Ok tt, g') => (Ok (Some true), set_timer 0 g')
            | (Raise e, g') => (Raise e, g')
            end).
  { unfold timer_loop.
    rewrite run_bind. unfold py_div. rewrite Hfps. cbn [run ret].
    rewrite Hint, run_bind. cbn [run ret]. rewrite run_bind. cbn [run modify].
    rewrite run_bind.
    rewrite (event_loop_until_limit callback n rest Hpos events 0 _ Hev)
      by (rewrite ticks_app in Hticks; cbn [ticks] in Hticks; lia).
    destruct (run (handle_all callback (events ++ [USEREVENT])) (set_timer interval g))
      as [[[]|e] g1]; [|reflexivity].
    rewrite run_bind. cbn [run modify ret]. rewrite Z.eqb_refl. reflexivity. }
  split; [exact Hmain|].
  intros ->. rewrite Hmain.
  replace (repeat USEREVENT (Z.to_nat (n - 1)) ++ [USEREVENT])
    with (repeat USEREVENT (Z.to_nat n)).
  - rewrite handle_all_ticks. reflexivity.
  - replace (Z.to_nat n) with (Z.to_nat (n - 1) + 1)%nat by lia.
    rewrite repeat_app. reflexivity.
Qed.

(** X22: the loop keeps [Camera.instance.keys] up to the events.  After a
    run of events among which none is a tick, a [QUIT] or Escape going down,
    the loop goes on with the rest in a game where [key.is_pressed()] tells,
    for every key, what its last [KEYDOWN] or [KEYUP] was, and for a key
    with no event what it told before.  A [KEYUP] of a key that is not down
    is no error.  Nothing but the set of keys has changed. *)
Theorem keys_follow_the_events (callback : M (Game F) unit) (limit : option Z)
    (frames : Z) (events rest : list Event) (g : Game F) (c : camera.t F) :
  instance g = Some c ->
  goes_on limit frames = true ->
  Forall (fun e => stops e = false /\ e <> USEREVENT) events ->
  exists keys,
    let g' := set_instance (Some (camera.set_keys (fun _ => keys) c)) g in
    run (event_loop callback limit frames (events ++ rest)) g =
    run (event_loop callback limit frames rest) g' /\
    forall key,
      run (Key.is_pressed key) g' =
      (Ok (pressed_after key events (bool_decide (key ∈ camera.keys c))), g').
Proof.
  intros Hc Hgo Hev. revert g c Hc.
  induction Hev as [|event events [Hstop Htick] Hev IH]; intros g c Hc.
  - exists (camera.keys c). cbv zeta.
    assert (E : camera.set_keys (fun _ => camera.keys c) c = c) by (destruct c; reflexivity).
    rewrite E, (set_instance_id _ _ Hc). split; [reflexivity|].
    intros key. apply run_is_pressed. exact Hc.
  - cbn [app]. rewrite event_loop_eq, Hgo.
    assert (Hnext : forall keys1,
              let g1 := set_instance (Some (camera.set_keys (fun _ => keys1) c)) g in
              exists keys,
                let g' := set_instance (Some (camera.set_keys (fun _ => keys) c)) g in
                run (event_loop callback limit frames (events ++ rest)) g1 =
                run (event_loop callback limit frames rest) g' /\
                forall key,
                  run (Key.is_pressed key) g' =
                  (Ok (pressed_after key events (bool_decide (key ∈ keys1))), g')).
    { intros keys1 g1.
      destruct (IH g1 (camera.set_keys (fun _ => keys1) c) eq_refl) as (keys & Hrun & Hkeys).
      exists keys. exact (conj Hrun Hkeys). }
    destruct event as [|k|k| |].
    + discriminate.
    + cbn [stops] in Hstop. rewrite Hstop.
      rewrite run_bind, (run_camera_setattr _ _ _ Hc).
      destruct (Hnext ({[ k ]} ∪ camera.keys c)) as (keys & Hrun & Hkeys).
      exists keys. split; [exact Hrun|]. intros key. rewrite Hkeys. cbn [pressed_after].
      do 3 f_equal. destruct (Z.eqb_spec k key) as [->|Hne].
      * apply bool_decide_eq_true, elem_of_union. left. apply elem_of_singleton. reflexivity.
      * apply bool_decide_ext. rewrite elem_of_union, elem_of_singleton.
        split; [intros [E|Hin]; [congruence|exact Hin] | intros Hin; right; exact Hin].
    + rewrite run_bind, (run_camera_getattr _ _ _ Hc), run_bind.
      destruct (Hnext (camera.keys c ∖ {[ k ]})) as (keys & Hrun & Hkeys).
      exists keys. split.
      * destruct (bool_decide (k ∈ camera.keys c)) eqn:Hin.
        -- rewrite (run_camera_setattr _ _ _ Hc). exact Hrun.
        -- cbn [run ret]. rewrite <- Hrun. cbv zeta. f_equal.
           apply bool_decide_eq_false in Hin.
           assert (E : camera.keys c ∖ {[ k ]} = camera.keys c)
             by (apply difference_disjoint_L, disjoint_singleton_r; exact Hin).
           rewrite E.
           assert (E' : camera.set_keys (fun _ => camera.keys c) c = c)
             by (destruct c; reflexivity).
           rewrite E'. symmetry. apply set_instance_id. exact Hc.
      * intros key. rewrite Hkeys. cbn [pressed_after].
        do 3 f_equal. destruct (Z.eqb_spec k key) as [->|Hne].
        -- apply bool_decide_eq_false. rewrite elem_of_difference, elem_of_singleton.
           intros [_ Hn]. apply Hn. reflexivity.
        -- apply bool_decide_ext. rewrite elem_of_difference, elem_of_singleton.
           split; [intros [Hin _]; exact Hin | intros Hin; split; [exact Hin|congruence]].
    + contradiction.
    + destruct (Hnext (camera.keys c)) as (keys & Hrun & Hkeys).
      exists keys. split; [|exact Hkeys].
      rewrite <- Hrun. cbv zeta. f_equal.
      assert (E' : camera.set_keys (fun _ => camera.keys c) c = c)
        by (destruct c; reflexivity).
      rewrite E'. symmetry. apply set_instance_id. exact Hc.
Qed.
End loop_claims.

(** * The further properties on concrete boxes and games *)

(** The absolute value of the rationals is exact. *)
#[export, refine] Instance Q_ExactAbs : ExactAbs Q := {| toQ_abs := _ |}.
Proof. intros a. reflexivity. Defined.


Section more_examples.
Import SpriteBox.

Lemma set_edge_reads_back_witness :
  reads_edges (snd (run (set_left 0%N 3%Q) crate_and_coin)) 0%N
    3%Q (3 + 10)%Q (0 - 10 / 2)%Q (0 + 10 / 2)%Q.
Proof.
  assert (Hs : boxes crate_and_coin !! 0%N = Some crate) by (vm_compute; reflexivity).
  exact (proj1 (set_edge_reads_back crate_and_coin 0%N crate 3%Q Hs)).
Defined.

Lemma contains_strictly_inside_witness :
  run (contains 0%N 1%Q 1%Q) crate_and_coin = (Ok true, crate_and_coin) /\
  run (contains 0%N 5%Q 1%Q) crate_and_coin = (Ok false, crate_and_coin).
Proof.
  assert (Hs : boxes crate_and_coin !! 0%N = Some crate) by (vm_compute; reflexivity).
  split.
  - destruct (contains_strictly_inside crate_and_coin 0%N crate 1%Q 1%Q Hs)
      as (inside & Hrun & Hin & _).
    assert (E : inside = true) by (apply Hin; vm_compute; repeat split).
    rewrite <- E. exact Hrun.
  - destruct (contains_strictly_inside crate_and_coin 0%N crate 5%Q 1%Q Hs)
      as (inside & Hrun & Hin & _).
    assert (E : inside = false).
    { destruct inside; [|reflexivity]. destruct (proj1 Hin eq_refl) as (_ & Hr & _).
      vm_compute in Hr. discriminate. }
    rewrite <- E. exact Hrun.
Defined.
End more_examples.

Section more_exact_examples.
Import SpriteBox.
Local Open Scope Q_scope.

Lemma one_edge_touches_witness :
  run (right_touches 0%N 1%N 0 None) crate_and_coin = (Ok true, crate_and_coin) /\
  run (left_touches 0%N 1%N 0 None) crate_and_coin = (Ok false, crate_and_coin) /\
  run (top_touches 0%N 1%N 0 None) crate_and_coin = (Ok false, crate_and_coin) /\
  run (bottom_touches 0%N 1%N 0 None) crate_and_coin = (Ok false, crate_and_coin).
Proof.
  assert (Hs : boxes crate_and_coin !! 0%N = Some crate) by (vm_compute; reflexivity).
  assert (Ho : boxes crate_and_coin !! 1%N = Some coin) by (vm_compute; reflexivity).
  pose proof (one_edge_touches crate_and_coin 0%N 1%N crate coin 0 None Hs Ho) as Hx.
  cbv beta iota zeta delta [box_gaps] in Hx.
  destruct Hx as (bottom & top & left & right & touching & Rb & Rt & Rl & Rr & _ & Hone
                  & _ & _ & Hright & Hleft & Hbottom & Htop).
  assert (Hlt : toQ (py_max4 (num_sub (num_sub (box_left coin) (box_right crate)) 0)
                       (num_sub (num_sub (box_left crate) (box_right coin)) 0)
                       (num_sub (num_sub (box_top coin) (box_bottom crate)) (default 0 None))
                       (num_sub (num_sub (box_top crate) (box_bottom coin)) (default 0 None)))
                < 1) by (vm_compute; reflexivity).
  specialize (Hone Hlt).
  assert (El : left = false).
  { destruct left; [|reflexivity]. specialize (Hleft eq_refl). vm_compute in Hleft.
    discriminate. }
  assert (Et : top = false).
  { destruct top; [|reflexivity]. specialize (Htop eq_refl). vm_compute in Htop.
    discriminate. }
  assert (Eb : bottom = false).
  { destruct bottom; [|reflexivity]. specialize (Hbottom eq_refl). vm_compute in Hbottom.
    discriminate. }
  assert (Er : right = true).
  { rewrite El, Et, Eb in Hone. destruct right; [reflexivity|discriminate]. }
  subst left top bottom right. repeat split; assumption.
Defined.

Lemma touches_symmetric_witness :
  run (touches 0%N 1%N 0 None) crate_and_coin = run (touches 1%N 0%N 0 None) crate_and_coin.
Proof.
  assert (Hs : boxes crate_and_coin !! 0%N = Some crate) by (vm_compute; reflexivity).
  assert (Ho : boxes crate_and_coin !! 1%N = Some coin) by (vm_compute; reflexivity).
  exact (touches_symmetric crate_and_coin 0%N 1%N crate coin 0 None Hs Ho).
Defined.

Lemma move_both_to_stop_overlapping_separates_witness :
  exists s1,
    run (move_both_to_stop_overlapping 0%N 1%N 0 None) coin_in_crate = (Ok tt, s1) /\
    run (overlap 0%N 1%N 0 None) s1 = (Ok (zero, zero), s1).
Proof.
  assert (Hne : 0%N <> 1%N) by discriminate.
  assert (Hs : boxes coin_in_crate !! 0%N = Some crate) by (vm_compute; reflexivity).
  assert (Ho : boxes coin_in_crate !! 1%N = Some (color_box 4 1 4 4))
    by (vm_compute; reflexivity).
  destruct (move_both_to_stop_overlapping_separates coin_in_crate 0%N 1%N crate
              (color_box 4 1 4 4) 0 None Hne Hs Ho)
    as (s1 & bs1 & bo1 & Hrun & _ & _ & Hover & _).
  exists s1. split; [exact Hrun | exact Hover].
Defined.

Lemma set_width_keeps_proportions_witness :
  exists b',
    run (set_width (H0 := example_externals) 0%N 5) crate_and_coin
      = (Ok tt, set_boxes <[0%N := b']> crate_and_coin) /\
    box._w b' == 5 /\ box._h b' == 10 * (5 / 10).
Proof.
  assert (Hs : boxes crate_and_coin !! 0%N = Some crate) by (vm_compute; reflexivity).
  pose proof (set_width_keeps_proportions (H1 := example_externals) crate_and_coin 0%N
                crate 5 Hs eq_refl) as Hx.
  cbv zeta in Hx. destruct Hx as (_ & Hw & _).
  assert (Hnz : ~ toQ (box._w crate) == 0) by (vm_compute; discriminate).
  destruct (Hw Hnz) as (b' & Hrun & Hwidth & _ & Hheight & _).
  exists b'. split; [exact Hrun|]. split; [exact Hwidth | exact Hheight].
Defined.
End more_exact_examples.

Section more_image_examples.
Import SpriteBox.
Local Open Scope float_scope.


(** The rotation that fails has written the key of the turned image, and
    the box still shows the image it showed. *)
Example failed_rotation_leaves_the_key :
  let s' := snd (run (mutate (H0 := example_externals) 0%N (MRotate 45)) wide_box) in
  box._key <$> boxes wide_box !! 0%N = Some (Some ("a.png"%string, false, 10000%Z, 10000%Z, 0%Z)) /\
  box._key <$> boxes s' !! 0%N = Some (Some ("a.png"%string, false, 10000%Z, 10000%Z, 45%Z)) /\
  box._image <$> boxes s' !! 0%N = box._image <$> boxes wide_box !! 0%N /\
  run (mutate (H0 := example_externals) 0%N (MSetImage (RefStr "nope.png"))) near_boxes
    = (Raise (ValueError (_ImageCache.fetch_error_message "nope.png")), near_boxes).
Proof. vm_compute. repeat split. Qed.

Lemma from_image_shows_the_surface_witness :
  exists s',
    run (from_image (H0 := example_externals) 0 0 (RefSurface drawn)) (example_state float)
      = (Ok 0%N, s') /\
    boxes s' = {[ 0%N := box.mk 0 0 zero zero (Some (natural_key drawn)) (Some drawn) None
                           (num_of_Z 3) (num_of_Z 2) ]} /\
    oplog (world s') = [].
Proof.
  assert (Hhalf : num_int (num_add (zero (F := float)) half) = Ok 0%Z)
    by (vm_compute; reflexivity).
  assert (Hzero : num_int (zero (F := float)) = Ok 0%Z) by (vm_compute; reflexivity).
  assert (Hid : forall v, _known_images (world (example_state float))
                            !! _ImageKey_of (_ImageCache.surface_key drawn) = Some v ->
                          v = drawn).
  { intros v Hv. cbn in Hv. rewrite lookup_empty in Hv. discriminate. }
  destruct (from_image_shows_the_surface (H0 := example_externals) (example_state float)
              0 0 drawn Hhalf Hzero Hid) as (s' & Hrun & Hworld & Hboxes & _).
  exists s'. split; [exact Hrun|]. split.
  - rewrite Hboxes. reflexivity.
  - rewrite Hworld. reflexivity.
Defined.

Lemma copy_at_shares_the_image_witness :
  run (copy_at (H0 := example_externals) 0%N 5 6) near_boxes =
  (Ok 2%N,
   {| world := world near_boxes;
      boxes := <[2%N := box.mk 5 6 zero zero None None (Some (ColorName "red")) 10 10]>
                 (boxes near_boxes);
      next_box := 3%N |}).
Proof.
  assert (Hs : boxes near_boxes !! 0%N = Some (color_box 0 0 10 10))
    by (vm_compute; reflexivity).
  assert (Hhalf : num_int (num_add (zero (F := float)) half) = Ok 0%Z)
    by (vm_compute; reflexivity).
  assert (Hzero : num_int (zero (F := float)) = Ok 0%Z) by (vm_compute; reflexivity).
  exact (proj1 (copy_at_shares_the_image (H0 := example_externals) near_boxes 0%N _ 5 6
                  Hs Hhalf Hzero) (ColorName "red") eq_refl eq_refl).
Defined.

Lemma color_setter_drops_the_image_witness :
  let s1 := set_boxes <[0%N := box.mk 0 0 zero zero None None (Some (ColorName "blue"))
                                  10 10]> near_boxes in
  run (set_color 0%N (ColorName "blue")) near_boxes = (Ok tt, s1) /\
  run (flip (H0 := example_externals) 0%N) s1 = (Ok tt, s1).
Proof.
  assert (Hs : boxes near_boxes !! 0%N = Some (color_box 0 0 10 10))
    by (vm_compute; reflexivity).
  pose proof (color_setter_drops_the_image (H0 := example_externals) near_boxes 0%N _
                (ColorName "blue") Hs) as Hx.
  cbv zeta in Hx |- *. destruct Hx as (Hset & Hflip & _).
  split; [exact Hset | exact Hflip].
Defined.

Lemma from_image_unknown_reference_witness :
  run (from_image (H0 := example_externals) 0 0 (RefStr "nope.png")) (example_state float)
    = (Raise (ValueError (_ImageCache.fetch_error_message "nope.png")), example_state float) /\
  run (from_image (H0 := example_externals) 0 0 (RefStr "no such file.png"))
      (example_state float)
    = (Raise (HTTPException "URL can't contain control characters"), example_state float).
Proof.
  assert (Hc : forall ref, _known_images (world (example_state float)) !! _ImageKey_of ref
                           = None)
    by (intros ref; apply lookup_empty).
  assert (Hf : files (world (example_state float)) !! "nope.png"%string = None)
    by (vm_compute; reflexivity).
  assert (Hb : url_basename (Externals := example_externals) "nope.png" = Ok "nope.png"%string)
    by (vm_compute; reflexivity).
  assert (Hw : web (world (example_state float)) !! fetched_url "nope.png" = None)
    by (vm_compute; reflexivity).
  assert (Hf' : files (world (example_state float)) !! "no such file.png"%string = None)
    by (vm_compute; reflexivity).
  assert (Hb' : url_basename (Externals := example_externals) "no such file.png"
                = Ok "no such file.png"%string)
    by (vm_compute; reflexivity).
  assert (Hw' : web (world (example_state float)) !! fetched_url "no such file.png" = None)
    by (vm_compute; reflexivity).
  split.
  - exact (proj1 (from_image_unknown_reference (H0 := example_externals)
                    (example_state float) 0 0 "nope.png" "nope.png" (Hc _) Hf Hb Hf Hw)).
  - exact (proj1 (from_image_unknown_reference (H0 := example_externals)
                    (example_state float) 0 0 "no such file.png" "no such file.png"
                    (Hc _) Hf' Hb' Hf' Hw')).
Defined.

Lemma load_file_decodes_once_witness :
  (exists w',
     run (_ImageCache.load_filename_or_url (H := example_externals) "a.png") example_world
       = (Ok a_png, w') /\
     run (_ImageCache.load_filename_or_url (H := example_externals) "a.png") w'
       = (Ok a_png, w') /\
     oplog w' = [OpLoad "a.png"]) /\
  (exists w',
     run (_ImageCache.load_filename_or_url (H := example_externals) "a.png")
       (set_video_mode false example_world)
       = (Raise (PygameError "No video mode has been set"), w') /\
     _known_images w' = ∅).
Proof.
  assert (Hc : _known_images example_world !! _ImageKey_of "a.png" = None)
    by (vm_compute; reflexivity).
  assert (Hf : files example_world !! "a.png"%string = Some (FileImage 3 2 7))
    by (vm_compute; reflexivity).
  split.
  - destruct (proj1 (load_file_decodes_once (H := example_externals) "a.png" example_world
                       3 2 7 Hc Hf) eq_refl)
      as (image & w' & Hrun & -> & Hlog & _ & _ & _ & _ & Hagain).
    exists w'. split; [exact Hrun|]. split; [exact Hagain | exact Hlog].
  - destruct (proj2 (load_file_decodes_once (H := example_externals) "a.png"
                       (set_video_mode false example_world) 3 2 7 Hc Hf) eq_refl)
      as (w' & Hrun & Hknown & _).
    exists w'. split; [exact Hrun | exact Hknown].
Defined.
End more_image_examples.

Section game_examples.
Local Open Scope Q_scope.

Lemma camera_edge_reads_back_witness :
  camera_reads (snd (run (Camera.set_right 100) (started Q)))
    (100 - inject_Z 800) (inject_Z 0) 800 600 /\
  camera_reads (snd (run (Camera.set_y 0) (started Q)))
    (inject_Z 0) (0 - inject_Z 600 / 2) 800 600.
Proof.
  assert (Hc : instance (started Q)
               = Some (camera.mk {| surf_id := 0; get_width := 800; get_height := 600;
                                    surf_pixels := PxDrawn 0 |}
                         Camera.zero Camera.zero ∅))
    by (vm_compute; reflexivity).
  pose proof (camera_edge_reads_back (started Q) _ 100 Hc) as Hx.
  pose proof (camera_edge_reads_back (started Q) _ 0 Hc) as Hy.
  cbv zeta in Hx, Hy.
  split; [exact (proj1 (proj2 Hx)) | exact (proj2 (proj2 (proj2 (proj2 (proj2 Hy)))))].
Defined.

Lemma camera_move_scrolls_witness :
  exists g',
    run (Camera.move 10 (-5)) (started Q) = (Ok tt, g') /\
    mouse_reads (started Q) (inject_Z 100 + inject_Z 0) (inject_Z 50 + inject_Z 0) /\
    mouse_reads g' (inject_Z 100 + inject_Z 0 + 10) (inject_Z 50 + inject_Z 0 + -5).
Proof.
  assert (Hc : instance (started Q)
               = Some (camera.mk {| surf_id := 0; get_width := 800; get_height := 600;
                                    surf_pixels := PxDrawn 0 |}
                         Camera.zero Camera.zero ∅))
    by (vm_compute; reflexivity).
  destruct (camera_move_scrolls (started Q) _ 10 (-5) [] Hc)
    as (g' & Hrun & _ & Hbefore & Hafter & _).
  exists g'. split; [exact Hrun|]. split; [exact Hbefore | exact Hafter].
Defined.
End game_examples.

Section float_game_examples.
Local Open Scope float_scope.

Lemma from_text_shares_the_image_witness :
  exists g1 g2 image,
    run (SpriteBoxGame.from_text (H1 := example_externals) (H2 := example_screen)
           0 0 "Hi" 20 (ColorName "white") false false) (example_game float)
      = (Ok 0%N, g1) /\
    run (SpriteBoxGame.from_text (H1 := example_externals) (H2 := example_screen)
           5 5 "Hi" 20 (ColorName "white") false false) g1
      = (Ok 1%N, g2) /\
    box._image <$> boxes (state g2) !! 0%N = Some (Some image) /\
    box._image <$> boxes (state g2) !! 1%N = Some (Some image) /\
    next_id (world (state g2)) = 1%N.
Proof.
  assert (Hhalf : num_int (num_add (SpriteBox.zero (F := float)) SpriteBox.half) = Ok 0%Z)
    by (vm_compute; reflexivity).
  assert (Hzero : num_int (SpriteBox.zero (F := float)) = Ok 0%Z)
    by (vm_compute; reflexivity).
  assert (Hh : hashable (ColorName "white") = true) by reflexivity.
  assert (Hk : _known_text (example_game float) !! ("Hi"%string, 20%Z, ColorName "white",
                                                     false, false) = None)
    by (vm_compute; reflexivity).
  assert (Hf : font_render (Screen := example_screen) "Hi" 20 (ColorName "white") false false
               = Ok (16%Z, 20%Z, PxDrawn 1)) by (vm_compute; reflexivity).
  assert (Hfresh : _known_images (world (state (example_game float)))
                     !! _ImageKey_of (_ImageCache.surface_key
                                        (rendered (example_game float) 16 20 (PxDrawn 1)))
                   = None) by (vm_compute; reflexivity).
  destruct (from_text_shares_the_image (H0 := example_externals) (H1 := example_screen)
              (example_game float) 0 0 5 5 "Hi" 20 (ColorName "white") false false
              16 20 (PxDrawn 1) Hhalf Hzero Hh Hk Hf Hfresh)
    as (g1 & g2 & Hrun1 & Hrun2 & Hboxes & Hworld1 & Hworld2).
  exists g1, g2, (rendered (example_game float) 16 20 (PxDrawn 1)).
  split; [exact Hrun1|]. split; [exact Hrun2|].
  split; [rewrite Hboxes; reflexivity|].
  split; [rewrite Hboxes; reflexivity|].
  rewrite Hworld2, Hworld1. reflexivity.
Defined.

Lemma timer_loop_result_witness :
  timer (snd (run (timer_loop 30 (ret tt) (Some 1%Z) [USEREVENT]) (example_game float)))
  = 0%Z.
Proof.
  assert (E : fst (run (timer_loop 30 (ret tt) (Some 1%Z) [USEREVENT]) (example_game float))
              = Ok (Some true)) by (vm_compute; reflexivity).
  exact (proj1 (timer_loop_result 30 (ret tt) (Some 1%Z) [USEREVENT] (example_game float) _
                  true (run_result _ _ _ E))).
Defined.

Lemma timer_loop_counts_ticks_witness :
  run (timer_loop 30 (lift_state (SpriteBox.move 0%N 1 0)) (Some 2%Z)
         ([KEYDOWN 97; USEREVENT; KEYUP 97] ++ [USEREVENT; QUIT; USEREVENT])) (started float) =
  match run (handle_all (lift_state (SpriteBox.move 0%N 1 0))
               ([KEYDOWN 97; USEREVENT; KEYUP 97] ++ [USEREVENT]))
          (set_timer 33 (started float)) with
  | (Ok tt, g') => (Ok (Some true), set_timer 0 g')
  | (Raise e, g') => (Raise e, g')
  end.
Proof.
  assert (Hpos : (0 < 2)%Z) by reflexivity.
  assert (Hfps : num_eqb (num_of_Z (F := float) (if (60 <? 30)%Z then 60 else 30))
                   (num_of_Z 0) = false) by (vm_compute; reflexivity).
  assert (Hint : num_int (num_div (num_of_Z (F := float) 1000)
                            (num_of_Z (if (60 <? 30)%Z then 60 else 30))) = Ok 33%Z)
    by (vm_compute; reflexivity).
  assert (Hev : Forall (fun event => stops event = false) [KEYDOWN 97; USEREVENT; KEYUP 97])
    by (repeat constructor).
  exact (proj1 (timer_loop_counts_ticks 30 (lift_state (SpriteBox.move 0%N 1 0)) 2
                  [KEYDOWN 97; USEREVENT; KEYUP 97] [QUIT; USEREVENT]
                  (started float) 33 Hpos Hfps Hint Hev eq_refl)).
Defined.

Lemma keys_follow_the_events_witness :
  exists keys,
    let g' := set_instance
                (Some (camera.set_keys (fun _ => keys)
                         (camera.mk {| surf_id := 0; get_width := 800; get_height := 600;
                                       surf_pixels := PxDrawn 0 |}
                            Camera.zero Camera.zero ∅)))
                (started float) in
    run (event_loop (ret tt) None 0 ([KEYDOWN 97; KEYDOWN 98; KEYUP 97; KEYUP 99] ++ [QUIT]))
      (started float)
    = (Ok (Some 0%Z), g') /\
    run (Key.is_pressed 97) g' = (Ok false, g') /\
    run (Key.is_pressed 98) g' = (Ok true, g').
Proof.
  assert (Hc : instance (started float)
               = Some (camera.mk {| surf_id := 0; get_width := 800; get_height := 600;
                                    surf_pixels := PxDrawn 0 |}
                         Camera.zero Camera.zero ∅))
    by (vm_compute; reflexivity).
  assert (Hev : Forall (fun e => stops e = false /\ e <> USEREVENT)
                  [KEYDOWN 97; KEYDOWN 98; KEYUP 97; KEYUP 99])
    by (repeat constructor; discriminate).
  destruct (keys_follow_the_events (ret tt) None 0 _ [QUIT] (started float) _ Hc eq_refl Hev)
    as (keys & Hrun & Hkeys).
  exists keys. cbv zeta in Hrun, Hkeys |- *.
  split; [exact Hrun|]. split; [exact (Hkeys 97%Z) | exact (Hkeys 98%Z)].
Defined.
End float_game_examples.
